(** * RadarPulse: multi-site pulse detection network

    A shallow embedding of the Python sources
      - [src/models/network.py]        (per-site encoder/decoder network),
      - [src/models/network_joint.py]  (cross-site fusion and orchestrator),
      - [src/data/dataset.py]          (sample loading and normalisation),
      - [src/config/config_classes.py] (configuration records),
    together with the properties stated for them.

    Tensors are modelled at the level each property needs: by their shape
    (a list of integers) where the property is about extents, by nested
    lists of values where it is about the numbers themselves; the values
    are float32 numbers with the arithmetic of IEEE 754 where the range of
    the network's output is concerned, and real numbers for the statistics
    of the data set.  A Python exception is an explicit [Raise] result. *)

From Stdlib Require Import ZArith QArith List Lia Reals Lra String Ascii.
From Stdlib Require Import Floats.SpecFloat.
From stdpp Require Import base list sorting gmap strings pretty.

Open Scope Z_scope.

(** ** Python results and exceptions *)

Inductive exn :=
| AttributeError (msg : string)
| IndexError (msg : string)
| KeyError (msg : string)
| RuntimeError (msg : string)
| ValueError (msg : string)
| AssertionError (msg : string)
| UnboundLocalError (msg : string)
| TypeError (msg : string)
| FileNotFoundError (msg : string).

Inductive result (A : Type) :=
| Ok (a : A)
| Raise (e : exn).
Arguments Ok {A} a.
Arguments Raise {A} e.

#[global] Instance result_ret : MRet result := fun A a => Ok a.
#[global] Instance result_bind : MBind result := fun A B f m =>
  match m with
  | Ok a => f a
  | Raise e => Raise e
  end.
#[global] Instance result_fmap : FMap result := fun A B f m =>
  match m with
  | Ok a => Ok (f a)
  | Raise e => Raise e
  end.

Definition is_Ok {A} (r : result A) : Prop := exists a, r = Ok a.

(** [for x in xs: acc = body(acc, x)] with exceptions. *)
Fixpoint for_each {A S} (body : S -> A -> result S) (xs : list A) (s : S)
  : result S :=
  match xs with
  | [] => Ok s
  | x :: xs' => s' ← body s x; for_each body xs' s'
  end.

(** [[f(x) for x in xs]] with exceptions. *)
Fixpoint list_comp {A B} (f : A -> result B) (xs : list A) : result (list B) :=
  match xs with
  | [] => Ok []
  | x :: xs' => y ← f x; ys ← list_comp f xs'; Ok (y :: ys)
  end.

(** ** Tensor shapes and the shape behaviour of the torch operations used *)

Module torch.

Definition shape := list Z.

Definition numel (s : shape) : Z := foldr Z.mul 1 s.

(** [x.transpose(1, 2)] *)
Definition transpose12 (x : shape) : result shape :=
  match x with
  | d0 :: d1 :: d2 :: rest => Ok (d0 :: d2 :: d1 :: rest)
  | _ => Raise (IndexError "Dimension out of range")
  end.

(** [x.unsqueeze(1)] *)
Definition unsqueeze1 (x : shape) : result shape :=
  match x with
  | d0 :: rest => Ok (d0 :: 1 :: rest)
  | [] => Raise (IndexError "Dimension out of range")
  end.

(** [x.squeeze(1)]: drops axis 1 when its extent is 1, otherwise a no-op. *)
Definition squeeze1 (x : shape) : result shape :=
  match x with
  | d0 :: d1 :: rest => if decide (d1 = 1) then Ok (d0 :: rest) else Ok x
  | _ => Raise (IndexError "Dimension out of range")
  end.

(** [torch.topk(x, k, dim=2)[0]] *)
Definition topk2 (k : Z) (x : shape) : result shape :=
  match x with
  | d0 :: d1 :: d2 :: rest =>
      if decide (0 <= k <= d2) then Ok (d0 :: d1 :: k :: rest)
      else Raise (RuntimeError "selected index k out of range")
  | _ => Raise (IndexError "Dimension out of range")
  end.

(** [torch.cat(xs, dim=1)] for two operands. *)
Definition cat1_pair (x y : shape) : result shape :=
  match x, y with
  | a0 :: a1 :: arest, b0 :: b1 :: brest =>
      if decide (a0 = b0 /\ arest = brest) then Ok (a0 :: (a1 + b1) :: arest)
      else Raise (RuntimeError "Sizes of tensors must match except in dimension 1")
  | _, _ => Raise (IndexError "Dimension out of range")
  end.

(** [torch.cat(xs, dim=1)] *)
Fixpoint cat1 (xs : list shape) : result shape :=
  match xs with
  | [] => Raise (RuntimeError "torch.cat(): expected a non-empty list of Tensors")
  | [x] => match x with
           | _ :: _ :: _ => Ok x
           | _ => Raise (IndexError "Dimension out of range")
           end
  | x :: rest => y ← cat1 rest; cat1_pair x y
  end.

(** [torch.stack(xs, dim=1)] *)
Definition stack1 (xs : list shape) : result shape :=
  match xs with
  | [] => Raise (RuntimeError "stack expects a non-empty TensorList")
  | x :: rest =>
      if decide (Forall (fun y => y = x) rest) then
        match x with
        | d0 :: r => Ok (d0 :: Z.of_nat (length xs) :: r)
        | [] => Raise (IndexError "Dimension out of range")
        end
      else Raise (RuntimeError "stack expects each tensor to be equal size")
  end.

(** [x.reshape] with explicit extents. *)
Definition reshape (dims : shape) (x : shape) : result shape :=
  if decide (numel dims = numel x) then Ok dims
  else Raise (RuntimeError "shape is invalid for input size").

(** [x.mean(dim=1)] *)
Definition mean1 (x : shape) : result shape :=
  match x with
  | d0 :: _ :: rest => Ok (d0 :: rest)
  | _ => Raise (IndexError "Dimension out of range")
  end.

(** [x[:, i, :, :]] on a 4-D tensor. *)
Definition select1 (i : Z) (x : shape) : result shape :=
  match x with
  | [d0; d1; d2; d3] =>
      if decide (- d1 <= i < d1) then Ok [d0; d2; d3]
      else Raise (IndexError "index out of bounds for dimension 1")
  | _ => Raise (IndexError "too many indices for tensor")
  end.

(** Extent of the Python slice [:c] on an axis of extent [d]. *)
Definition slice_to (c d : Z) : Z :=
  if decide (c < 0) then Z.max 0 (d + c) else Z.min c d.

(** [x[:, i, :, :c]] on a 4-D tensor. *)
Definition select1_slice3 (i c : Z) (x : shape) : result shape :=
  match x with
  | [d0; d1; d2; d3] =>
      if decide (- d1 <= i < d1) then Ok [d0; d2; slice_to c d3]
      else Raise (IndexError "index out of bounds for dimension 1")
  | _ => Raise (IndexError "too many indices for tensor")
  end.

(** *** Layers ([torch.nn]) *)

Inductive layer :=
| Conv1d (in_channels out_channels kernel_size padding : Z)
| ConvTranspose1d (in_channels out_channels kernel_size stride : Z)
| Conv2d (in_channels out_channels : Z) (kernel_size padding : Z * Z)
| BatchNorm1d (num_features : Z)
| BatchNorm2d (num_features : Z)
| MaxPool1d (kernel_size : Z)
| Linear (in_features out_features : Z)
| LayerNorm (normalized_shape : Z)
| ReLU
| Sigmoid.

(** Output extent of a stride-1 convolution along one axis. *)
Definition conv_out (l k p : Z) : result Z :=
  if decide (k <= l + 2 * p) then Ok (l + 2 * p - k + 1)
  else Raise (RuntimeError "Kernel size can't be greater than actual input size").

(** Batch normalisation in training mode needs more than one value per
    channel. *)
Definition bn_batch_check (training : bool) (per_channel : Z) : result unit :=
  if training && bool_decide (per_channel = 1)
  then Raise (ValueError "Expected more than 1 value per channel when training")
  else Ok ().

Definition last_dim_apply (i o : Z) (x : shape) : result shape :=
  match reverse x with
  | d :: r =>
      if decide (d = i) then Ok (reverse (o :: r))
      else Raise (RuntimeError "shapes cannot be multiplied")
  | [] => Raise (RuntimeError "input must have at least one dimension")
  end.

Definition apply_layer (training : bool) (l : layer) (x : shape) : result shape :=
  match l with
  | Conv1d ci co k p =>
      match x with
      | [n; c; len] =>
          if decide (c = ci) then len' ← conv_out len k p; Ok [n; co; len']
          else Raise (RuntimeError "conv1d: input channels do not match weight")
      | [c; len] =>
          if decide (c = ci) then len' ← conv_out len k p; Ok [co; len']
          else Raise (RuntimeError "conv1d: input channels do not match weight")
      | _ => Raise (RuntimeError "Expected 2D (unbatched) or 3D (batched) input to conv1d")
      end
  | ConvTranspose1d ci co k s =>
      match x with
      | [n; c; len] =>
          if decide (c = ci) then Ok [n; co; (len - 1) * s + (k - 1) + 1]
          else Raise (RuntimeError "conv_transpose1d: input channels do not match weight")
      | [c; len] =>
          if decide (c = ci) then Ok [co; (len - 1) * s + (k - 1) + 1]
          else Raise (RuntimeError "conv_transpose1d: input channels do not match weight")
      | _ => Raise (RuntimeError "Expected 2D (unbatched) or 3D (batched) input to conv_transpose1d")
      end
  | Conv2d ci co (kh, kw) (ph, pw) =>
      match x with
      | [n; c; h; w] =>
          if decide (c = ci) then
            h' ← conv_out h kh ph; w' ← conv_out w kw pw; Ok [n; co; h'; w']
          else Raise (RuntimeError "conv2d: input channels do not match weight")
      | [c; h; w] =>
          if decide (c = ci) then
            h' ← conv_out h kh ph; w' ← conv_out w kw pw; Ok [co; h'; w']
          else Raise (RuntimeError "conv2d: input channels do not match weight")
      | _ => Raise (RuntimeError "Expected 3D (unbatched) or 4D (batched) input to conv2d")
      end
  | BatchNorm1d f =>
      match x with
      | [n; c] =>
          _ ← bn_batch_check training n;
          if decide (c = f) then Ok x
          else Raise (RuntimeError "running_mean should contain as many elements as channels")
      | [n; c; len] =>
          _ ← bn_batch_check training (n * len);
          if decide (c = f) then Ok x
          else Raise (RuntimeError "running_mean should contain as many elements as channels")
      | _ => Raise (ValueError "expected 2D or 3D input")
      end
  | BatchNorm2d f =>
      match x with
      | [n; c; h; w] =>
          _ ← bn_batch_check training (n * (h * w));
          if decide (c = f) then Ok x
          else Raise (RuntimeError "running_mean should contain as many elements as channels")
      | _ => Raise (ValueError "expected 4D input")
      end
  | MaxPool1d k =>
      match x with
      | [n; c; len] =>
          if decide (k <= len) then Ok [n; c; (len - k) / k + 1]
          else Raise (RuntimeError "max_pool1d: output size is too small")
      | [c; len] =>
          if decide (k <= len) then Ok [c; (len - k) / k + 1]
          else Raise (RuntimeError "max_pool1d: output size is too small")
      | _ => Raise (RuntimeError "max_pool1d: expected 2D or 3D input")
      end
  | Linear i o => last_dim_apply i o x
  | LayerNorm e => last_dim_apply e e x
  | ReLU => Ok x
  | Sigmoid => Ok x
  end.

(** [nn.Sequential] *)
Definition Sequential := list layer.

Definition Sequential_forward (training : bool) (layers : Sequential)
    (x : shape) : result shape :=
  for_each (fun x l => apply_layer training l x) layers x.

(** [nn.LSTM(..., bidirectional=True, batch_first=True)] *)
Record LSTM := {
  input_size : Z;
  hidden_size : Z;
  num_layers : Z;
  lstm_dropout : Q;
}.

(** Output of [lstm(x)[0]] for a bidirectional LSTM. *)
Definition LSTM_forward (m : LSTM) (x : shape) : result shape :=
  match x with
  | [n; len; c] =>
      if decide (c = input_size m) then Ok [n; len; 2 * hidden_size m]
      else Raise (RuntimeError "input.size(-1) must be equal to input_size")
  | [len; c] =>
      if decide (c = input_size m) then Ok [len; 2 * hidden_size m]
      else Raise (RuntimeError "input.size(-1) must be equal to input_size")
  | _ => Raise (RuntimeError "LSTM: Expected input to be 2D or 3D")
  end.

(** [nn.MultiheadAttention(embed_dim, num_heads, batch_first=True)] *)
Record MultiheadAttention := {
  embed_dim : Z;
  num_heads : Z;
}.

Definition MultiheadAttention_init (embed_dim num_heads : Z)
  : result MultiheadAttention :=
  if decide (embed_dim > 0 /\ num_heads > 0) then
    if decide (embed_dim `div` num_heads * num_heads = embed_dim) then
      Ok {| embed_dim := embed_dim; num_heads := num_heads |}
    else Raise (AssertionError "embed_dim must be divisible by num_heads")
  else Raise (ValueError "embed_dim and num_heads must be greater than 0").

(** Shape of [mha(x, x, x)[0]] (self-attention, batch first). *)
Definition MultiheadAttention_forward (m : MultiheadAttention) (x : shape)
  : result shape :=
  match x with
  | [b; len; e] =>
      if decide (e = embed_dim m) then Ok x
      else Raise (AssertionError "was expecting embedding dimension of embed_dim")
  | [len; e] =>
      if decide (e = embed_dim m) then Ok x
      else Raise (AssertionError "was expecting embedding dimension of embed_dim")
  | _ => Raise (AssertionError "query should be unbatched 2D or batched 3D tensor")
  end.

(** [a + b] for operands of one shape (no broadcasting is needed here). *)
Definition add (a b : shape) : result shape :=
  if decide (a = b) then Ok a
  else Raise (RuntimeError "The size of tensor a must match the size of tensor b").

End torch.

Import torch.

(** ** [src/config/config_classes.py]: [NetworkConfig] *)

(** The dataclass has no [validate] method and no [__post_init__]: building
    one never fails. *)
Record NetworkConfig := {
  cfg_seq_len : Z;
  cfg_reduce_channels : Z;
  cfg_hidden_channels : list Z;
  cfg_kernel_size : Z;
  cfg_use_lstm : bool;
  cfg_lstm_hidden_size : Z;
  cfg_lstm_num_layers : Z;
  cfg_dropout : Q;
}.

(** ** [src/models/network.py] *)

(** *** [SpatialReductionPreprocessing] *)

Record SpatialReductionPreprocessing := {
  srp_in_channels : Z;
  srp_out_channels : Z;
  spatial_temporal_processing : Sequential;
  channel_adjust : layer;
}.

Definition SpatialReductionPreprocessing_init (in_channels out_channels : Z)
  : SpatialReductionPreprocessing :=
  {| srp_in_channels := in_channels;
     srp_out_channels := out_channels;
     spatial_temporal_processing :=
       [ Conv2d 1 16 (5, 7) (2, 3); BatchNorm2d 16; ReLU;
         Conv2d 16 16 (5, 7) (2, 3); BatchNorm2d 16; ReLU ];
     channel_adjust := Conv2d 16 1 (1, 1) (0, 0) |}.

Definition SpatialReductionPreprocessing_forward (training : bool)
    (m : SpatialReductionPreprocessing) (x : shape) : result shape :=
  match x with
  | [batch; spatial; temporal] =>
      x ← unsqueeze1 x;
      x ← Sequential_forward training (spatial_temporal_processing m) x;
      x ← topk2 (srp_out_channels m) x;
      x ← apply_layer training (channel_adjust m) x;
      squeeze1 x
  | _ => Raise (ValueError "expected 3 values to unpack")
  end.

(** *** [EncoderBlock] *)

Record EncoderBlock := {
  enc_conv : Sequential;
  enc_pool : layer;
}.

Definition EncoderBlock_init (in_channels out_channels kernel_size : Z)
  : EncoderBlock :=
  {| enc_conv :=
       [ Conv1d in_channels out_channels kernel_size (kernel_size `div` 2);
         BatchNorm1d out_channels; ReLU;
         Conv1d out_channels out_channels kernel_size (kernel_size `div` 2);
         BatchNorm1d out_channels; ReLU ];
     enc_pool := MaxPool1d 2 |}.

(** Returns the pooled tensor and the pre-pool features. *)
Definition EncoderBlock_forward (training : bool) (b : EncoderBlock)
    (x : shape) : result (shape * shape) :=
  features ← Sequential_forward training (enc_conv b) x;
  pooled ← apply_layer training (enc_pool b) features;
  Ok (pooled, features).

(** *** [DecoderBlock] *)

Record DecoderBlock := {
  transposed_conv : layer;
  dec_conv : Sequential;
}.

Definition DecoderBlock_init (in_channels out_channels kernel_size : Z)
  : DecoderBlock :=
  {| transposed_conv := ConvTranspose1d in_channels in_channels 2 2;
     dec_conv :=
       [ Conv1d (in_channels * 2) in_channels kernel_size (kernel_size `div` 2);
         BatchNorm1d in_channels; ReLU;
         Conv1d in_channels out_channels kernel_size (kernel_size `div` 2);
         BatchNorm1d out_channels; ReLU ] |}.

Definition DecoderBlock_forward (training : bool) (b : DecoderBlock)
    (x skip : shape) : result shape :=
  x ← apply_layer training (transposed_conv b) x;
  x ← cat1 [x; skip];
  Sequential_forward training (dec_conv b) x.

(** *** [PulseDetectionNet] *)

Record PulseDetectionNet := {
  seq_len : Z;
  use_lstm : bool;
  spatial_processing : SpatialReductionPreprocessing;
  encoder_blocks : list EncoderBlock;
  lstm : option LSTM;
  decoder_blocks : list DecoderBlock;
  final : Sequential;
}.

(** Keyword arguments of [PulseDetectionNet.__init__]. *)
Record PulseDetectionNet_args := {
  in_channels : Z;
  arg_seq_len : Z;
  reduce_channels : Z;
  hidden_channels : list Z;
  kernel_size : Z;
  arg_use_lstm : bool;
  lstm_hidden_size : Z;
  lstm_num_layers : Z;
  dropout : Q;
}.

(** The defaults of the signature. *)
Definition default_args (in_channels seq_len : Z) : PulseDetectionNet_args :=
  {| in_channels := in_channels;
     arg_seq_len := seq_len;
     reduce_channels := 8;
     hidden_channels := [64; 128; 256];
     kernel_size := 5;
     arg_use_lstm := true;
     lstm_hidden_size := 128;
     lstm_num_layers := 2;
     dropout := (1 # 10)%Q |}.

(** [NetworkConfig] unpacked into the constructor. *)
Definition args_of_config (in_channels : Z) (c : NetworkConfig)
  : PulseDetectionNet_args :=
  {| in_channels := in_channels;
     arg_seq_len := cfg_seq_len c;
     reduce_channels := cfg_reduce_channels c;
     hidden_channels := cfg_hidden_channels c;
     kernel_size := cfg_kernel_size c;
     arg_use_lstm := cfg_use_lstm c;
     lstm_hidden_size := cfg_lstm_hidden_size c;
     lstm_num_layers := cfg_lstm_num_layers c;
     dropout := cfg_dropout c |}.

(** [xs[-1]] *)
Definition py_last {A} (xs : list A) : result A :=
  match last xs with
  | Some x => Ok x
  | None => Raise (IndexError "list index out of range")
  end.

(** [xs[i]] for a non-negative index. *)
Definition py_nth {A} (xs : list A) (i : nat) : result A :=
  match xs !! i with
  | Some x => Ok x
  | None => Raise (IndexError "list index out of range")
  end.

(** The encoder loop of [__init__]: the blocks and the final
    [current_channels]. *)
Definition init_encoders (kernel_size : Z) (hidden_channels : list Z)
    (current_channels : Z) : list EncoderBlock * Z :=
  foldl (fun '(blocks, current_channels) hidden_ch =>
           (blocks ++ [EncoderBlock_init current_channels hidden_ch kernel_size],
            hidden_ch))
        ([], current_channels) hidden_channels.

(** The decoder loop of [__init__], by index over
    [hidden_channels_reversed]. *)
Definition init_decoders (kernel_size : Z) (hidden_channels_reversed : list Z)
    (current_channels : Z) : result (list DecoderBlock * Z) :=
  for_each (fun '(blocks, current_channels) (i : nat) =>
              let in_ch := current_channels in
              out_ch ← py_nth hidden_channels_reversed (i + 1)%nat;
              Ok (blocks ++ [DecoderBlock_init in_ch out_ch kernel_size], out_ch))
           (seq 0 (length hidden_channels_reversed - 1))
           ([], current_channels).

Definition PulseDetectionNet_init (a : PulseDetectionNet_args)
  : result PulseDetectionNet :=
  let spatial := SpatialReductionPreprocessing_init (in_channels a) (reduce_channels a) in
  let current_channels := reduce_channels a in
  let '(encoders, current_channels) :=
    init_encoders (kernel_size a) (hidden_channels a) current_channels in
  '(lstm, current_channels) ←
    (if arg_use_lstm a then
       last_ch ← py_last (hidden_channels a);
       Ok (Some {| input_size := last_ch;
                   hidden_size := lstm_hidden_size a;
                   num_layers := lstm_num_layers a;
                   lstm_dropout :=
                     if decide (lstm_num_layers a > 1) then dropout a else 0%Q |},
           lstm_hidden_size a * 2)
     else Ok (None, current_channels));
  let hidden_channels_reversed := reverse (hidden_channels a) ++ [32] in
  '(decoders, current_channels) ←
    init_decoders (kernel_size a) hidden_channels_reversed current_channels;
  Ok {| seq_len := arg_seq_len a;
        use_lstm := arg_use_lstm a;
        spatial_processing := spatial;
        encoder_blocks := encoders;
        lstm := lstm;
        decoder_blocks := decoders;
        final := [ Conv1d 32 32 3 1; BatchNorm1d 32; ReLU; Conv1d 32 1 1 0; Sigmoid ] |}.

(** The encoder loop of [forward]: the bottleneck input and the skip
    connections in creation order. *)
Definition encoder_loop (training : bool) (blocks : list EncoderBlock)
    (x : shape) : result (shape * list shape) :=
  for_each (fun '(x, skip_connections) encoder =>
              '(x, features) ← EncoderBlock_forward training encoder x;
              Ok (x, skip_connections ++ [features]))
           blocks (x, []).

(** The LSTM at the bottleneck. *)
Definition lstm_bottleneck (m : PulseDetectionNet) (x : shape) : result shape :=
  if use_lstm m then
    match x with
    | [batch_size; channels; seq_len] =>
        x ← transpose12 x;
        x ← match lstm m with
            | Some l => LSTM_forward l x
            | None => Raise (AttributeError "'PulseDetectionNet' object has no attribute 'lstm'")
            end;
        transpose12 x
    | _ => Raise (ValueError "expected 3 values to unpack")
    end
  else Ok x.

(** [zip(xs, ys)] *)
Fixpoint py_zip {A B} (xs : list A) (ys : list B) : list (A * B) :=
  match xs, ys with
  | x :: xs', y :: ys' => (x, y) :: py_zip xs' ys'
  | _, _ => []
  end.

(** The decoder loop of [forward]; [skip_connections] is already reversed. *)
Definition decoder_loop (training : bool) (blocks : list DecoderBlock)
    (skip_connections : list shape) (x : shape) : result shape :=
  for_each (fun x '(decoder, skip) => DecoderBlock_forward training decoder x skip)
           (py_zip blocks skip_connections) x.

Definition PulseDetectionNet_forward (training : bool) (m : PulseDetectionNet)
    (x : shape) : result shape :=
  x ← transpose12 x;
  x ← SpatialReductionPreprocessing_forward training (spatial_processing m) x;
  '(x, skip_connections) ← encoder_loop training (encoder_blocks m) x;
  x ← lstm_bottleneck m x;
  let skip_connections := reverse skip_connections in
  x ← decoder_loop training (decoder_blocks m) skip_connections x;
  x ← Sequential_forward training (final m) x;
  transpose12 x.

(** The layers of [self.final]. *)
Definition final_layers : Sequential :=
  [ Conv1d 32 32 3 1; BatchNorm1d 32; ReLU; Conv1d 32 1 1 0; Sigmoid ].

(** The two construction loops, as recursions on the channel schedule. *)
Fixpoint enc_chain (kernel_size current : Z) (hidden : list Z) : list EncoderBlock :=
  match hidden with
  | [] => []
  | h :: hidden' => EncoderBlock_init current h kernel_size :: enc_chain kernel_size h hidden'
  end.

Fixpoint dec_chain (kernel_size current : Z) (outs : list Z) : list DecoderBlock :=
  match outs with
  | [] => []
  | o :: outs' => DecoderBlock_init current o kernel_size :: dec_chain kernel_size o outs'
  end.

(** Steps through the [decide]s of a shape computation. *)
Ltac shape_cases :=
  repeat (unfold mbind, result_bind in *; simpl in *;
    match goal with
    | H : Ok _ = Ok _ |- _ => injection H as H
    | H : Raise _ = Ok _ |- _ => discriminate H
    | H : context [bn_batch_check ?t ?n] |- _ =>
        unfold bn_batch_check in H; destruct t; simpl in H
    | |- context [bn_batch_check ?t ?n] =>
        unfold bn_batch_check; destruct t; simpl
    | H : context [conv_out ?l ?k ?p] |- _ => unfold conv_out in H
    | |- context [conv_out ?l ?k ?p] => unfold conv_out
    | H : context [bool_decide ?P] |- _ => destruct (bool_decide_reflect P)
    | |- context [bool_decide ?P] => destruct (bool_decide_reflect P)
    | H : context [decide ?P] |- _ => destruct (decide P)
    | |- context [decide ?P] => destruct (decide P)
    end);
  unfold mbind, result_bind in *; simpl in *.

(** [PulseDetectionNet(..., seq_len=L, ...)] *)
Definition with_seq_len (L : Z) (a : PulseDetectionNet_args) : PulseDetectionNet_args :=
  {| in_channels := in_channels a;
     arg_seq_len := L;
     reduce_channels := reduce_channels a;
     hidden_channels := hidden_channels a;
     kernel_size := kernel_size a;
     arg_use_lstm := arg_use_lstm a;
     lstm_hidden_size := lstm_hidden_size a;
     lstm_num_layers := lstm_num_layers a;
     dropout := dropout a |}.

(** Construction raises. *)
Definition rejected_at_construction (a : PulseDetectionNet_args) : Prop :=
  exists e, PulseDetectionNet_init a = Raise e.

(** ** [src/models/network_joint.py] *)

(** [xs[i]] for a Python integer index (negative indices count from the
    end). *)
Definition py_index {A} (xs : list A) (i : Z) : result A :=
  let n := Z.of_nat (length xs) in
  if decide (0 <= i < n) then py_nth xs (Z.to_nat i)
  else if decide (- n <= i < 0) then py_nth xs (Z.to_nat (n + i))
  else Raise (IndexError "list index out of range").

(** [range(n)] and [range(a, b)] *)
Definition py_range (n : Z) : list Z := Z.of_nat <$> seq 0 (Z.to_nat n).
Definition py_range2 (a b : Z) : list Z := (fun k => a + Z.of_nat k) <$> seq 0 (Z.to_nat (b - a)).

(** [enumerate(xs)] *)
Definition py_enumerate {A} (xs : list A) : list (Z * A) :=
  py_zip (py_range (Z.of_nat (length xs))) xs.

(** *** [CrossSiteTemporalAttention] *)

Record CrossSiteTemporalAttention := {
  site_attention : MultiheadAttention;
  temporal_attention : MultiheadAttention;
  norm1 : layer;
  norm2 : layer;
}.

Definition CrossSiteTemporalAttention_init (hidden_size : Z) (num_heads : Z)
  : result CrossSiteTemporalAttention :=
  site_attention ← MultiheadAttention_init hidden_size num_heads;
  temporal_attention ← MultiheadAttention_init hidden_size num_heads;
  Ok {| site_attention := site_attention;
        temporal_attention := temporal_attention;
        norm1 := LayerNorm hidden_size;
        norm2 := LayerNorm hidden_size |}.

Definition CrossSiteTemporalAttention_forward (training : bool)
    (m : CrossSiteTemporalAttention) (site_features : list shape)
  : result (list shape) :=
  stacked ← stack1 site_features;
  match stacked with
  | [N; num_sites; L; C] =>
      (* 1. cross-site attention at each timepoint *)
      reshaped ← transpose12 stacked ≫= reshape [N * L; num_sites; C];
      site_attn ← MultiheadAttention_forward (site_attention m) reshaped;
      site_attn ← add site_attn reshaped ≫= apply_layer training (norm1 m);
      temporal_input ← reshape [N; L; num_sites; C] site_attn ≫= transpose12;
      temporal_input ← reshape [N * num_sites; L; C] temporal_input;
      (* 2. temporal attention for each site's features *)
      temporal_attn ← MultiheadAttention_forward (temporal_attention m) temporal_input;
      temporal_attn ← add temporal_attn temporal_input ≫= apply_layer training (norm2 m);
      output ← reshape [N; num_sites; L; C] temporal_attn;
      list_comp (fun i => select1 i output) (py_range num_sites)
  | _ => Raise (ValueError "expected 4 values to unpack")
  end.

(** *** [PTTRegressionHead] *)

Record PTTRegressionHead := {
  fc : Sequential;
}.

Definition PTTRegressionHead_init (in_features hidden_features : Z)
  : PTTRegressionHead :=
  {| fc := [ Linear in_features hidden_features; ReLU;
             BatchNorm1d hidden_features; Linear hidden_features 1 ] |}.

Definition PTTRegressionHead_forward (training : bool) (m : PTTRegressionHead)
    (x : shape) : result shape :=
  Sequential_forward training (fc m) x.

(** *** [MultiSitePulseDetectionNet] *)

(** The tensor operations [forward] itself applies. *)
Class TensorOps (T : Type) := {
  t_select1_slice3 : Z -> Z -> T -> result T;  (* [x[:, i, :, :c]] *)
  t_mean1 : T -> result T;                     (* [x.mean(dim=1)] *)
  t_cat1 : list T -> result T;                 (* [torch.cat(xs, dim=1)] *)
  t_stack1 : list T -> result T;               (* [torch.stack(xs, dim=1)] *)
}.

#[global] Instance shape_ops : TensorOps shape := {
  t_select1_slice3 := select1_slice3;
  t_mean1 := mean1;
  t_cat1 := cat1;
  t_stack1 := stack1;
}.

(** The methods [forward] looks up on each site network.  A method the
    object's class does not define is [None]. *)
Record SiteNetwork (T : Type) := {
  encode : option (T -> result (T * list T));
  bottleneck : option (T -> result T);
  decode : option (T -> list T -> result T);
}.
Arguments encode {T} _.
Arguments bottleneck {T} _.
Arguments decode {T} _.

(** [obj.name] *)
Definition getattr {M} (name : string) (slot : option M) : result M :=
  match slot with
  | Some f => Ok f
  | None => Raise (AttributeError
      ("'PulseDetectionNet' object has no attribute '" +:+ name +:+ "'"))
  end.

Record MultiSitePulseDetectionNet (T : Type) := {
  num_sites : Z;
  site_networks : list (SiteNetwork T);
  site_in_channels : list Z;
  enable_fusion : bool;
  direct_ptt : bool;
  cross_site_attention : option (list T -> result (list T));
  all_pairs : option (list (Z * Z));
  ptt_regression_heads : option (gmap string (T -> result T));
}.
Arguments num_sites {T} _.
Arguments site_networks {T} _.
Arguments site_in_channels {T} _.
Arguments enable_fusion {T} _.
Arguments direct_ptt {T} _.
Arguments cross_site_attention {T} _.
Arguments all_pairs {T} _.
Arguments ptt_regression_heads {T} _.

(** [f'{pair[0]}_{pair[1]}'] *)
Definition pair_key (pair : Z * Z) : string :=
  pretty pair.1 +:+ "_" +:+ pretty pair.2.

(** An attribute [__init__] assigns only on some branches. *)
Definition self_attr {M} (name : string) (slot : option M) : result M :=
  match slot with
  | Some v => Ok v
  | None => Raise (AttributeError
      ("'MultiSitePulseDetectionNet' object has no attribute '" +:+ name +:+ "'"))
  end.

Section Forward.
Context {T : Type} `{TensorOps T}.

(** The per-site encoding loop: [encoded_features] and [skip_connections]. *)
Definition encode_sites (m : MultiSitePulseDetectionNet T) (site_inputs : T)
  : result (list T * list (list T)) :=
  for_each (fun '(encoded_features, skip_connections) '(i, network) =>
              encode_method ← getattr "encode" (encode network);
              in_ch ← py_index (site_in_channels m) i;
              x ← t_select1_slice3 i in_ch site_inputs;
              '(feat, skip) ← encode_method x;
              bottleneck_method ← getattr "bottleneck" (bottleneck network);
              feat ← bottleneck_method feat;
              Ok (encoded_features ++ [feat], skip_connections ++ [skip]))
           (py_enumerate (site_networks m)) ([], []).

(** The cross-site fusion step: [fused_features]. *)
Definition fuse (m : MultiSitePulseDetectionNet T) (encoded_features : list T)
  : result (list T) :=
  if enable_fusion m then
    attention ← self_attr "cross_site_attention" (cross_site_attention m);
    attention encoded_features
  else Ok encoded_features.

(** The direct PTT regression branch. *)
Definition ptt_branch (m : MultiSitePulseDetectionNet T) (fused_features : list T)
  : result T :=
  pooled_features ← list_comp t_mean1 fused_features;
  pairs ← self_attr "all_pairs" (all_pairs m);
  ptt_outputs ← for_each (fun ptt_outputs pair =>
      let key := pair_key pair in
      a ← py_index pooled_features pair.1;
      b ← py_index pooled_features pair.2;
      reg_input ← t_cat1 [a; b];
      heads ← self_attr "ptt_regression_heads" (ptt_regression_heads m);
      head ← match heads !! key with
             | Some head => Ok head
             | None => Raise (KeyError key)
             end;
      ptt_value ← head reg_input;
      Ok (ptt_outputs ++ [ptt_value]))
    pairs [];
  t_cat1 ptt_outputs.

(** The decoding branch. *)
Definition decode_branch (m : MultiSitePulseDetectionNet T)
    (fused_features : list T) (skip_connections : list (list T)) : result T :=
  outputs ← for_each (fun outputs '(i, network) =>
      decode_method ← getattr "decode" (decode network);
      f ← py_index fused_features i;
      s ← py_index skip_connections i;
      out ← decode_method f s;
      Ok (outputs ++ [out]))
    (py_enumerate (site_networks m)) [];
  t_stack1 outputs.

(** What follows fusion in [forward]. *)
Definition output_branch (m : MultiSitePulseDetectionNet T)
    (fused_features : list T) (skip_connections : list (list T)) : result T :=
  if direct_ptt m then ptt_branch m fused_features
  else decode_branch m fused_features skip_connections.

Definition MultiSitePulseDetectionNet_forward (m : MultiSitePulseDetectionNet T)
    (site_inputs : T) : result T :=
  '(encoded_features, skip_connections) ← encode_sites m site_inputs;
  fused_features ← fuse m encoded_features;
  output_branch m fused_features skip_connections.

End Forward.

(** *** Construction of the orchestrator *)

(** A site configuration dictionary: the keyword arguments it provides. *)
Record site_config := {
  sc_in_channels : option Z;
  sc_seq_len : option Z;
  sc_reduce_channels : option Z;
  sc_hidden_channels : option (list Z);
  sc_kernel_size : option Z;
  sc_use_lstm : option bool;
  sc_lstm_hidden_size : option Z;
  sc_lstm_num_layers : option Z;
  sc_dropout : option Q;
}.

(** [config[key]] *)
Definition dict_get {A} (key : string) (slot : option A) : result A :=
  match slot with
  | Some v => Ok v
  | None => Raise (KeyError key)
  end.

(** A required argument of a call that unpacks [config] as keywords. *)
Definition required {A} (name : string) (slot : option A) : result A :=
  match slot with
  | Some v => Ok v
  | None => Raise (TypeError ("missing required positional argument: '" +:+ name +:+ "'"))
  end.

(** [PulseDetectionNet] called with [config] unpacked as keywords. *)
Definition PulseDetectionNet_kwargs (c : site_config) : result PulseDetectionNet :=
  in_ch ← required "in_channels" (sc_in_channels c);
  len ← required "seq_len" (sc_seq_len c);
  let d := default_args in_ch len in
  PulseDetectionNet_init
    {| in_channels := in_ch;
       arg_seq_len := len;
       reduce_channels := default (reduce_channels d) (sc_reduce_channels c);
       hidden_channels := default (hidden_channels d) (sc_hidden_channels c);
       kernel_size := default (kernel_size d) (sc_kernel_size c);
       arg_use_lstm := default (arg_use_lstm d) (sc_use_lstm c);
       lstm_hidden_size := default (lstm_hidden_size d) (sc_lstm_hidden_size c);
       lstm_num_layers := default (lstm_num_layers d) (sc_lstm_num_layers c);
       dropout := default (dropout d) (sc_dropout c) |}.

(** The sub-modules and attributes [__init__] creates. *)
Record MultiSite_modules := {
  ms_num_sites : Z;
  ms_site_networks : list PulseDetectionNet;
  ms_site_in_channels : list Z;
  ms_enable_fusion : bool;
  ms_direct_ptt : bool;
  ms_cross_site_attention : option CrossSiteTemporalAttention;
  ms_all_pairs : option (list (Z * Z));
  ms_fused_feature_dim : option Z;
  ms_ptt_regression_heads : option (gmap string PTTRegressionHead);
}.

(** The default pairing: every [(i, j)] with [i < j]. *)
Definition default_pairs (num_sites : Z) : list (Z * Z) :=
  i ← py_range num_sites; j ← py_range2 (i + 1) num_sites; [(i, j)].

Definition MultiSitePulseDetectionNet_init (site_configs : list site_config)
    (enable_fusion direct_ptt : bool) (pairs : option (list (Z * Z)))
  : result MultiSite_modules :=
  let num_sites := Z.of_nat (length site_configs) in
  site_networks ← list_comp PulseDetectionNet_kwargs site_configs;
  site_in_channels ←
    list_comp (fun config => dict_get "in_channels" (sc_in_channels config)) site_configs;
  config0 ← py_index site_configs 0;
  h ← dict_get "lstm_hidden_size" (sc_lstm_hidden_size config0);
  let lstm_hidden_size := h * 2 in
  cross_site_attention ←
    (if enable_fusion then Some <$> CrossSiteTemporalAttention_init lstm_hidden_size 4
     else Ok None);
  let all_pairs :=
    if direct_ptt then
      Some (match pairs with
            | None => default_pairs num_sites
            | Some pairs => pairs
            end)
    else None in
  let fused_feature_dim := if direct_ptt then Some lstm_hidden_size else None in
  let ptt_regression_heads :=
    (fun all_pairs : list (Z * Z) =>
      foldl (fun (heads : gmap string PTTRegressionHead) pair =>
             <[pair_key pair :=
                 PTTRegressionHead_init (2 * lstm_hidden_size) lstm_hidden_size]> heads)
          ∅ all_pairs) <$> all_pairs in
  Ok {| ms_num_sites := num_sites;
        ms_site_networks := site_networks;
        ms_site_in_channels := site_in_channels;
        ms_enable_fusion := enable_fusion;
        ms_direct_ptt := direct_ptt;
        ms_cross_site_attention := cross_site_attention;
        ms_all_pairs := all_pairs;
        ms_fused_feature_dim := fused_feature_dim;
        ms_ptt_regression_heads := ptt_regression_heads |}.

(** The methods of class [PulseDetectionNet] among those the orchestrator
    calls.  The class defines [__init__] and [forward] only, and [nn.Module]
    has no [encode], [bottleneck] or [decode]. *)
Definition PulseDetectionNet_methods (n : PulseDetectionNet) : SiteNetwork shape :=
  {| encode := None; bottleneck := None; decode := None |}.

(** The orchestrator as [forward] sees it, for a given way of resolving the
    site networks' methods. *)
Definition bind_modules (training : bool)
    (methods : PulseDetectionNet -> SiteNetwork shape) (m : MultiSite_modules)
  : MultiSitePulseDetectionNet shape :=
  {| num_sites := ms_num_sites m;
     site_networks := methods <$> ms_site_networks m;
     site_in_channels := ms_site_in_channels m;
     enable_fusion := ms_enable_fusion m;
     direct_ptt := ms_direct_ptt m;
     cross_site_attention :=
       CrossSiteTemporalAttention_forward training <$> ms_cross_site_attention m;
     all_pairs := ms_all_pairs m;
     ptt_regression_heads :=
       fmap (M := option) (fmap (M := gmap string) (PTTRegressionHead_forward training))
            (ms_ptt_regression_heads m) |}.

(** Modelled from the spec: the three stage methods the orchestrator calls
    on a site network and class [PulseDetectionNet] does not define, cut out
    of [PulseDetectionNet.forward] along the stages of section 4 (encode:
    spatial reduction and encoder stack, returning latent and skips;
    bottleneck: recurrent stage with output [(N, L, C)]; decode: decoder stack
    and final projection). *)
Definition staged_methods (training : bool) (n : PulseDetectionNet)
  : SiteNetwork shape :=
  {| encode := Some (fun x =>
       x ← transpose12 x;
       x ← SpatialReductionPreprocessing_forward training (spatial_processing n) x;
       encoder_loop training (encoder_blocks n) x);
     bottleneck := Some (fun x => lstm_bottleneck n x ≫= transpose12);
     decode := Some (fun x skip_connections =>
       x ← transpose12 x;
       x ← decoder_loop training (decoder_blocks n) (reverse skip_connections) x;
       x ← Sequential_forward training (final n) x;
       transpose12 x) |}.

(** The configuration of the end-to-end scenario. *)
Definition scenario_config (in_channels : Z) : site_config :=
  {| sc_in_channels := Some in_channels;
     sc_seq_len := Some 5000;
     sc_reduce_channels := Some 8;
     sc_hidden_channels := Some [64; 128; 256];
     sc_kernel_size := None;
     sc_use_lstm := None;
     sc_lstm_hidden_size := Some 128;
     sc_lstm_num_layers := None;
     sc_dropout := None |}.

Definition scenario_configs : list site_config :=
  [scenario_config 21; scenario_config 42; scenario_config 21].

(** The orchestrator of the end-to-end scenario, fusion and direct PTT
    regression enabled, default pairing. *)
Definition scenario_modules : result MultiSite_modules :=
  MultiSitePulseDetectionNet_init scenario_configs true true None.

(** ** Values: the spatial top-k reduction of [SpatialReductionPreprocessing] *)

(** A matrix as the list of its rows; [transpose] gives the list of its
    columns. *)
Fixpoint transpose {B} (M : list (list B)) : list (list B) :=
  match M with
  | [] => []
  | r :: M' =>
      match M' with
      | [] => (fun x => [x]) <$> r
      | _ => zip_with cons r (transpose M')
      end
  end.

Definition is_matrix {B} (rows cols : nat) (M : list (list B)) : Prop :=
  length M = rows /\ Forall (fun r => length r = cols) M.

Section SpatialSelection.
Context {A : Type}.
(** The order of the activation values. *)
Variable leb : A -> A -> bool.

(** Insertion into a list kept in descending order; an element goes in
    front of the first one it is not smaller than. *)
Fixpoint insert_desc (x : A) (l : list A) : list A :=
  match l with
  | [] => [x]
  | y :: l' => if leb y x then x :: y :: l' else y :: insert_desc x l'
  end.

Definition sort_desc (l : list A) : list A := foldr insert_desc [] l.

(** [torch.topk(col, k)[0]] on one column: the [k] largest values, largest
    first. *)
Definition topk_values (k : Z) (col : list A) : result (list A) :=
  if decide (0 <= k <= Z.of_nat (length col))
  then Ok (take (Z.to_nat k) (sort_desc col))
  else Raise (RuntimeError "selected index k out of range").

(** [torch.topk(x, k, dim=2)[0]] on [(batch, maps, spatial, temporal)]:
    each feature map is reduced column by column. *)
Definition topk_dim2 (k : Z) (x : list (list (list (list A))))
  : result (list (list (list (list A)))) :=
  list_comp (list_comp (fun M =>
    cols ← list_comp (topk_values k) (transpose M); Ok (transpose cols))) x.

(** [x.unsqueeze(1)] *)
Definition unsqueeze1_v (x : list (list (list A))) : list (list (list (list A))) :=
  (fun M : list (list A) => [M]) <$> x.

(** [x.squeeze(1)] where axis 1 has extent 1, as it has after
    [channel_adjust]. *)
Definition squeeze1_v (x : list (list (list (list A))))
  : result (list (list (list A))) :=
  list_comp (fun maps =>
    match maps with
    | [M] => Ok M
    | _ => Raise (RuntimeError "axis 1 does not have extent 1")
    end) x.

(** The learned parts: the two convolution stages, and the weights and bias
    of the 1x1 projection. *)
Variable spatial_temporal_processing_v :
  list (list (list (list A))) -> result (list (list (list (list A)))).
Variables (add mul : A -> A -> A) (weight : list A) (bias : A).

(** [nn.Conv2d(16, 1, kernel_size=1)] on the feature maps of one sample. *)
Definition conv1x1 (maps : list (list (list A))) : result (list (list A)) :=
  match maps with
  | [] => Raise (RuntimeError "conv2d: input channels do not match weight")
  | M0 :: _ =>
      if decide (length maps = length weight) then
        Ok (foldl (fun acc '(w, M) =>
                     zip_with (zip_with (fun a x => add a (mul w x))) acc M)
                  ((fun r : list A => (fun _ : A => bias) <$> r) <$> M0)
                  (zip weight maps))
      else Raise (RuntimeError "conv2d: input channels do not match weight")
  end.

Definition channel_adjust_v (x : list (list (list (list A))))
  : result (list (list (list (list A)))) :=
  list_comp (fun maps => M ← conv1x1 maps; Ok [M]) x.

Definition SpatialReductionPreprocessing_forward_v (out_channels : Z)
    (x : list (list (list A))) : result (list (list (list A))) :=
  let x := unsqueeze1_v x in
  x ← spatial_temporal_processing_v x;
  x ← topk_dim2 out_channels x;
  x ← channel_adjust_v x;
  squeeze1_v x.

(** *** The selection as the specification words it *)

(** Positions with their values, ranked by value, largest first; among
    equal values the smaller position comes first. *)
Fixpoint insert_ranked (p : nat * A) (l : list (nat * A)) : list (nat * A) :=
  match l with
  | [] => [p]
  | q :: l' => if leb q.2 p.2 then p :: q :: l' else q :: insert_ranked p l'
  end.

Definition enumerate_from (start : nat) (col : list A) : list (nat * A) :=
  imap (fun i v => (start + i, v)%nat) col.

Definition ranked (col : list A) : list (nat * A) :=
  foldr insert_ranked [] (enumerate_from 0 col).

(** The [k] positions holding the largest values, ties to the smaller
    position. *)
Definition stable_topk_positions (k : Z) (col : list A) : list nat :=
  (take (Z.to_nat k) (ranked col)).*1.

(** The values at the given positions. *)
Definition gather (col : list A) (positions : list nat) : list A :=
  omap (fun i => col !! i) positions.

Definition select_dim2 (k : Z) (x : list (list (list (list A))))
  : list (list (list (list A))) :=
  (fun maps : list (list (list A)) =>
     (fun M : list (list A) =>
        transpose ((fun col : list A => gather col (stable_topk_positions k col))
                   <$> transpose M))
     <$> maps) <$> x.

End SpatialSelection.

(** The ranking order on positions with values: a larger value first, and
    among equal values the smaller position first. *)
Definition ranks_before {A} (leb : A -> A -> bool) (p q : nat * A) : Prop :=
  leb q.2 p.2 = true /\ (leb p.2 q.2 = true -> (p.1 < q.1)%nat).

(** Descending order of values. *)
Definition ge_by {A} (leb : A -> A -> bool) (a b : A) : Prop := leb b a = true.

(** A stand-in for the two convolution stages, to run the reduction on
    concrete numbers: it copies the single input map into 16 feature maps. *)
Definition replicate_maps (x : list (list (list (list Z))))
  : result (list (list (list (list Z)))) :=
  Ok ((fun maps : list (list (list Z)) =>
         match maps with
         | [M] => replicate 16 M
         | _ => maps
         end) <$> x).

(** ** Values: float32 arithmetic and [PulseDetectionNet.forward] on values *)

(** [x.transpose(1, 2)] on a 3-D tensor. *)
Definition transpose12_v {B} (x : list (list (list B))) : list (list (list B)) :=
  transpose <$> x.

(** Every element of a 3-D tensor satisfies [P]. *)
Definition all_elements {B} (P : B -> Prop) (x : list (list (list B))) : Prop :=
  Forall (Forall (Forall P)) x.

(** The tensors of the network hold float32 values (IEEE 754 binary32:
    24 bits of precision, exponent bound 128), with the arithmetic of the
    standard: results are rounded to nearest-even, overflow gives an
    infinity, and [inf - inf], [0 * inf] and every operation on a NaN give
    NaN. *)
Definition float32 := spec_float.

Definition f32_add : float32 -> float32 -> float32 := SFadd 24 128.
Definition f32_sub : float32 -> float32 -> float32 := SFsub 24 128.
Definition f32_mul : float32 -> float32 -> float32 := SFmul 24 128.
Definition f32_div : float32 -> float32 -> float32 := SFdiv 24 128.
Definition f32_sqrt : float32 -> float32 := SFsqrt 24 128.
Definition f32_of_Z (n : Z) : float32 := binary_normalize 24 128 n 0 false.
Definition f32_zero : float32 := S754_zero false.
Definition f32_one : float32 := f32_of_Z 1.
(** The largest finite float32, [(2 - 2^-23) * 2^127]. *)
Definition f32_max : float32 := SFmax_float 24 128.

Definition is_nan (v : float32) : bool :=
  match v with
  | S754_nan => true
  | _ => false
  end.

(** [torch.isfinite] *)
Definition isfinite (v : float32) : bool :=
  match v with
  | S754_zero _ | S754_finite _ _ _ => true
  | S754_infinity _ | S754_nan => false
  end.

(** [0 <= v <= 1]; false for a NaN, which compares with nothing. *)
Definition in_unit_interval (v : float32) : bool :=
  SFleb f32_zero v && SFleb v f32_one.

(** A sum accumulated from left to right. *)
Definition f32_sum (l : list float32) : float32 := foldl f32_add f32_zero l.

(** *** Convolution *)

(** [weight[out][in][u][v]] and [bias[out]] of a [nn.Conv2d], of the
    extents the constructor gives them; a [nn.Conv1d] has kernels of one
    row. *)
Record Conv_parameters := {
  conv_weight : list (list (list (list float32)));
  conv_bias : list float32;
}.

(** Zero padding of one feature map, [ph] rows above and below and [pw]
    columns left and right. *)
Definition pad2d (ph pw : nat) (M : list (list float32)) : list (list float32) :=
  let blank := replicate (pw + from_option length 0%nat (head M) + pw) f32_zero in
  replicate ph blank
  ++ ((fun r : list float32 => replicate pw f32_zero ++ r ++ replicate pw f32_zero) <$> M)
  ++ replicate ph blank.

(** The [kh x kw] window of a feature map whose first entry is at
    [(i, j)]. *)
Definition window (kh kw i j : nat) (M : list (list float32)) : list (list float32) :=
  (fun r : list float32 => take kw (drop j r)) <$> take kh (drop i M).

(** The sum of the products of a kernel with a window. *)
Definition correlate (K W : list (list float32)) : float32 :=
  f32_sum (concat (zip_with (zip_with f32_mul) K W)).

Definition extent2 (sample : list (list (list float32))) : nat * nat :=
  match sample with
  | M :: _ => (length M, from_option length 0%nat (head M))
  | [] => (0%nat, 0%nat)
  end.

(** [nn.Conv2d(in_channels, _, kernel_size, padding=padding, stride=1)] on
    [(N, in_channels, H, W)]. *)
Definition conv2d (in_channels : Z) (kernel_size padding : Z * Z)
    (p : Conv_parameters) (x : list (list (list (list float32))))
  : result (list (list (list (list float32)))) :=
  let '(kh, kw) := kernel_size in
  let '(ph, pw) := padding in
  list_comp (fun sample : list (list (list float32)) =>
    if decide (Z.of_nat (length sample) = in_channels) then
      let '(h, w) := extent2 sample in
      h' ← conv_out (Z.of_nat h) kh ph;
      w' ← conv_out (Z.of_nat w) kw pw;
      let padded := pad2d (Z.to_nat ph) (Z.to_nat pw) <$> sample in
      Ok (zip_with (fun (K : list (list (list float32))) (b : float32) =>
            (fun i : nat =>
               (fun j : nat =>
                  foldl f32_add b
                    (zip_with (fun Kc M =>
                       correlate Kc (window (Z.to_nat kh) (Z.to_nat kw) i j M))
                       K padded))
               <$> seq 0 (Z.to_nat w'))
            <$> seq 0 (Z.to_nat h'))
          (conv_weight p) (conv_bias p))
    else Raise (RuntimeError "conv2d: input channels do not match weight")) x.

(** A row as a feature map of one row, and back. *)
Definition unsqueeze2 (x : list (list (list float32)))
  : list (list (list (list float32))) :=
  (fun sample : list (list float32) =>
     (fun r : list float32 => [r]) <$> sample) <$> x.

Definition squeeze2 (x : list (list (list (list float32))))
  : list (list (list float32)) :=
  (fun sample : list (list (list float32)) =>
     (fun M : list (list float32) => concat M) <$> sample) <$> x.

(** [nn.Conv1d(in_channels, _, kernel_size, padding=padding)] on
    [(N, in_channels, L)]: the two-dimensional convolution on maps of one
    row. *)
Definition conv1d (in_channels kernel_size padding : Z)
    (p : Conv_parameters) (x : list (list (list float32)))
  : result (list (list (list float32))) :=
  squeeze2 <$> conv2d in_channels (1, kernel_size) (0, padding) p (unsqueeze2 x).

(** *** Batch normalisation *)

(** [weight], [bias], [running_mean] and [running_var] of a
    [nn.BatchNorm1d] or [nn.BatchNorm2d]. *)
Record BatchNorm_parameters := {
  bn_weight : list float32;
  bn_bias : list float32;
  running_mean : list float32;
  running_var : list float32;
}.

(** [eps = 1e-5] as a float32. *)
Definition bn_eps : float32 := f32_div f32_one (f32_of_Z 100000).

(** Mean and biased variance of the values of one channel. *)
Definition batch_statistics (vals : list float32) : float32 * float32 :=
  let n := f32_of_Z (Z.of_nat (length vals)) in
  let mean := f32_div (f32_sum vals) n in
  let var :=
    f32_div (f32_sum ((fun v => let d := f32_sub v mean in f32_mul d d) <$> vals)) n in
  (mean, var).

Section BatchNorm.
(** What one sample holds for one channel: a row ([BatchNorm1d]) or a
    feature map ([BatchNorm2d]). *)
Context {A : Type}.
Variable values : A -> list float32.
Variable map_values : (float32 -> float32) -> A -> A.

(** In training mode the statistics are those of the batch, in evaluation
    mode the running ones (the update of the running statistics in training
    mode is left out).  Training mode needs more than one value per
    channel. *)
Definition batch_norm (training : bool) (num_features : Z)
    (p : BatchNorm_parameters) (x : list (list A)) : result (list (list A)) :=
  if decide (Forall (fun sample : list A => Z.of_nat (length sample) = num_features) x)
  then
    let channel (c : nat) : list float32 :=
      x ≫= (fun sample : list A => from_option values [] (sample !! c)) in
    _ ← bn_batch_check training (Z.of_nat (length (channel 0%nat)));
    Ok ((fun sample : list A =>
           imap (fun (c : nat) (a : A) =>
                   let '(mean, var) :=
                     if training then batch_statistics (channel c)
                     else (default f32_zero (running_mean p !! c),
                           default f32_one (running_var p !! c)) in
                   let std := f32_sqrt (f32_add var bn_eps) in
                   let weight := default f32_one (bn_weight p !! c) in
                   let bias := default f32_zero (bn_bias p !! c) in
                   map_values (fun v =>
                     f32_add (f32_mul (f32_div (f32_sub v mean) std) weight) bias) a)
                sample) <$> x)
  else Raise (RuntimeError "running_mean should contain as many elements as channels").

End BatchNorm.

Definition batch_norm1d :=
  batch_norm (A := list float32) (fun r => r)
    (fun (f : float32 -> float32) (r : list float32) => f <$> r).
Definition batch_norm2d :=
  batch_norm (A := list (list float32)) (fun M => concat M)
    (fun (f : float32 -> float32) (M : list (list float32)) =>
       (fun r : list float32 => f <$> r) <$> M).

(** *** Activations *)

(** [nn.ReLU()] on one value; a NaN stays a NaN. *)
Definition relu (v : float32) : float32 :=
  match v with
  | S754_nan => S754_nan
  | _ => if SFltb v f32_zero then f32_zero else v
  end.

(** The order [torch.topk] ranks by: a NaN counts as larger than every
    number. *)
Definition topk_leb (a b : float32) : bool :=
  match a, b with
  | _, S754_nan => true
  | S754_nan, _ => false
  | _, _ => SFleb a b
  end.

(** The real number a finite float32 stands for. *)
Definition SF2R (v : float32) : R :=
  match v with
  | S754_finite s m e => ((if s then -1 else 1) * IZR (Zpos m) * powerRZ 2 e)%R
  | _ => 0%R
  end.

(** The logistic function [1 / (1 + exp (-x))] on the real numbers. *)
Definition logistic (x : R) : R := (1 / (1 + exp (- x)))%R.

Section Sigmoid.
(** Rounding of a real number to float32. *)
Variable round32 : R -> float32.

(** [nn.Sigmoid()] on one value, [1 / (1 + exp(-v))] in float32: a NaN
    gives a NaN, [exp] of the infinities is [0] and [inf], and for a number
    the result is the rounded value of the logistic function. *)
Definition sigmoid (v : float32) : float32 :=
  match v with
  | S754_nan => S754_nan
  | S754_infinity false => f32_one
  | S754_infinity true => f32_zero
  | S754_zero _ | S754_finite _ _ _ => round32 (logistic (SF2R v))
  end.

(** [nn.Sigmoid()] on a 3-D tensor. *)
Definition Sigmoid_v (x : list (list (list float32))) : list (list (list float32)) :=
  (fun M : list (list float32) => (fun r : list float32 => sigmoid <$> r) <$> M) <$> x.

End Sigmoid.

(** *** [SpatialReductionPreprocessing] and [PulseDetectionNet.final] on values *)

Record SpatialReductionPreprocessing_parameters := {
  processing_0 : Conv_parameters;
  processing_1 : BatchNorm_parameters;
  processing_3 : Conv_parameters;
  processing_4 : BatchNorm_parameters;
  (** [channel_adjust.weight[0][c][0][0]] and [channel_adjust.bias[0]] *)
  channel_adjust_weight : list float32;
  channel_adjust_bias : float32;
}.

Definition relu4 (x : list (list (list (list float32)))) : list (list (list (list float32))) :=
  (fun sample : list (list (list float32)) =>
     (fun M : list (list float32) =>
        (fun r : list float32 => relu <$> r) <$> M) <$> sample) <$> x.

Definition relu3 (x : list (list (list float32))) : list (list (list float32)) :=
  (fun sample : list (list float32) =>
     (fun r : list float32 => relu <$> r) <$> sample) <$> x.

(** [self.spatial_temporal_processing] *)
Definition spatial_temporal_processing_f32 (training : bool)
    (p : SpatialReductionPreprocessing_parameters)
    (x : list (list (list (list float32))))
  : result (list (list (list (list float32)))) :=
  x ← conv2d 1 (5, 7) (2, 3) (processing_0 p) x;
  x ← batch_norm2d training 16 (processing_1 p) x;
  let x := relu4 x in
  x ← conv2d 16 (5, 7) (2, 3) (processing_3 p) x;
  x ← batch_norm2d training 16 (processing_4 p) x;
  Ok (relu4 x).

(** [SpatialReductionPreprocessing.forward] *)
Definition SpatialReductionPreprocessing_forward_f32 (training : bool)
    (out_channels : Z) (p : SpatialReductionPreprocessing_parameters)
    (x : list (list (list float32))) : result (list (list (list float32))) :=
  SpatialReductionPreprocessing_forward_v topk_leb
    (spatial_temporal_processing_f32 training p) f32_add f32_mul
    (channel_adjust_weight p) (channel_adjust_bias p) out_channels x.

Record final_parameters := {
  final_0 : Conv_parameters;
  final_1 : BatchNorm_parameters;
  final_3 : Conv_parameters;
}.

(** The layers of [self.final] in front of the sigmoid. *)
Definition final_linear_f32 (training : bool) (p : final_parameters)
    (x : list (list (list float32))) : result (list (list (list float32))) :=
  x ← conv1d 32 3 1 (final_0 p) x;
  x ← batch_norm1d training 32 (final_1 p) x;
  let x := relu3 x in
  conv1d 32 1 0 (final_3 p) x.

(** *** [PulseDetectionNet.forward] on values *)

(** The modules of a [PulseDetectionNet] as functions on values.  The
    encoder blocks return the pooled tensor and the features; the LSTM,
    present when [use_lstm] is set, is [lstm(x)[0]]; [final_linear] stands
    for the layers of [self.final] in front of its sigmoid. *)
Record PulseDetectionNet_values := {
  spatial_processing_v : list (list (list float32)) -> result (list (list (list float32)));
  encoder_blocks_v :
    list (list (list (list float32))
          -> result (list (list (list float32)) * list (list (list float32))));
  lstm_v : option (list (list (list float32)) -> result (list (list (list float32))));
  decoder_blocks_v :
    list (list (list (list float32)) -> list (list (list float32))
          -> result (list (list (list float32))));
  final_linear : list (list (list float32)) -> result (list (list (list float32)));
}.

Section ForwardValues.
Variable round32 : R -> float32.

(** [self.final] *)
Definition final_v (m : PulseDetectionNet_values) (x : list (list (list float32)))
  : result (list (list (list float32))) :=
  x ← final_linear m x; Ok (Sigmoid_v round32 x).

Definition PulseDetectionNet_forward_v (m : PulseDetectionNet_values)
    (x : list (list (list float32))) : result (list (list (list float32))) :=
  let x := transpose12_v x in
  x ← spatial_processing_v m x;
  '(x, skip_connections) ←
    for_each (fun '(x, skip_connections) encoder =>
                '(x, features) ← encoder x;
                Ok (x, skip_connections ++ [features]))
             (encoder_blocks_v m) (x, []);
  x ← match lstm_v m with
      | Some lstm => x ← lstm (transpose12_v x); Ok (transpose12_v x)
      | None => Ok x
      end;
  let skip_connections := reverse skip_connections in
  x ← for_each (fun x '(decoder, skip) => decoder x skip)
               (zip (decoder_blocks_v m) skip_connections) x;
  x ← final_v m x;
  Ok (transpose12_v x).

End ForwardValues.

(** Parameters for running [PulseDetectionNet] on concrete numbers: a
    convolution whose weights all are [w] and whose biases are zero. *)
Definition constant_conv (out_channels in_channels kh kw : nat) (w : float32)
  : Conv_parameters :=
  {| conv_weight :=
       replicate out_channels (replicate in_channels (replicate kh (replicate kw w)));
     conv_bias := replicate out_channels f32_zero |}.

(** A freshly constructed batch normalisation: weight one, bias zero,
    running mean zero, running variance one. *)
Definition fresh_batch_norm (num_features : nat) : BatchNorm_parameters :=
  {| bn_weight := replicate num_features f32_one;
     bn_bias := replicate num_features f32_zero;
     running_mean := replicate num_features f32_zero;
     running_var := replicate num_features f32_one |}.

(** The parameters of a network whose convolutions all have weight one,
    except the last one, whose weights alternate between 1 and -1. *)
Definition overflow_spatial : SpatialReductionPreprocessing_parameters :=
  {| processing_0 := constant_conv 16 1 5 7 f32_one;
     processing_1 := fresh_batch_norm 16;
     processing_3 := constant_conv 16 16 5 7 f32_one;
     processing_4 := fresh_batch_norm 16;
     channel_adjust_weight := replicate 16 f32_one;
     channel_adjust_bias := f32_zero |}.

Definition overflow_final : final_parameters :=
  {| final_0 := constant_conv 32 32 1 3 f32_one;
     final_1 := fresh_batch_norm 32;
     final_3 :=
       {| conv_weight :=
            [(fun c : nat => [[if Nat.even c then f32_one else f32_of_Z (-1)]])
             <$> seq 0 32];
          conv_bias := [f32_zero] |} |}.

(** [PulseDetectionNet(in_channels=32, seq_len=2, reduce_channels=32,
    hidden_channels=[], use_lstm=False)]: no encoder block, no LSTM, no
    decoder block. *)
Definition overflow_args : PulseDetectionNet_args :=
  {| in_channels := 32; arg_seq_len := 2; reduce_channels := 32;
     hidden_channels := []; kernel_size := 5; arg_use_lstm := false;
     lstm_hidden_size := 128; lstm_num_layers := 2; dropout := (1 # 10)%Q |}.

Definition overflow_net (training : bool) : PulseDetectionNet_values :=
  {| spatial_processing_v :=
       SpatialReductionPreprocessing_forward_f32 training 32 overflow_spatial;
     encoder_blocks_v := [];
     lstm_v := None;
     decoder_blocks_v := [];
     final_linear := final_linear_f32 training overflow_final |}.

(** One sample of two time steps and 32 channels, every entry the largest
    finite float32. *)
Definition overflow_input : list (list (list float32)) :=
  [replicate 2 (replicate 32 f32_max)].

(** A coarse rounding, to run the sigmoid on concrete numbers: a real
    number goes to 0 when it is not positive and to 1 otherwise. *)
Definition round_to_bit (r : R) : float32 :=
  if Rle_dec r 0%R then f32_zero else f32_one.

(** ** [load_pretrained] *)

(** [s.replace(old, new)] for a non-empty [old]: every occurrence of [old],
    found left to right without overlap, is replaced.  [skip] counts the
    characters of a matched occurrence still to be dropped. *)
Fixpoint py_replace_aux (old new : string) (skip : nat) (s : string) : string :=
  match s with
  | EmptyString => EmptyString
  | String c s' =>
      match skip with
      | S n => py_replace_aux old new n s'
      | O =>
          if String.prefix old s
          then new +:+ py_replace_aux old new (String.length old - 1) s'
          else String c (py_replace_aux old new 0 s')
      end
  end.

Definition py_replace (old new s : string) : string := py_replace_aux old new 0 s.

(** [old in s] *)
Fixpoint py_contains (old s : string) : bool :=
  String.prefix old s ||
  match s with
  | EmptyString => false
  | String _ s' => py_contains old s'
  end.

Fixpoint string_drop (n : nat) (s : string) : string :=
  match n, s with
  | S n', String _ s' => string_drop n' s'
  | _, _ => s
  end.

(** Removal of a prefix, as the specification words the renaming. *)
Definition removeprefix (p s : string) : string :=
  if String.prefix p s then string_drop (String.length p) s else s.

Section LoadPretrained.
(** Tensors stored in a checkpoint. *)
Context {V : Type}.
(** [torch.load(path)]: the stored dictionary, whose ['state_dict'] entry,
    when present, lists its items in insertion order. *)
Variable torch_load : string -> result (option (list (string * V))).
(** Whether a stored tensor fits the parameter or buffer it replaces. *)
Variable same_shape : V -> V -> bool.

(** [{k.replace('model.', ''): v for k, v in state_dict.items()}] *)
Definition new_state_dict (state_dict : list (string * V)) : gmap string V :=
  foldl (fun d '(k, v) => <[py_replace "model." "" k := v]> d) ∅ state_dict.

(** The stored tensor [v] fits the entry [k] of the network. *)
Definition fits (network : gmap string V) (k : string) (v : V) : bool :=
  match network !! k with
  | Some old => same_shape old v
  | None => false
  end.

(** [network.load_state_dict(d)] (strict): the network's own state
    dictionary afterwards. *)
Definition load_state_dict (network : gmap string V) (d : gmap string V)
  : result (gmap string V) :=
  if decide (dom d = dom network) then
    if decide (map_Forall (fun k v => fits network k v = true) d)
    then Ok d
    else Raise (RuntimeError "size mismatch")
  else Raise (RuntimeError "Missing or unexpected key(s) in state_dict").

(** The state dictionaries of the site networks after the call: those
    paired with a path are loaded, the others are left as they were. *)
Definition load_pretrained (site_networks : list (gmap string V))
    (paths : list string) : result (list (gmap string V)) :=
  loaded ← list_comp (fun '(network, path) =>
               checkpoint ← torch_load path;
               state_dict ← dict_get "state_dict" checkpoint;
               load_state_dict network (new_state_dict state_dict))
            (py_zip site_networks paths);
  Ok (loaded ++ drop (length paths) site_networks).

End LoadPretrained.

(** The items of a state dictionary with their keys renamed. *)
Definition renamed_items {V} (state_dict : list (string * V)) : list (string * V) :=
  (fun kv : string * V => (py_replace "model." "" kv.1, kv.2)) <$> state_dict.

(** A saved checkpoint and a site network to load it into, for running
    [load_pretrained] on concrete data. *)
Definition demo_torch_load (path : string) : result (option (list (string * Z))) :=
  if decide (path = "site0.ckpt")
  then Ok (Some [("model.final.0.weight", 1); ("model.final.0.bias", 2)])
  else Raise (FileNotFoundError path).

Definition demo_site_state : gmap string Z :=
  <["final.0.weight" := 0]> (<["final.0.bias" := 0]> ∅).

(** ** [freeze_site] and [unfreeze_site] *)

(** A parameter tensor: its numeric value and its [requires_grad] flag. *)
Record nn_Parameter (V : Type) := {
  p_data : V;
  requires_grad : bool;
}.
Arguments p_data {V} _.
Arguments requires_grad {V} _.

(** The parameter tensors are objects in a store, addressed by identity; a
    module holds the identities of the tensors its [parameters()] yields. *)
Record ModuleParameters (V : Type) := {
  store : list (nn_Parameter V);
  site_parameters : list (list nat);
  cross_site_attention_parameters : list nat;
  ptt_regression_head_parameters : gmap string (list nat);
}.
Arguments store {V} _.
Arguments site_parameters {V} _.
Arguments cross_site_attention_parameters {V} _.
Arguments ptt_regression_head_parameters {V} _.

(** Constructing a module creates its parameter tensors afresh, trainable,
    with the given initial values. *)
Definition create_parameters {V} (values : list V) (st : list (nn_Parameter V))
  : list nat * list (nn_Parameter V) :=
  (seq (length st) (length values),
   st ++ ((fun v => {| p_data := v; requires_grad := true |}) <$> values)).

(** The parameters [MultiSitePulseDetectionNet.__init__] creates, in its
    order: the site networks, the fusion block (no values when fusion is
    disabled), one regression head per pair key. *)
Definition init_parameters {V} (site_values : list (list V))
    (attention_values : list V) (head_values : list (string * list V))
  : ModuleParameters V :=
  let '(sites, st) :=
    foldl (fun '(sites, st) values =>
             let '(ids, st) := create_parameters values st in (sites ++ [ids], st))
          ([], []) site_values in
  let '(attention, st) := create_parameters attention_values st in
  let '(heads, st) :=
    foldl (fun '(heads, st) '(key, values) =>
             let '(ids, st) := create_parameters values st in
             (<[key := ids]> heads, st))
          (∅, st) head_values in
  {| store := st;
     site_parameters := sites;
     cross_site_attention_parameters := attention;
     ptt_regression_head_parameters := heads |}.

(** No parameter tensor of a site network is also a parameter of another
    site network, of the fusion block or of a regression head. *)
Definition separate_ownership {V} (m : ModuleParameters V) : Prop :=
  (forall i j a b x, i <> j ->
     site_parameters m !! i = Some a -> site_parameters m !! j = Some b ->
     x ∈ a -> x ∉ b) /\
  (forall i a x, site_parameters m !! i = Some a -> x ∈ a ->
     x ∉ cross_site_attention_parameters m) /\
  (forall i a key h x, site_parameters m !! i = Some a ->
     ptt_regression_head_parameters m !! key = Some h -> x ∈ a -> x ∉ h).

(** [param.requires_grad = flag] *)
Definition set_requires_grad {V} (flag : bool) (p : nn_Parameter V) : nn_Parameter V :=
  {| p_data := p_data p; requires_grad := flag |}.

(** The position [self.site_networks[site_idx]] denotes ([nn.ModuleList]
    indexing, negative indices from the end). *)
Definition site_position (n : nat) (site_idx : Z) : result nat :=
  if decide (- Z.of_nat n <= site_idx < Z.of_nat n) then
    Ok (Z.to_nat (if decide (site_idx < 0) then site_idx + Z.of_nat n else site_idx))
  else Raise (IndexError "index is out of range").

(** The store after [param.requires_grad = flag] for every [param] among
    [ids]. *)
Definition flag_parameters {V} (flag : bool) (ids : list nat)
    (st : list (nn_Parameter V)) : list (nn_Parameter V) :=
  foldl (fun st id => alter (set_requires_grad flag) id st) st ids.

Definition with_store {V} (st : list (nn_Parameter V)) (m : ModuleParameters V)
  : ModuleParameters V :=
  {| store := st;
     site_parameters := site_parameters m;
     cross_site_attention_parameters := cross_site_attention_parameters m;
     ptt_regression_head_parameters := ptt_regression_head_parameters m |}.

(** The loop [for param in self.site_networks[site_idx].parameters():
    param.requires_grad = flag]. *)
Definition set_site_requires_grad {V} (flag : bool) (site_idx : Z)
    (m : ModuleParameters V) : result (ModuleParameters V) :=
  i ← site_position (length (site_parameters m)) site_idx;
  ids ← py_nth (site_parameters m) i;
  Ok (with_store (flag_parameters flag ids (store m)) m).

Definition unfreeze_site {V} (site_idx : Z) (m : ModuleParameters V)
  : result (ModuleParameters V) :=
  set_site_requires_grad true site_idx m.

Definition freeze_site {V} (site_idx : Z) (m : ModuleParameters V)
  : result (ModuleParameters V) :=
  set_site_requires_grad false site_idx m.

Definition freeze_all_sites {V} (num_sites : Z) (m : ModuleParameters V)
  : result (ModuleParameters V) :=
  for_each (fun m i => freeze_site i m) (py_range num_sites) m.

(** A small orchestrator, for running the two operations: three sites with
    two, one and one parameter, a fusion block and one regression head. *)
Definition demo_parameters : ModuleParameters Z :=
  init_parameters [[11; 12]; [21]; [31]] [41] [("0_1", [51])].

(** ** [src/data/dataset.py]: normalisation in [PulseDataset._load_data] *)

(** Real-valued arrays [(samples, time, channels)] are nested lists; one
    sample is the list of its time rows. *)

Definition sum_list (l : list R) : R := foldr Rplus 0%R l.

(** [np.mean] and [np.std] (population standard deviation) of the values
    reduced together. *)
Definition np_mean (l : list R) : R := (sum_list l / INR (length l))%R.
Definition np_var (l : list R) : R :=
  np_mean ((fun x => (x - np_mean l) * (x - np_mean l))%R <$> l).
Definition np_std (l : list R) : R := sqrt (np_var l).

(** Reductions with [keepdims=True] on one sample: over the time axis
    ([axis=-2], one value per channel) and over time and channel axes
    ([axis=(-1,-2)], one value). *)
Definition reduce_time (f : list R -> R) (M : list (list R)) : list (list R) :=
  [f <$> transpose M].
Definition reduce_time_channel (f : list R -> R) (M : list (list R)) : list (list R) :=
  [[f (concat M)]].

(** Broadcasting of the second operand along an axis where it has
    extent 1. *)
Definition broadcast {X Y Z} (f : X -> Y -> Z) (xs : list X) (ys : list Y) : list Z :=
  match ys with
  | [y] => (fun x => f x y) <$> xs
  | _ => zip_with f xs ys
  end.

(** [(data - data.mean(axis=-2, keepdims=True)) / data.std(axis=-2, keepdims=True)] *)
Definition normalize_per_channel (data : list (list (list R))) : list (list (list R)) :=
  let mean := reduce_time np_mean <$> data in
  let std := reduce_time np_std <$> data in
  broadcast (broadcast (broadcast Rdiv))
    (broadcast (broadcast (broadcast Rminus)) data mean) std.

(** [(data - data.mean(axis=(-1,-2), keepdims=True)) / data.std(axis=(-1,-2), keepdims=True)] *)
Definition normalize_global (data : list (list (list R))) : list (list (list R)) :=
  let mean := reduce_time_channel np_mean <$> data in
  let std := reduce_time_channel np_std <$> data in
  broadcast (broadcast (broadcast Rdiv))
    (broadcast (broadcast (broadcast Rminus)) data mean) std.

(** [np.concatenate((a, b), axis=-1)] *)
Definition concatenate_last (a b : list (list (list R))) : list (list (list R)) :=
  zip_with (zip_with app) a b.

(** [isinstance(self.pulse_position, list)] decides between one position
    and joint loading. *)
Inductive pulse_position :=
| Position (name : string)
| Positions (names : list string).

Inductive signal_type :=
| SignalType (name : string)
| SignalTypes (names : list string).

Definition is_joint (p : pulse_position) : bool :=
  match p with
  | Position _ => false
  | Positions _ => true
  end.

Section Dataset.
(** The complex-valued arrays of an archive, with the numpy operations
    applied to them before they become real. *)
Variable Raw : Type.
Variable sum_axis2 : Raw -> Raw.
Variable reshape_channels : Raw -> Raw.
Variable unwrapped_phase : Raw -> list (list (list R)).
Variable magnitude : Raw -> list (list (list R)).

(** A loaded archive: its arrays by key. *)
Definition archive := string -> option Raw.

(** The arrays [data] and [label] one file is loaded into. *)
Inductive file_data :=
| SiteSamples (data : list (list (list R))) (label : Raw)
| JointSamples (data : list (list (list (list R)))) (labels : Raw * Raw * Raw).

(** [loaded_data[key]] *)
Definition archive_get (loaded_data : archive) (key : string) : result Raw :=
  match loaded_data key with
  | Some a => Ok a
  | None => Raise (KeyError key)
  end.

Definition signal_conversion (data : Raw) (type : string)
  : result (list (list (list R))) :=
  if decide (type = "phase") then Ok (unwrapped_phase data)
  else if decide (type = "mag") then Ok (magnitude data)
  else if decide (type = "both")
       then Ok (concatenate_last (unwrapped_phase data) (magnitude data))
  else Raise (ValueError ("Invalid signal type: " +:+ type)).

(** [names.index(x)] *)
Fixpoint list_index (x : string) (names : list string) : result nat :=
  match names with
  | [] => Raise (ValueError (x +:+ " is not in list"))
  | y :: names' => if decide (y = x) then Ok 0%nat else S <$> list_index x names'
  end.

(** [self.signal_type[self.pulse_position.index(site)]] *)
Definition joint_signal_type (positions : list string) (types : signal_type)
    (site : string) : result string :=
  i ← list_index site positions;
  match types with
  | SignalTypes names => py_nth names i
  | SignalType name =>
      match String.get i name with
      | Some c => Ok (String c EmptyString)
      | None => Raise (IndexError "string index out of range")
      end
  end.

(** The zero-padded [(samples, 3, time, max_dim)] tensor the three site
    arrays are written into. *)
Definition pad_channels (max_dim : nat) (M : list (list R)) : list (list R) :=
  (fun row : list R => row ++ replicate (max_dim - length row) 0%R) <$> M.

Definition last_extent (data : list (list (list R))) : nat :=
  match data with
  | (row :: _) :: _ => length row
  | _ => 0%nat
  end.

(** Broadcasting along the first axis to extent [n], as a tensor
    assignment does it: the extent is [n] already, or it is 1 and the one
    entry is repeated; otherwise the assignment raises. *)
Definition expand {X} (n : nat) (xs : list X) : result (list X) :=
  if decide (length xs = n) then Ok xs
  else match xs with
       | [x] => Ok (replicate n x)
       | _ => Raise (RuntimeError "shape mismatch: value tensor cannot be broadcast to indexing result")
       end.

(** [data[:, i, :, :site.shape[-1]] = torch.from_numpy(site)] for [data]
    of [n] samples and [t] time rows: the site array as it is written. *)
Definition site_rows (n t : nat) (site : list (list (list R)))
  : result (list (list (list R))) :=
  site ← expand n site; list_comp (expand t) site.

(** The sample count and the length of the time axis are the head
    array's. *)
Definition assemble (head heart wrist : list (list (list R)))
  : result (list (list (list (list R)))) :=
  let max_dim :=
    Nat.max (Nat.max (last_extent head) (last_extent heart)) (last_extent wrist) in
  let n := length head in
  let t := match head with M :: _ => length M | [] => 0%nat end in
  head ← site_rows n t head;
  heart ← site_rows n t heart;
  wrist ← site_rows n t wrist;
  Ok (zip_with (fun h hw => [pad_channels max_dim h; pad_channels max_dim hw.1;
                             pad_channels max_dim hw.2])
               head (zip heart wrist)).

(** The [if self.is_joint] branch of the loop body: the new value of
    [self.norm_2d], the assembled tensor and the three label arrays that
    are assigned into the label tensor.  ([_load_data] raises before its
    loading loop when the positions are a list, see [preallocate], so the
    program does not get here.) *)
Definition load_file_joint (positions : list string) (types : signal_type)
    (norm_2d : bool) (loaded_data : archive) : result (bool * file_data) :=
  let norm_2d := false in
  head_data ← sum_axis2 <$> archive_get loaded_data "head_data";
  head_label ← archive_get loaded_data "head_label";
  heart_data ← archive_get loaded_data "heart_data";
  heart_label ← archive_get loaded_data "heart_label";
  wrist_data ← archive_get loaded_data "wrist_data";
  wrist_label ← archive_get loaded_data "wrist_label";
  let head_data := reshape_channels head_data in
  let heart_data := reshape_channels heart_data in
  let wrist_data := reshape_channels wrist_data in
  head_data ← joint_signal_type positions types "head" ≫= signal_conversion head_data;
  heart_data ← joint_signal_type positions types "heart" ≫= signal_conversion heart_data;
  wrist_data ← joint_signal_type positions types "wrist" ≫= signal_conversion wrist_data;
  let head_data := normalize_per_channel head_data in
  let heart_data := normalize_per_channel heart_data in
  let wrist_data := normalize_per_channel wrist_data in
  data ← assemble head_data heart_data wrist_data;
  Ok (norm_2d, JointSamples data (head_label, heart_label, wrist_label)).

(** The [else] branch of the loop body, up to the conversion to tensors:
    [None] when the file is skipped by [continue], otherwise [self.norm_2d]
    and the two arrays that the rest of the iteration writes into the
    pre-allocated tensors ([load_iteration]). *)
Definition load_file_single (position : string) (types : signal_type)
    (norm_2d : bool) (loaded_data : archive) : result (option (bool * file_data)) :=
  match loaded_data (position +:+ "_data") with
  | None => Ok None
  | Some _ =>
      '(data, label) ←
        (if decide (position = "head") then
           data ← sum_axis2 <$> archive_get loaded_data "head_data";
           label ← archive_get loaded_data "head_label"; Ok (data, label)
         else if decide (position = "heart") then
           data ← archive_get loaded_data "heart_data";
           label ← archive_get loaded_data "heart_label"; Ok (data, label)
         else if decide (position = "wrist") then
           data ← archive_get loaded_data "wrist_data";
           label ← archive_get loaded_data "wrist_label"; Ok (data, label)
         else if decide (position = "neck") then
           data ← archive_get loaded_data "neck_data";
           label ← archive_get loaded_data "neck_label"; Ok (data, label)
         else Raise (UnboundLocalError "local variable 'data' referenced before assignment"));
      let data := reshape_channels data in
      type ← match types with
             | SignalType name => Ok name
             | SignalTypes _ => Raise (ValueError "Invalid signal type")
             end;
      data ← signal_conversion data type;
      let data :=
        if norm_2d then normalize_global data else normalize_per_channel data in
      Ok (Some (norm_2d, SiteSamples data label))
  end.

(** The branch of the loop body that loads the arrays of one file. *)
Definition load_file (position : pulse_position) (types : signal_type)
    (norm_2d : bool) (loaded_data : archive) : result (option (bool * file_data)) :=
  match position with
  | Positions positions => Some <$> load_file_joint positions types norm_2d loaded_data
  | Position name => load_file_single name types norm_2d loaded_data
  end.

End Dataset.

(** Zero mean and unit variance of the values reduced together. *)
Definition standardized (l : list R) : Prop := np_mean l = 0%R /\ np_var l = 1%R.

(** Per channel over the time axis, and over time and channels together. *)
Definition standardized_per_channel (M : list (list R)) : Prop :=
  Forall standardized (transpose M).
Definition standardized_globally (M : list (list R)) : Prop :=
  standardized (concat M).

(** An archive whose six arrays are all the one-sample array with time rows
    [(0, 0)] and [(2, 4)], already real-valued. *)
Definition demo_archive : string -> option (list (list (list R))) :=
  fun key =>
    if bool_decide (key ∈ ["head_data"; "head_label"; "heart_data"; "heart_label";
                            "wrist_data"; "wrist_label"])
    then Some [[[0; 0]; [2; 4]]]%R
    else None.

(** What the two normalisations do to one sample. *)
Definition normalize_sample_per_channel (M : list (list R)) : list (list R) :=
  broadcast (broadcast Rdiv)
    (broadcast (broadcast Rminus) M (reduce_time np_mean M)) (reduce_time np_std M).

Definition normalize_sample_global (M : list (list R)) : list (list R) :=
  broadcast (broadcast Rdiv)
    (broadcast (broadcast Rminus) M (reduce_time_channel np_mean M))
    (reduce_time_channel np_std M).

Section LoadData.
Variable Raw : Type.
Variable sum_axis2 : Raw -> Raw.
Variable reshape_channels : Raw -> Raw.
Variable unwrapped_phase : Raw -> list (list (list R)).
Variable magnitude : Raw -> list (list (list R)).
(** [array.shape[0]] *)
Variable num_samples : Raw -> Z.

(** The first loop of [_load_data]: [total_samples]. *)
Definition count_samples (position : pulse_position) (files : list (archive Raw))
  : result Z :=
  for_each (fun total_samples loaded_data =>
              match position with
              | Positions _ =>
                  label ← archive_get Raw loaded_data "head_label";
                  Ok (total_samples + num_samples label)
              | Position name =>
                  match loaded_data (name +:+ "_label") with
                  | None => Ok total_samples
                  | Some label => Ok (total_samples + num_samples label)
                  end
              end)
           files 0.

(** The pre-allocation of [self.data] and [self.label].  At this point
    [self.data] is still the empty list [__init__] assigned, so in the joint
    branch [sample_data] is [None] and taking its [shape] raises. *)
Definition preallocate (position : pulse_position) (total_samples : Z)
  : result (shape * shape) :=
  if is_joint position
  then Raise (AttributeError "'NoneType' object has no attribute 'shape'")
  else Ok ([total_samples; 5000; 42], [total_samples; 5000; 1]).

(** [_load_data] up to the loading loop (the resolution of link files and
    the progress display are left out). *)
Definition load_data_prologue (position : pulse_position)
    (files : list (archive Raw)) : result (shape * shape) :=
  match files with
  | [] => Raise (FileNotFoundError "No files found")
  | _ => total_samples ← count_samples position files;
         preallocate position total_samples
  end.

End LoadData.

Section LoadingLoop.
Variable Raw : Type.
Variable sum_axis2 : Raw -> Raw.
Variable reshape_channels : Raw -> Raw.
Variable unwrapped_phase : Raw -> list (list (list R)).
Variable magnitude : Raw -> list (list (list R)).
Variable num_samples : Raw -> Z.
(** The assignments
    [self.data[current_idx:current_idx + batch_size] = data] and
    [self.label[current_idx:current_idx + batch_size] = label] into the
    pre-allocated tensors, which are given by their shapes: they raise when
    an array cannot be broadcast to the rows it is assigned to. *)
Variable store_rows : shape * shape -> Z -> file_data Raw -> result unit.

(** [data.shape[0]] *)
Definition batch_size (samples : file_data Raw) : Z :=
  match samples with
  | SiteSamples _ data _ => Z.of_nat (length data)
  | JointSamples _ data _ => Z.of_nat (length data)
  end.

(** One iteration of the loading loop, on [self.norm_2d] and
    [current_idx] (the file names kept beside the rows are left out). *)
Definition load_iteration (buffers : shape * shape) (position : pulse_position)
    (types : signal_type) (state : bool * Z) (loaded_data : archive Raw)
  : result (bool * Z) :=
  let '(norm_2d, current_idx) := state in
  loaded ← load_file Raw sum_axis2 reshape_channels unwrapped_phase magnitude
             position types norm_2d loaded_data;
  match loaded with
  | None => Ok (norm_2d, current_idx)
  | Some (norm_2d, samples) =>
      _ ← store_rows buffers current_idx samples;
      Ok (norm_2d, current_idx + batch_size samples)
  end.

(** [_load_data]: the shapes of [self.data] and [self.label], and
    [self.norm_2d] and [current_idx] after the loading loop. *)
Definition load_data (position : pulse_position) (types : signal_type)
    (norm_2d : bool) (files : list (archive Raw))
  : result (shape * shape * (bool * Z)) :=
  buffers ← load_data_prologue Raw num_samples position files;
  state ← for_each (load_iteration buffers position types) files (norm_2d, 0);
  Ok (buffers, state).

End LoadingLoop.

(** An archive for the position [heart] whose arrays have the extents of
    the pre-allocated tensors: one sample of 5000 time rows and 42
    channels, row [i] holding [i] in every channel, and a label of one
    column. *)
Definition heart_archive : string -> option (list (list (list R))) :=
  fun key =>
    if bool_decide (key = "heart_data")
    then Some [(fun i : nat => replicate 42 (INR i)) <$> seq 0 5000]
    else if bool_decide (key = "heart_label")
    then Some [replicate 5000 [0%R]]
    else None.

Definition has_extents (rows cols : Z) (data : list (list (list R))) : bool :=
  forallb (fun M : list (list R) =>
             bool_decide (Z.of_nat (length M) = rows)
             && forallb (fun r : list R => bool_decide (Z.of_nat (length r) = cols)) M)
          data.

(** A write for arrays that need no broadcasting: it accepts the arrays
    of one position when the rows from [current_idx] on exist and the
    samples and labels have exactly the extents of the pre-allocated
    tensors, and raises otherwise. *)
Definition store_exact (buffers : shape * shape) (current_idx : Z)
    (samples : file_data (list (list (list R)))) : result unit :=
  match buffers, samples with
  | ([total; t; c], [_; _; c']), SiteSamples _ data label =>
      if bool_decide (0 <= current_idx
                      /\ current_idx + Z.of_nat (length data) <= total
                      /\ length label = length data)
         && has_extents t c data && has_extents t c' label
      then Ok ()
      else Raise (RuntimeError "shape mismatch: value tensor cannot be broadcast to indexing result")
  | _, _ => Raise (RuntimeError "shape mismatch: value tensor cannot be broadcast to indexing result")
  end.

(** ** Values: the data flow of [CrossSiteTemporalAttention.forward] *)

(** Where the entries of well-shaped inputs go.  A feature vector (the
    entries along the last axis, which no reshaping here splits) is one
    value of type [V]; a tensor [(a, b, C)] is a list of [a] lists of [b]
    vectors.  The errors of ill-shaped inputs are those of the shape model
    above. *)

(** [x.reshape(n, len, ...)] of a tensor with leading extent [n * len]. *)
Fixpoint chunks {X} (n len : nat) (xs : list X) : list (list X) :=
  match n with
  | O => []
  | S n' => take len xs :: chunks n' len (drop len xs)
  end.

(** [x[:, i]] *)
Definition column {X} (i : nat) (M : list (list X)) : list X :=
  omap (fun row : list X => row !! i) M.

(** Extent of axis 1, read off the first entry. *)
Definition extent1 {X} (x : list (list X)) : nat :=
  match x with
  | r :: _ => length r
  | [] => 0%nat
  end.

Section FusionValues.
Context {V : Type}.
(** [mha(x, x, x)[0]] on the sequence of one batch element; batch elements
    are attended independently. *)
Variable site_attention_v : list V -> list V.
Variable temporal_attention_v : list V -> list V.
(** Addition of two feature vectors, and [LayerNorm] of one. *)
Variable vadd : V -> V -> V.
Variable norm1_v : V -> V.
Variable norm2_v : V -> V.

(** [norm(attention(x, x, x)[0] + x)] on a batch of sequences. *)
Definition attention_block (attention : list V -> list V) (norm : V -> V)
    (x : list (list V)) : list (list V) :=
  zip_with (zip_with (fun a v => norm (vadd a v))) (attention <$> x) x.

Definition CrossSiteTemporalAttention_forward_v
    (site_features : list (list (list V))) : list (list (list V)) :=
  let stacked := transpose site_features in            (* (N, num_sites, L) *)
  let N := length stacked in
  let num_sites := extent1 stacked in
  let L := extent1 (hd [] stacked) in
  (* 1. cross-site attention at each timepoint *)
  let reshaped := concat (transpose <$> stacked) in    (* (N*L, num_sites) *)
  let site_attn := attention_block site_attention_v norm1_v reshaped in
  let temporal_input := transpose <$> chunks N L site_attn in
  let temporal_input := concat temporal_input in       (* (N*num_sites, L) *)
  (* 2. temporal attention for each site's features *)
  let temporal_attn := attention_block temporal_attention_v norm2_v temporal_input in
  let output := chunks N num_sites temporal_attn in    (* (N, num_sites, L) *)
  (fun i => column i output) <$> seq 0 num_sites.

(** The same result, site by site, as the specification describes the two
    stages: for sample [n], the site vectors of each timepoint are mixed
    across sites, then the sequence of each site is mixed across time;
    entry [s] of the result collects, over the samples, what became of
    site [s]. *)
Definition mix (attention : list V -> list V) (norm : V -> V) (s : list V) : list V :=
  zip_with (fun a v => norm (vadd a v)) (attention s) s.

Definition fuse_sample (sample : list (list V)) : list (list V) :=
  let per_timepoint := transpose sample in             (* (L, num_sites) *)
  let site_mixed := mix site_attention_v norm1_v <$> per_timepoint in
  let per_site := transpose site_mixed in              (* (num_sites, L) *)
  mix temporal_attention_v norm2_v <$> per_site.

Definition fuse_sites (site_features : list (list (list V))) : list (list (list V)) :=
  let samples := transpose site_features in            (* sample n: (num_sites, L) *)
  transpose (fuse_sample <$> samples).

End FusionValues.


(** ** Further definitions for [network.py] and [network_joint.py] *)

(** Arguments every layer constructor of [__init__] accepts: positive
    channel counts, kernel size and LSTM sizes, a dropout probability. *)
Definition sensible_args (a : PulseDetectionNet_args) : Prop :=
  0 < reduce_channels a /\ Forall (fun h => 0 < h) (hidden_channels a) /\
  0 < kernel_size a /\ 0 < lstm_hidden_size a /\ 0 < lstm_num_layers a /\
  (0 <= dropout a <= 1)%Q.

(** *** [CrossSiteAttention] *)

Record CrossSiteAttention := {
  mha : MultiheadAttention;
  norm : layer;
}.

Definition CrossSiteAttention_init (hidden_size : Z) (num_heads : Z)
  : result CrossSiteAttention :=
  mha ← MultiheadAttention_init hidden_size num_heads;
  Ok {| mha := mha; norm := LayerNorm hidden_size |}.

Definition CrossSiteAttention_forward (training : bool) (m : CrossSiteAttention)
    (site_features : list shape) : result (list shape) :=
  stacked ← stack1 site_features;
  match stacked with
  | [N; num_sites; L; C] =>
      reshaped ← transpose12 stacked ≫= reshape [N * L; num_sites; C];
      attn_out ← MultiheadAttention_forward (mha m) reshaped;
      attn_out ← add attn_out reshaped;
      attn_out ← apply_layer training (norm m) attn_out;
      attn_out ← reshape [N; L; num_sites; C] attn_out ≫= transpose12;
      list_comp (fun i => select1 i attn_out) (py_range num_sites)
  | _ => Raise (ValueError "expected 4 values to unpack")
  end.

(** * Part II: properties *)

(** ** Shape lemmas for [network.py] *)

Lemma bind_Ok {A B} (m : result A) (f : A -> result B) (b : B) :
  m ≫= f = Ok b <-> exists a, m = Ok a /\ f a = Ok b.
Proof.
  destruct m as [a|e]; simpl; split.
  - intros H. eauto.
  - intros (a' & [= <-] & H). exact H.
  - discriminate.
  - intros (a' & [=] & _).
Qed.

Lemma for_each_app {A S} (body : S -> A -> result S) (xs ys : list A) (s : S) :
  for_each body (xs ++ ys) s = for_each body xs s ≫= for_each body ys.
Proof.
  revert s. induction xs as [|x xs IH]; intros s; simpl; [done|].
  destruct (body s x) as [s'|e]; simpl; [apply IH|done].
Qed.

Lemma py_zip_app {A B} (xs xs' : list A) (ys ys' : list B) :
  length xs = length ys ->
  py_zip (xs ++ xs') (ys ++ ys') = py_zip xs ys ++ py_zip xs' ys'.
Proof.
  revert ys. induction xs as [|x xs IH]; intros [|y ys] Hlen; simpl in *;
    try discriminate; [done|].
  f_equal. apply IH. lia.
Qed.

Lemma default_last_cons {A} (c h : A) (hs : list A) :
  default c (last (h :: hs)) = default h (last hs).
Proof.
  revert c h. induction hs as [|h' hs IH]; intros c h; [done|].
  rewrite last_cons_cons. by rewrite (IH c h'), (IH h h').
Qed.


Lemma init_encoders_acc ks hs acc c :
  foldl (fun '(blocks, current_channels) hidden_ch =>
           (blocks ++ [EncoderBlock_init current_channels hidden_ch ks], hidden_ch))
        (acc, c) hs
  = (acc ++ enc_chain ks c hs, default c (last hs)).
Proof.
  revert acc c. induction hs as [|h hs IH]; intros acc c; simpl.
  - by rewrite app_nil_r.
  - rewrite IH, <- app_assoc. simpl. f_equal.
    by rewrite default_last_cons.
Qed.

Lemma init_encoders_spec ks hs c :
  init_encoders ks hs c = (enc_chain ks c hs, default c (last hs)).
Proof. unfold init_encoders. by rewrite init_encoders_acc. Qed.

Lemma init_decoders_acc ks (rev : list Z) n i acc c :
  (i + n = length rev - 1)%nat ->
  for_each (fun '(blocks, current_channels) (i : nat) =>
              let in_ch := current_channels in
              out_ch ← py_nth rev (i + 1)%nat;
              Ok (blocks ++ [DecoderBlock_init in_ch out_ch ks], out_ch))
           (seq i n) (acc, c)
  = Ok (acc ++ dec_chain ks c (drop (S i) rev), default c (last (drop (S i) rev))).
Proof.
  revert i acc c. induction n as [|n IH]; intros i acc c Hlen; simpl.
  - rewrite drop_ge by lia. simpl. by rewrite app_nil_r.
  - destruct (lookup_lt_is_Some_2 rev (S i)) as [o Ho]; [lia|].
    unfold py_nth. replace (i + 1)%nat with (S i) by lia. rewrite Ho. simpl.
    rewrite IH by lia. rewrite (drop_S rev o (S i) Ho). simpl.
    rewrite <- app_assoc. simpl. do 2 f_equal.
    by rewrite default_last_cons.
Qed.

Lemma init_decoders_spec ks rev c :
  init_decoders ks rev c
  = Ok (dec_chain ks c (tail rev), default c (last (tail rev))).
Proof.
  unfold init_decoders. rewrite (init_decoders_acc ks rev _ 0) by lia.
  destruct rev as [|r0 rev]; simpl; [done|]. by rewrite drop_0.
Qed.


Lemma odd_half (ks : Z) : Z.odd ks = true -> 2 * (ks `div` 2) = ks - 1.
Proof.
  intros Hodd. pose proof (Z.div_mod ks 2 ltac:(lia)) as Hdm.
  rewrite Zmod_odd, Hodd in Hdm. lia.
Qed.

Lemma pool_half (T : Z) : (T - 2) `div` 2 + 1 = T `div` 2.
Proof.
  replace (T - 2) with (T + (-1) * 2) by lia.
  rewrite Z.div_add by lia. lia.
Qed.

Section Blocks.
Variable training : bool.
Variable ks : Z.
Hypothesis ks_odd : Z.odd ks = true.

Lemma EncoderBlock_forward_ok (cin cout N T : Z) :
  0 < N -> 2 <= T ->
  EncoderBlock_forward training (EncoderBlock_init cin cout ks) [N; cin; T]
  = Ok ([N; cout; T `div` 2], [N; cout; T]).
Proof using ks_odd.
  intros HN HT. pose proof (odd_half ks ks_odd) as Hh.
  unfold EncoderBlock_forward, EncoderBlock_init, Sequential_forward.
  shape_cases; try (exfalso; nia); try lia.
  all: repeat f_equal; try lia.
  all: try (rewrite pool_half; f_equal; lia).
Qed.

Lemma EncoderBlock_forward_inv (cin cout N c T : Z) (p f : shape) :
  EncoderBlock_forward training (EncoderBlock_init cin cout ks) [N; c; T]
  = Ok (p, f) ->
  c = cin /\ 2 <= T /\ p = [N; cout; T `div` 2] /\ f = [N; cout; T].
Proof using ks_odd.
  pose proof (odd_half ks ks_odd) as Hh.
  unfold EncoderBlock_forward, EncoderBlock_init, Sequential_forward.
  intros H. shape_cases; subst.
  all: repeat split; try lia.
  all: repeat f_equal; try lia.
  all: try (rewrite pool_half; f_equal; lia).
Qed.

Lemma DecoderBlock_forward_ok (cin cout N L : Z) :
  0 < N -> 1 <= L ->
  DecoderBlock_forward training (DecoderBlock_init cin cout ks)
    [N; cin; L] [N; cin; 2 * L]
  = Ok [N; cout; 2 * L].
Proof using ks_odd.
  intros HN HL. pose proof (odd_half ks ks_odd) as Hh.
  unfold DecoderBlock_forward, DecoderBlock_init, Sequential_forward.
  shape_cases; try (exfalso; nia); try lia.
  all: try (exfalso; match goal with H : ¬ _ |- _ => apply H end;
            repeat split; repeat f_equal; lia).
  all: repeat f_equal; lia.
Qed.

Lemma DecoderBlock_forward_inv (cin cout N c L : Z) (skip r : shape) :
  DecoderBlock_forward training (DecoderBlock_init cin cout ks) [N; c; L] skip
  = Ok r ->
  c = cin /\ skip = [N; cin; 2 * L] /\ r = [N; cout; 2 * L].
Proof using ks_odd.
  pose proof (odd_half ks ks_odd) as Hh.
  unfold DecoderBlock_forward, DecoderBlock_init, Sequential_forward.
  intros H. destruct skip as [|s0 [|s1 srest]]; shape_cases.
  all: subst; destruct_and?; subst; simplify_eq.
  all: shape_cases.
  all: repeat split; repeat f_equal; lia.
Qed.

(** Encoders followed by the matching decoders: success. *)
Lemma encoder_loop_acc (blocks : list EncoderBlock) (x : shape) (acc : list shape) :
  for_each (fun '(x, skip_connections) encoder =>
              '(x, features) ← EncoderBlock_forward training encoder x;
              Ok (x, skip_connections ++ [features]))
           blocks (x, acc)
  = '(y, skips) ← encoder_loop training blocks x; Ok (y, acc ++ skips).
Proof.
  unfold encoder_loop. revert x acc.
  induction blocks as [|b blocks IH]; intros x acc; simpl.
  - by rewrite app_nil_r.
  - destruct (EncoderBlock_forward training b x) as [[p f]|e]; simpl; [|done].
    rewrite (IH p (acc ++ [f])), (IH p [f]).
    destruct (for_each _ blocks (p, [])) as [[y skips]|e]; simpl; [|done].
    by rewrite <- app_assoc.
Qed.

Lemma encoder_loop_cons (b : EncoderBlock) (blocks : list EncoderBlock) (x : shape) :
  encoder_loop training (b :: blocks) x
  = '(p, f) ← EncoderBlock_forward training b x;
    '(y, skips) ← encoder_loop training blocks p;
    Ok (y, f :: skips).
Proof.
  unfold encoder_loop at 1. simpl.
  destruct (EncoderBlock_forward training b x) as [[p f]|e]; simpl; [|done].
  by rewrite encoder_loop_acc.
Qed.

Lemma decoder_loop_snoc (blocks : list DecoderBlock) (d : DecoderBlock)
    (skips : list shape) (s x : shape) :
  length blocks = length skips ->
  decoder_loop training (blocks ++ [d]) (skips ++ [s]) x
  = y ← decoder_loop training blocks skips x; DecoderBlock_forward training d y s.
Proof.
  intros Hlen. unfold decoder_loop.
  rewrite py_zip_app, for_each_app by done. simpl.
  destruct (for_each _ (py_zip blocks skips) x) as [y|e]; simpl; [|done].
  by destruct (DecoderBlock_forward training d y s).
Qed.

Lemma dec_chain_snoc (cur : Z) (outs : list Z) (o : Z) :
  dec_chain ks cur (outs ++ [o])
  = dec_chain ks cur outs ++ [DecoderBlock_init (default cur (last outs)) o ks].
Proof.
  revert cur. induction outs as [|o' outs IH]; intros cur; simpl; [done|].
  by rewrite IH, default_last_cons.
Qed.

Lemma dec_chain_length (cur : Z) (outs : list Z) :
  length (dec_chain ks cur outs) = length outs.
Proof. revert cur. induction outs; intros; simpl; auto. Qed.

(** The decoder blocks built for [h :: hs] are those built for [hs] with
    [h] as their last output width, followed by one more block. *)
Lemma decoders_cons (cur h e : Z) (hs : list Z) :
  dec_chain ks cur (tail (reverse (h :: hs) ++ [e]))
  = dec_chain ks cur (tail (reverse hs ++ [h]))
    ++ [DecoderBlock_init (match hs with [] => cur | _ => h end) e ks].
Proof.
  rewrite reverse_cons.
  assert (tail ((reverse hs ++ [h]) ++ [e]) = tail (reverse hs ++ [h]) ++ [e]) as ->.
  { by destruct (reverse hs). }
  rewrite dec_chain_snoc. do 3 f_equal.
  destruct hs as [|h' hs]; [done|].
  rewrite reverse_cons.
  assert (tail ((reverse hs ++ [h']) ++ [h]) = tail (reverse hs ++ [h']) ++ [h]) as ->.
  { by destruct (reverse hs). }
  by rewrite last_snoc.
Qed.

Lemma decoders_length (cur e : Z) (hs : list Z) :
  length (dec_chain ks cur (tail (reverse hs ++ [e]))) = length hs.
Proof.
  rewrite dec_chain_length, length_tl, length_app, length_reverse. simpl. lia.
Qed.

Lemma encode_decode_ok (hs : list Z) : forall (C e N T m : Z),
  0 < N -> 1 <= m -> T = 2 ^ Z.of_nat (length hs) * m ->
  exists skips,
    encoder_loop training (enc_chain ks C hs) [N; C; T]
    = Ok ([N; default C (last hs); m], skips)
    /\ length skips = length hs
    /\ decoder_loop training
         (dec_chain ks (default C (last hs)) (tail (reverse hs ++ [e])))
         (reverse skips) [N; default C (last hs); m]
       = Ok [N; match hs with [] => C | _ => e end; T].
Proof using ks_odd.
  induction hs as [|h hs IH]; intros C e N T m HN Hm HT.
  - exists []. simpl in *. replace T with m by lia. done.
  - assert (T = 2 * (2 ^ Z.of_nat (length hs) * m)) as HT2.
    { rewrite HT. simpl length. rewrite Nat2Z.inj_succ, Z.pow_succ_r by lia. lia. }
    set (T' := 2 ^ Z.of_nat (length hs) * m) in *.
    assert (1 <= T') by (unfold T'; nia).
    destruct (IH h h N T' m HN Hm eq_refl) as (skips & Henc & Hlen & Hdec).
    exists ([N; h; T] :: skips). cbn [enc_chain].
    rewrite encoder_loop_cons, EncoderBlock_forward_ok by lia.
    replace (T `div` 2) with T' by (rewrite HT2, Z.mul_comm, Z.div_mul; lia).
    simpl mbind at 1. unfold result_bind at 1. rewrite Henc. simpl.
    rewrite default_last_cons. split; [done|]. split; [by rewrite Hlen|].
    rewrite decoders_cons, reverse_cons, decoder_loop_snoc
      by (by rewrite decoders_length, length_reverse).
    rewrite Hdec. simpl mbind. unfold result_bind.
    assert (match hs with [] => default h (last hs) | _ => h end = h) as ->
      by (by destruct hs).
    assert (match hs with [] => h | _ => h end = h) as -> by (by destruct hs).
    rewrite HT2. by apply DecoderBlock_forward_ok.
Qed.

Lemma encode_decode_inv (hs : list Z) : forall (C N c T : Z) (x : shape) (skips : list shape),
  encoder_loop training (enc_chain ks C hs) [N; c; T] = Ok (x, skips) ->
  exists ch m,
    x = [N; ch; m] /\ length skips = length hs /\
    forall (cur e c' : Z) (r : shape),
      decoder_loop training (dec_chain ks cur (tail (reverse hs ++ [e])))
        (reverse skips) [N; c'; m] = Ok r ->
      T = 2 ^ Z.of_nat (length hs) * m /\ exists ch', r = [N; ch'; T].
Proof using ks_odd.
  induction hs as [|h hs IH]; intros C N c T x skips Henc.
  - injection Henc as <- <-. exists c, T. split; [done|]. split; [done|].
    intros cur e c' r [= <-]. simpl. split; [lia|eauto].
  - cbn [enc_chain] in Henc. rewrite encoder_loop_cons in Henc.
    apply bind_Ok in Henc as ([p f] & Hblock & Henc).
    apply EncoderBlock_forward_inv in Hblock as (-> & HT & -> & ->).
    apply bind_Ok in Henc as ([y skips'] & Hinner & [= <- <-]).
    destruct (IH _ _ _ _ _ _ Hinner) as (ch & m & -> & Hlen & Hdec).
    exists ch, m. split; [done|]. split; [simpl; by rewrite Hlen|].
    intros cur e c' r Hr.
    rewrite decoders_cons, reverse_cons, decoder_loop_snoc in Hr
      by (by rewrite decoders_length, length_reverse).
    apply bind_Ok in Hr as (y' & Hy' & Hr).
    destruct (Hdec _ _ _ _ Hy') as (Hhalf & ch' & ->).
    apply DecoderBlock_forward_inv in Hr as (Hc & Hs & Hr').
    injection Hs as Hch HT2. subst r.
    split; [|rewrite <- HT2; eauto].
    simpl length. rewrite Nat2Z.inj_succ, Z.pow_succ_r by lia. lia.
Qed.

End Blocks.

Lemma SpatialReductionPreprocessing_forward_ok training cin k N C T :
  0 < N -> 2 <= T -> 1 <= k <= C ->
  SpatialReductionPreprocessing_forward training
    (SpatialReductionPreprocessing_init cin k) [N; C; T]
  = Ok [N; k; T].
Proof.
  intros HN HT Hk.
  unfold SpatialReductionPreprocessing_forward, SpatialReductionPreprocessing_init,
    Sequential_forward, topk2.
  shape_cases; try (exfalso; nia); try lia.
  all: repeat f_equal; lia.
Qed.

Lemma SpatialReductionPreprocessing_forward_inv training cin k (x r : shape) :
  SpatialReductionPreprocessing_forward training
    (SpatialReductionPreprocessing_init cin k) x = Ok r ->
  exists N C T, x = [N; C; T] /\ r = [N; k; T] /\ 1 <= k <= C.
Proof.
  unfold SpatialReductionPreprocessing_forward, SpatialReductionPreprocessing_init,
    Sequential_forward, topk2.
  destruct x as [|N [|C [|T [|? ?]]]]; try discriminate.
  intros H. exists N, C, T. shape_cases; subst.
  all: repeat split; repeat f_equal; lia.
Qed.


Lemma final_forward_ok training N T :
  0 < N -> 2 <= T ->
  Sequential_forward training final_layers [N; 32; T] = Ok [N; 1; T].
Proof.
  intros HN HT. unfold Sequential_forward, final_layers.
  shape_cases; try (exfalso; nia); try lia.
  all: repeat f_equal; lia.
Qed.

Lemma final_forward_inv training N c T r :
  Sequential_forward training final_layers [N; c; T] = Ok r ->
  c = 32 /\ r = [N; 1; T].
Proof.
  unfold Sequential_forward, final_layers. intros H.
  shape_cases; subst.
  all: repeat split; repeat f_equal; lia.
Qed.

(** What [__init__] builds. *)
Lemma PulseDetectionNet_init_inv (a : PulseDetectionNet_args) (m : PulseDetectionNet) :
  PulseDetectionNet_init a = Ok m ->
  let hs := hidden_channels a in
  let bottleneck_ch :=
    if arg_use_lstm a then lstm_hidden_size a * 2
    else default (reduce_channels a) (last hs) in
  seq_len m = arg_seq_len a /\
  use_lstm m = arg_use_lstm a /\
  spatial_processing m
    = SpatialReductionPreprocessing_init (in_channels a) (reduce_channels a) /\
  encoder_blocks m = enc_chain (kernel_size a) (reduce_channels a) hs /\
  decoder_blocks m
    = dec_chain (kernel_size a) bottleneck_ch (tail (reverse hs ++ [32])) /\
  final m = final_layers /\
  (if arg_use_lstm a
   then exists l, lstm m = Some l /\ last hs = Some (input_size l)
                  /\ hidden_size l = lstm_hidden_size a
   else lstm m = None).
Proof.
  unfold PulseDetectionNet_init.
  rewrite init_encoders_spec.
  destruct (arg_use_lstm a) eqn:Hlstm; simpl.
  - unfold py_last. destruct (last (hidden_channels a)) as [lc|] eqn:Hlast;
      simpl; [|discriminate].
    rewrite init_decoders_spec. simpl. intros [= <-]. simpl.
    repeat split; try done. eexists. repeat split; done.
  - rewrite init_decoders_spec. simpl. intros [= <-]. simpl.
    repeat split; done.
Qed.

Lemma lstm_bottleneck_inv (m : PulseDetectionNet) (N c L : Z) (r : shape) :
  lstm_bottleneck m [N; c; L] = Ok r -> exists c', r = [N; c'; L].
Proof.
  unfold lstm_bottleneck. destruct (use_lstm m); [|intros [= <-]; eauto].
  simpl. destruct (lstm m) as [l|]; [|discriminate]. simpl.
  destruct (decide (c = input_size l)); simpl; [|discriminate].
  intros [= <-]. eauto.
Qed.

Lemma pow2_pos (n : nat) : 0 < 2 ^ Z.of_nat n.
Proof. apply Z.pow_pos_nonneg; lia. Qed.

(** A well-configured network maps [(N, T, C)] to [(N, T, 1)]. *)
Lemma PulseDetectionNet_forward_ok (training : bool) (a : PulseDetectionNet_args)
    (m : PulseDetectionNet) (N T C : Z) :
  PulseDetectionNet_init a = Ok m ->
  Z.odd (kernel_size a) = true ->
  hidden_channels a <> [] ->
  (arg_use_lstm a = true -> last (hidden_channels a) = Some (lstm_hidden_size a * 2)) ->
  0 < N -> 0 < T -> (2 ^ Z.of_nat (length (hidden_channels a)) | T) ->
  1 <= reduce_channels a <= C ->
  PulseDetectionNet_forward training m [N; T; C] = Ok [N; T; 1].
Proof.
  intros Hinit Hodd Hne Hlstm HN HT [q Hq] Hred.
  apply PulseDetectionNet_init_inv in Hinit
    as (_ & Huse & Hsp & Henc & Hdec & Hfin & Hl).
  pose proof (pow2_pos (length (hidden_channels a))) as Hpow.
  assert (1 <= q) as Hq1 by nia.
  assert (2 <= T) as HT2.
  { destruct (hidden_channels a) as [|h hs]; [done|].
    simpl length in *. rewrite Nat2Z.inj_succ, Z.pow_succ_r in Hq by lia.
    pose proof (pow2_pos (length hs)). nia. }
  unfold PulseDetectionNet_forward. cbn [transpose12 mbind result_bind].
  rewrite Hsp, SpatialReductionPreprocessing_forward_ok by lia.
  cbn [mbind result_bind].
  rewrite Henc, Hdec, Hfin.
  destruct (encode_decode_ok training (kernel_size a) Hodd (hidden_channels a)
              (reduce_channels a) 32 N T q HN Hq1 ltac:(lia))
    as (skips & -> & Hlen & Hdecode).
  cbn [mbind result_bind].
  assert (exists lc, last (hidden_channels a) = Some lc) as [lc Hlc].
  { destruct (last (hidden_channels a)) eqn:E; [eauto|].
    apply last_None in E. done. }
  rewrite Hlc in *. simpl default in *.
  assert (lstm_bottleneck m [N; lc; q] = Ok [N; lc; q]
          /\ (if arg_use_lstm a then lstm_hidden_size a * 2 else lc) = lc)
    as [-> ->].
  { unfold lstm_bottleneck. rewrite Huse. destruct (arg_use_lstm a).
    - destruct Hl as (l & -> & [= Hin] & Hh). specialize (Hlstm eq_refl).
      injection Hlstm as Hlstm. simpl. rewrite decide_True by done.
      simpl. split; [|lia]. repeat f_equal. lia.
    - done. }
  cbn [mbind result_bind]. rewrite Hdecode.
  destruct (hidden_channels a) as [|? ?]; [done|].
  cbn [mbind result_bind].
  rewrite final_forward_ok by lia. done.
Qed.

(** Whenever the forward pass returns, the input was [(N, T, C)] with [T]
    a multiple of [2 ^ stages], and the output is [(N, T, 1)]. *)
Lemma PulseDetectionNet_forward_inv (training : bool) (a : PulseDetectionNet_args)
    (m : PulseDetectionNet) (x r : shape) :
  PulseDetectionNet_init a = Ok m ->
  Z.odd (kernel_size a) = true ->
  PulseDetectionNet_forward training m x = Ok r ->
  exists N T C, x = [N; T; C] /\ r = [N; T; 1]
    /\ (2 ^ Z.of_nat (length (hidden_channels a)) | T).
Proof.
  intros Hinit Hodd Hfwd.
  apply PulseDetectionNet_init_inv in Hinit
    as (_ & Huse & Hsp & Henc & Hdec & Hfin & Hl).
  unfold PulseDetectionNet_forward in Hfwd.
  apply bind_Ok in Hfwd as (x1 & Hx1 & Hfwd).
  apply bind_Ok in Hfwd as (x2 & Hx2 & Hfwd).
  apply bind_Ok in Hfwd as ([x3 skips] & Hx3 & Hfwd).
  apply bind_Ok in Hfwd as (x4 & Hx4 & Hfwd).
  apply bind_Ok in Hfwd as (x5 & Hx5 & Hfwd).
  apply bind_Ok in Hfwd as (x6 & Hx6 & Hfwd).
  rewrite Hsp in Hx2.
  apply SpatialReductionPreprocessing_forward_inv in Hx2 as (N & C & T & -> & -> & Hk).
  destruct x as [|d0 [|d1 [|d2 rest]]]; try discriminate.
  injection Hx1 as -> -> -> ->.
  rewrite Henc in Hx3.
  apply (encode_decode_inv training _ Hodd) in Hx3 as (ch & q & -> & Hlen & Hdecode).
  apply lstm_bottleneck_inv in Hx4 as (c' & ->).
  rewrite Hdec in Hx5. apply Hdecode in Hx5 as (HT & ch' & ->).
  rewrite Hfin in Hx6. apply final_forward_inv in Hx6 as (-> & ->).
  injection Hfwd as <-.
  exists N, T, C. repeat split. exists q. lia.
Qed.

(** What the encoder stack returns whenever it returns: the bottleneck input
    has the time extent halved once per block, and skip [i] is the pre-pool
    feature map of block [i]. *)
Lemma encoder_loop_inv (training : bool) (ks : Z) (hs : list Z) :
  Z.odd ks = true ->
  forall (C N c T : Z) (x : shape) (skips : list shape),
  encoder_loop training (enc_chain ks C hs) [N; c; T] = Ok (x, skips) ->
  x = [N; default c (last hs); T `div` 2 ^ Z.of_nat (length hs)] /\
  forall (i : nat) (h : Z), hs !! i = Some h ->
    skips !! i = Some [N; h; T `div` 2 ^ Z.of_nat i].
Proof.
  intros Hodd. induction hs as [|h hs IH]; intros C N c T x skips Henc.
  - injection Henc as <- <-. simpl. rewrite Z.div_1_r. split; [done|].
    intros i h' Hi. by rewrite lookup_nil in Hi.
  - cbn [enc_chain] in Henc. rewrite encoder_loop_cons in Henc.
    apply bind_Ok in Henc as ([p f] & Hblock & Henc).
    apply (EncoderBlock_forward_inv training ks Hodd) in Hblock as (-> & HT & -> & ->).
    apply bind_Ok in Henc as ([y skips'] & Hinner & [= <- <-]).
    destruct (IH _ _ _ _ _ _ Hinner) as (-> & Hskips).
    split.
    + rewrite default_last_cons. do 3 f_equal.
      simpl length. rewrite Nat2Z.inj_succ, Z.pow_succ_r, Z.div_div by
        (first [lia | apply pow2_pos]).
      done.
    + intros [|i] h' Hi; simpl in *.
      * injection Hi as <-. by rewrite Z.div_1_r.
      * etrans; [exact (Hskips i h' Hi)|]. do 3 f_equal.
        rewrite Nat2Z.inj_succ, Z.pow_succ_r, Z.div_div by
          (first [lia | apply pow2_pos]).
        done.
Qed.

(** ** Encoder/decoder shape symmetry *)

(** C4. For an odd convolution kernel and an input [(N, C, T)] with [T]
    divisible by [2 ^ k], the [k] encoder blocks built for a channel schedule
    run in sequence, each halving the time extent and keeping its pre-pool
    features as a skip; the [k] decoder blocks built for the same schedule,
    fed the skips in reverse creation order, bring the tensor back to time
    extent exactly [T]. *)
Theorem encoder_decoder_time_symmetry (training : bool) (ks C N T : Z)
    (hs : list Z) (encs : list EncoderBlock) (decs : list DecoderBlock)
    (cur cur' : Z) :
  Z.odd ks = true -> 0 < ks ->
  0 < N -> 0 < T -> (2 ^ Z.of_nat (length hs) | T) ->
  init_encoders ks hs C = (encs, cur) ->
  init_decoders ks (reverse hs ++ [32]) cur = Ok (decs, cur') ->
  exists (skips : list shape),
    length encs = length hs /\ length decs = length hs /\
    encoder_loop training encs [N; C; T]
      = Ok ([N; cur; T `div` 2 ^ Z.of_nat (length hs)], skips) /\
    (forall (i : nat) (h : Z), hs !! i = Some h ->
       skips !! i = Some [N; h; T `div` 2 ^ Z.of_nat i]) /\
    decoder_loop training decs (reverse skips)
      [N; cur; T `div` 2 ^ Z.of_nat (length hs)] = Ok [N; cur'; T].
Proof.
  intros Hodd Hks HN HT [q Hq] Henc Hdec.
  rewrite init_encoders_spec in Henc. injection Henc as <- <-.
  rewrite init_decoders_spec in Hdec. injection Hdec as <- <-.
  pose proof (pow2_pos (length hs)) as Hpow.
  assert (1 <= q) as Hq1 by nia.
  destruct (encode_decode_ok training ks Hodd hs C 32 N T q HN Hq1 ltac:(lia))
    as (skips & Hrun & Hlen & Hback).
  assert (T `div` 2 ^ Z.of_nat (length hs) = q) as Hdiv.
  { rewrite Hq. apply Z.div_mul. lia. }
  exists skips. rewrite Hdiv.
  split; [|split; [|split; [|split]]].
  - clear. revert C. induction hs; intros; simpl; auto.
  - apply decoders_length.
  - exact Hrun.
  - intros i h Hi.
    apply (encoder_loop_inv training ks hs Hodd) in Hrun as [_ Hskips]. eauto.
  - rewrite Hback. do 3 f_equal.
    destruct hs as [|h hs]; simpl; [done|].
    rewrite reverse_cons.
    assert (tail ((reverse hs ++ [h]) ++ [32]) = tail (reverse hs ++ [h]) ++ [32])
      as -> by (by destruct (reverse hs)).
    by rewrite last_snoc.
Qed.

Lemma encoder_decoder_time_symmetry_witness :
  exists (skips : list shape),
    length (enc_chain 5 8 [64; 128; 256]) = 3%nat /\
    length (dec_chain 5 256 [128; 64; 32]) = 3%nat /\
    encoder_loop true (enc_chain 5 8 [64; 128; 256]) [16; 8; 5000]
      = Ok ([16; 256; 5000 `div` 2 ^ 3], skips) /\
    (forall (i : nat) (h : Z), [64; 128; 256] !! i = Some h ->
       skips !! i = Some [16; h; 5000 `div` 2 ^ Z.of_nat i]) /\
    decoder_loop true (dec_chain 5 256 [128; 64; 32]) (reverse skips)
      [16; 256; 5000 `div` 2 ^ 3] = Ok [16; 32; 5000].
Proof.
  apply (encoder_decoder_time_symmetry true 5 8 16 5000 [64; 128; 256]).
  - reflexivity.
  - lia.
  - lia.
  - lia.
  - exists 625. reflexivity.
  - reflexivity.
  - reflexivity.
Defined.

(** With an even kernel the convolutions lengthen the time axis, and the
    round trip no longer returns to [T]. *)
Example even_kernel_changes_length :
  (x ← encoder_loop true (enc_chain 4 8 [64]) [16; 8; 8];
   decoder_loop true (dec_chain 4 64 [32]) (reverse x.2) x.1)
  = Ok [16; 32; 12].
Proof. reflexivity. Qed.

(** ** Sequence length and construction *)

Lemma PulseDetectionNet_init_seq_len (L : Z) (a : PulseDetectionNet_args)
    (m : PulseDetectionNet) :
  PulseDetectionNet_init a = Ok m ->
  PulseDetectionNet_init (with_seq_len L a)
  = Ok {| seq_len := L;
          use_lstm := use_lstm m;
          spatial_processing := spatial_processing m;
          encoder_blocks := encoder_blocks m;
          lstm := lstm m;
          decoder_blocks := decoder_blocks m;
          final := final m |}.
Proof.
  unfold PulseDetectionNet_init. simpl.
  destruct (init_encoders _ _ _) as [encs cur].
  destruct (arg_use_lstm a); simpl.
  - destruct (py_last (hidden_channels a)) as [lc|e]; simpl; [|discriminate].
    destruct (init_decoders _ _ _) as [[decs cur']|e]; simpl; [|discriminate].
    by intros [= <-].
  - destruct (init_decoders _ _ _) as [[decs cur']|e]; simpl; [|discriminate].
    by intros [= <-].
Qed.

(** C7, as the code has it.  The claim: a sequence length that is not a
    multiple of [2 ^ stages] is rejected when the network is constructed.
    The constructor with the default schedule (three stages) and
    [seq_len = 5001] returns a network. *)
Lemma construction_accepts_seq_len_5001 :
  let a := default_args 40 5001 in
  ~ (2 ^ Z.of_nat (length (hidden_channels a)) | arg_seq_len a)
  /\ ~ rejected_at_construction a.
Proof.
  simpl. split.
  - intros [q Hq]. simpl in Hq. lia.
  - intros [e He]. vm_compute in He. discriminate.
Qed.

(** C7, amended.  The constructor only stores [seq_len]: when it accepts a
    configuration it accepts it with every other sequence length.  With an
    odd kernel size, an input whose time extent is not a multiple of
    [2 ^ stages] is rejected by the forward pass of the constructed
    network. *)
Theorem seq_len_rejected_by_forward_only (training : bool)
    (a : PulseDetectionNet_args) (m : PulseDetectionNet) (N T C : Z) :
  PulseDetectionNet_init a = Ok m ->
  Z.odd (kernel_size a) = true ->
  ~ (2 ^ Z.of_nat (length (hidden_channels a)) | T) ->
  exists m',
    PulseDetectionNet_init (with_seq_len T a) = Ok m' /\
    seq_len m' = T /\
    exists e, PulseDetectionNet_forward training m' [N; T; C] = Raise e.
Proof.
  intros Hinit Hodd Hndiv.
  pose proof (PulseDetectionNet_init_seq_len T a m Hinit) as Hinit'.
  eexists. split; [exact Hinit'|]. split; [done|].
  match goal with |- exists e, ?f = _ => destruct f as [r|e] eqn:Hfwd end; [|eauto].
  exfalso. apply Hndiv.
  destruct (PulseDetectionNet_forward_inv training (with_seq_len T a) _ _ _
              Hinit' Hodd Hfwd) as (N' & T' & C' & [= -> -> ->] & _ & Hdiv).
  exact Hdiv.
Qed.

Lemma seq_len_rejected_by_forward_only_witness :
  exists m',
    PulseDetectionNet_init (with_seq_len 5001 (default_args 40 5000)) = Ok m' /\
    seq_len m' = 5001 /\
    exists e, PulseDetectionNet_forward true m' [32; 5001; 40] = Raise e.
Proof.
  eapply (seq_len_rejected_by_forward_only true (default_args 40 5000) _ 32 5001 40).
  - vm_compute. reflexivity.
  - reflexivity.
  - intros [q Hq]. simpl in Hq. lia.
Defined.

(** ** The orchestrator's forward pass *)

Lemma list_comp_Ok_length {A B} (f : A -> result B) (xs : list A) (ys : list B) :
  list_comp f xs = Ok ys -> length ys = length xs.
Proof.
  revert ys. induction xs as [|x xs IH]; intros ys; simpl.
  - by intros [= <-].
  - intros Hc. apply bind_Ok in Hc as (y & _ & Hc).
    apply bind_Ok in Hc as (ys' & Hys' & [= <-]). simpl. f_equal. by apply IH.
Qed.

Lemma py_enumerate_cons {A} (x : A) (xs : list A) :
  py_enumerate (x :: xs) = (0, x) :: py_zip (Z.of_nat <$> seq 1 (length xs)) xs.
Proof. unfold py_enumerate, py_range. by rewrite Nat2Z.id. Qed.

(** Every orchestrator that [__init__] returns has at least one site. *)
Lemma MultiSitePulseDetectionNet_init_sites site_configs enable_fusion direct_ptt
    pairs (m : MultiSite_modules) :
  MultiSitePulseDetectionNet_init site_configs enable_fusion direct_ptt pairs = Ok m ->
  ms_site_networks m <> [] /\ ms_enable_fusion m = enable_fusion
  /\ ms_direct_ptt m = direct_ptt.
Proof.
  unfold MultiSitePulseDetectionNet_init. intros Hinit.
  apply bind_Ok in Hinit as (nets & Hnets & Hinit).
  apply bind_Ok in Hinit as (chs & _ & Hinit).
  apply bind_Ok in Hinit as (c0 & Hc0 & Hinit).
  apply bind_Ok in Hinit as (h & _ & Hinit).
  apply bind_Ok in Hinit as (att & _ & [= <-]). simpl.
  split; [|done].
  apply list_comp_Ok_length in Hnets.
  destruct site_configs as [|c cs]; [discriminate Hc0|].
  destruct nets; [discriminate Hnets|done].
Qed.

(** The forward pass of any constructed orchestrator stops at the first
    site: [network.encode] is not an attribute of [PulseDetectionNet]. *)
Lemma MultiSitePulseDetectionNet_forward_raises site_configs enable_fusion
    direct_ptt pairs (m : MultiSite_modules) (training : bool) (x : shape) :
  MultiSitePulseDetectionNet_init site_configs enable_fusion direct_ptt pairs = Ok m ->
  MultiSitePulseDetectionNet_forward (bind_modules training PulseDetectionNet_methods m) x
  = Raise (AttributeError "'PulseDetectionNet' object has no attribute 'encode'").
Proof.
  intros Hinit. apply MultiSitePulseDetectionNet_init_sites in Hinit as (Hne & _).
  unfold MultiSitePulseDetectionNet_forward, encode_sites. simpl.
  destruct (ms_site_networks m) as [|n ns]; [done|].
  rewrite fmap_cons, py_enumerate_cons. reflexivity.
Qed.

(** C1, on the code.  The orchestrator of the scenario (three sites with 21,
    42 and 21 input channels, sequence length 5000, reduced width 8, hidden
    channels 64, 128, 256, recurrent width 128, fusion and direct PTT
    regression enabled, default pairing) is constructed, with pairs
    [(0,1); (0,2); (1,2)]; its forward pass on a batch of 16 does not return
    a tensor: it raises [AttributeError] at [network.encode]. *)
Theorem scenario_forward_raises_AttributeError (training : bool) :
  exists m : MultiSite_modules,
    scenario_modules = Ok m /\
    ms_all_pairs m = Some [(0, 1); (0, 2); (1, 2)] /\
    MultiSitePulseDetectionNet_forward
      (bind_modules training PulseDetectionNet_methods m) [16; 3; 5000; 42]
    = Raise (AttributeError "'PulseDetectionNet' object has no attribute 'encode'").
Proof.
  destruct scenario_modules as [m|e] eqn:Hm; [|vm_compute in Hm; discriminate].
  exists m. split; [done|]. split.
  - vm_compute in Hm. by injection Hm as <-.
  - by eapply MultiSitePulseDetectionNet_forward_raises.
Qed.

(** With the three stage methods supplied as the spec describes them, the
    same forward pass returns shape [(16, 3)], and [(16, 3, 5000, 1)] in
    decode mode. *)
Lemma scenario_forward_staged_shape (training : bool) :
  (m ← scenario_modules;
   MultiSitePulseDetectionNet_forward
     (bind_modules training (staged_methods training) m) [16; 3; 5000; 42])
  = Ok [16; 3]
  /\
  (m ← MultiSitePulseDetectionNet_init scenario_configs true false None;
   MultiSitePulseDetectionNet_forward
     (bind_modules training (staged_methods training) m) [16; 3; 5000; 42])
  = Ok [16; 3; 5000; 1].
Proof. destruct training; split; vm_compute; reflexivity. Qed.

(** ** Fusion disabled *)

(** C6. In an orchestrator with [enable_fusion = False] the fusion step
    returns the list of bottleneck outputs itself, whatever the tensors are,
    so the branch that follows (per-site decoding or pairwise regression)
    receives exactly the encoded features. *)
Theorem fusion_disabled_is_identity {T : Type} `{TensorOps T}
    (m : MultiSitePulseDetectionNet T) :
  enable_fusion m = false ->
  (forall encoded_features : list T, fuse m encoded_features = Ok encoded_features)
  /\
  (forall site_inputs : T,
     MultiSitePulseDetectionNet_forward m site_inputs
     = '(encoded_features, skip_connections) ← encode_sites m site_inputs;
       output_branch m encoded_features skip_connections).
Proof.
  intros Hoff. split.
  - intros enc. unfold fuse. by rewrite Hoff.
  - intros x. unfold MultiSitePulseDetectionNet_forward, fuse. rewrite Hoff.
    by destruct (encode_sites m x) as [[enc skips]|e].
Qed.

Lemma fusion_disabled_is_identity_witness :
  exists mods : MultiSite_modules,
    MultiSitePulseDetectionNet_init scenario_configs false true None = Ok mods /\
    let m := bind_modules true (staged_methods true) mods in
    (forall encoded_features : list shape, fuse m encoded_features = Ok encoded_features)
    /\
    (forall site_inputs : shape,
       MultiSitePulseDetectionNet_forward m site_inputs
       = '(encoded_features, skip_connections) ← encode_sites m site_inputs;
         output_branch m encoded_features skip_connections).
Proof.
  eexists. split; [vm_compute; reflexivity|].
  apply (fusion_disabled_is_identity (T := shape)). reflexivity.
Defined.

(** Without fusion the staged scenario still returns [(16, 3)]: the pooled
    encoder outputs reach the regression heads directly. *)
Example scenario_no_fusion_staged :
  (m ← MultiSitePulseDetectionNet_init scenario_configs false true None;
   MultiSitePulseDetectionNet_forward
     (bind_modules true (staged_methods true) m) [16; 3; 5000; 42])
  = Ok [16; 3].
Proof. vm_compute. reflexivity. Qed.

(** ** Shape invariance of the fusion block *)

Lemma list_comp_replicate {A B} (f : A -> result B) (xs : list A) (v : B) :
  Forall (fun x => f x = Ok v) xs ->
  list_comp f xs = Ok (replicate (length xs) v).
Proof.
  induction 1 as [|x xs Hx _ IH]; simpl; [done|]. by rewrite Hx, IH.
Qed.

Lemma Forall_eq_replicate {A} (v : A) (xs : list A) :
  Forall (fun x => x = v) xs -> xs = replicate (length xs) v.
Proof. induction 1 as [|x xs -> _ IH]; simpl; [done|]. by rewrite <- IH. Qed.

Lemma py_range_bounds (n i : Z) : i ∈ py_range n -> 0 <= i < n.
Proof.
  unfold py_range. intros Hi. apply list_elem_of_fmap in Hi as (k & -> & Hk).
  apply elem_of_seq in Hk. lia.
Qed.

Lemma py_range_length (n : nat) : length (py_range (Z.of_nat n)) = n.
Proof. unfold py_range. by rewrite length_fmap, length_seq, Nat2Z.id. Qed.

Lemma MultiheadAttention_init_inv (e h : Z) (m : MultiheadAttention) :
  MultiheadAttention_init e h = Ok m -> embed_dim m = e /\ 0 < e.
Proof.
  unfold MultiheadAttention_init. intros Hm. shape_cases. subst. simpl. lia.
Qed.

Lemma reshape_ok (dims x : shape) : numel dims = numel x -> reshape dims x = Ok dims.
Proof. intros Hn. unfold reshape. by rewrite decide_True. Qed.

Lemma MultiheadAttention_forward_ok (m : MultiheadAttention) (b l e : Z) :
  embed_dim m = e -> MultiheadAttention_forward m [b; l; e] = Ok [b; l; e].
Proof. intros He. simpl. by rewrite decide_True. Qed.

Lemma add_same (a : shape) : add a a = Ok a.
Proof. unfold add. by rewrite decide_True. Qed.

Lemma LayerNorm_ok (training : bool) (b l e : Z) :
  apply_layer training (LayerNorm e) [b; l; e] = Ok [b; l; e].
Proof. simpl. unfold last_dim_apply. simpl. by rewrite decide_True. Qed.

Lemma CrossSiteTemporalAttention_forward_shape (training : bool)
    (hidden num_heads : Z) (att : CrossSiteTemporalAttention) (N L C : Z)
    (site_features : list shape) :
  CrossSiteTemporalAttention_init hidden num_heads = Ok att ->
  site_features <> [] ->
  Forall (fun x => x = [N; L; C]) site_features ->
  C = hidden ->
  CrossSiteTemporalAttention_forward training att site_features = Ok site_features.
Proof.
  intros Hinit Hne Hall ->.
  unfold CrossSiteTemporalAttention_init in Hinit.
  apply bind_Ok in Hinit as (sa & Hsa & Hinit).
  apply bind_Ok in Hinit as (ta & Hta & [= <-]).
  apply MultiheadAttention_init_inv in Hsa as [Hsa _].
  apply MultiheadAttention_init_inv in Hta as [Hta _].
  destruct site_features as [|x rest]; [done|].
  apply Forall_cons in Hall as [-> Hrest].
  unfold CrossSiteTemporalAttention_forward, stack1.
  rewrite decide_True by done.
  cbn [mbind result_bind transpose12 site_attention temporal_attention norm1 norm2].
  match goal with
  | |- context [reshape [N * L; ?s; hidden] _] => remember s as S eqn:HS
  end.
  rewrite (reshape_ok [N * L; S; hidden]) by (unfold numel; cbn [fold_right]; ring).
  cbn [mbind result_bind].
  rewrite (MultiheadAttention_forward_ok sa) by done. cbn [mbind result_bind].
  rewrite add_same. cbn [mbind result_bind].
  rewrite LayerNorm_ok. cbn [mbind result_bind].
  rewrite (reshape_ok [N; L; S; hidden]) by (unfold numel; cbn [fold_right]; ring).
  cbn [mbind result_bind transpose12].
  rewrite (reshape_ok [N * S; L; hidden]) by (unfold numel; cbn [fold_right]; ring).
  cbn [mbind result_bind].
  rewrite (MultiheadAttention_forward_ok ta) by done. cbn [mbind result_bind].
  rewrite add_same. cbn [mbind result_bind].
  rewrite LayerNorm_ok. cbn [mbind result_bind].
  rewrite (reshape_ok [N; S; L; hidden]) by (unfold numel; cbn [fold_right]; ring).
  cbn [mbind result_bind].
  rewrite (list_comp_replicate _ _ [N; L; hidden]).
  - rewrite HS, py_range_length. simpl. do 2 f_equal.
    symmetry. by apply Forall_eq_replicate.
  - apply Forall_forall. intros i Hi. apply py_range_bounds in Hi.
    unfold select1. by rewrite decide_True by lia.
Qed.

(** C2. For a fusion block of width [C] and a list of [S >= 1] per-site
    latent tensors, all of shape [(N, T, C)], the forward pass returns a list
    of [S] tensors, each of shape exactly [(N, T, C)]: entry [i] of the
    result has the shape of entry [i] of the input. *)
Theorem fusion_shape_invariance (training : bool) (num_heads : Z)
    (att : CrossSiteTemporalAttention) (N T C : Z) (site_features : list shape) :
  CrossSiteTemporalAttention_init C num_heads = Ok att ->
  (0 < length site_features)%nat ->
  Forall (fun x => x = [N; T; C]) site_features ->
  exists out : list shape,
    CrossSiteTemporalAttention_forward training att site_features = Ok out /\
    length out = length site_features /\
    (forall (i : nat), (i < length site_features)%nat ->
       out !! i = Some [N; T; C] /\ out !! i = site_features !! i).
Proof.
  intros Hinit Hlen Hall.
  exists site_features. split; [|split; [done|]].
  - eapply CrossSiteTemporalAttention_forward_shape; eauto.
    destruct site_features; [simpl in Hlen; lia|done].
  - intros i Hi. split; [|done].
    destruct (lookup_lt_is_Some_2 site_features i Hi) as [x Hx].
    assert (x = [N; T; C]) as <-; [|exact Hx].
    rewrite Forall_forall in Hall. apply Hall.
    by eapply list_elem_of_lookup_2.
Qed.

Lemma fusion_shape_invariance_witness :
  exists (att : CrossSiteTemporalAttention) (out : list shape),
    CrossSiteTemporalAttention_init 256 4 = Ok att /\
    CrossSiteTemporalAttention_forward true att
      [[16; 625; 256]; [16; 625; 256]; [16; 625; 256]] = Ok out /\
    length out = 3%nat /\
    (forall (i : nat), (i < 3)%nat ->
       out !! i = Some [16; 625; 256] /\
       out !! i = [[16; 625; 256]; [16; 625; 256]; [16; 625; 256]] !! i).
Proof.
  eexists.
  destruct (fusion_shape_invariance true 4
              {| site_attention := {| embed_dim := 256; num_heads := 4 |};
                 temporal_attention := {| embed_dim := 256; num_heads := 4 |};
                 norm1 := LayerNorm 256; norm2 := LayerNorm 256 |}
              16 625 256 [[16; 625; 256]; [16; 625; 256]; [16; 625; 256]])
    as (out & Hout & Hrest).
  - reflexivity.
  - simpl. lia.
  - repeat constructor.
  - exists out. split; [reflexivity|]. split; [exact Hout|exact Hrest].
Defined.

(** ** The spatial top-k selection *)

Lemma list_comp_map {B C} (f : B -> result C) (g : B -> C) (xs : list B) :
  Forall (fun x => f x = Ok (g x)) xs -> list_comp f xs = Ok (g <$> xs).
Proof. induction 1 as [|x xs Hx _ IH]; simpl; [done|]. by rewrite Hx, IH. Qed.

Lemma transpose_is_matrix {B} (rows cols : nat) (M : list (list B)) :
  (0 < rows)%nat -> is_matrix rows cols M -> is_matrix cols rows (transpose M).
Proof.
  revert rows. induction M as [|r M IH]; intros rows Hpos [Hlen Hall].
  - simpl in Hlen. lia.
  - apply Forall_cons in Hall as [Hr Hall]. simpl in Hlen.
    destruct M as [|r' M].
    + simpl. split; [by rewrite length_fmap|].
      subst rows. apply Forall_fmap, Forall_forall. by intros.
    + destruct (IH (length (r' :: M)) ltac:(simpl; lia) (conj eq_refl Hall))
        as [Hlen' Hall'].
      change (transpose (r :: r' :: M)) with (zip_with cons r (transpose (r' :: M))).
      split.
      * rewrite length_zip_with. lia.
      * subst rows. clear -Hall'.
        revert r. induction Hall' as [|c cs Hc _ IHc]; intros [|v r]; simpl;
          constructor; simpl; auto.
Qed.

Section SelectionLemmas.
Context {A : Type}.
Variable leb : A -> A -> bool.

Lemma insert_ranked_values (p : nat * A) (l : list (nat * A)) :
  (insert_ranked leb p l).*2 = insert_desc leb p.2 (l.*2).
Proof.
  induction l as [|q l IH]; [done|].
  cbn [insert_ranked]. rewrite fmap_cons. cbn [insert_desc].
  destruct (leb q.2 p.2); [done|]. rewrite fmap_cons. by rewrite IH.
Qed.

Lemma enumerate_from_cons (s : nat) (v : A) (col : list A) :
  enumerate_from s (v :: col) = (s, v) :: enumerate_from (S s) col.
Proof.
  unfold enumerate_from. simpl. rewrite Nat.add_0_r. f_equal.
  apply imap_ext. intros i x _. simpl. f_equal. lia.
Qed.

Lemma ranked_values_from (s : nat) (col : list A) :
  (foldr (insert_ranked leb) [] (enumerate_from s col)).*2 = sort_desc leb col.
Proof.
  revert s. induction col as [|v col IH]; intros s; [done|].
  rewrite enumerate_from_cons. cbn [foldr sort_desc].
  by rewrite insert_ranked_values, IH.
Qed.

Lemma insert_ranked_perm (p : nat * A) (l : list (nat * A)) :
  insert_ranked leb p l ≡ₚ p :: l.
Proof.
  induction l as [|q l IH]; simpl; [done|].
  destruct (leb q.2 p.2); [done|]. rewrite IH. apply Permutation_swap.
Qed.

Lemma ranked_perm_from (s : nat) (col : list A) :
  foldr (insert_ranked leb) [] (enumerate_from s col) ≡ₚ enumerate_from s col.
Proof.
  revert s. induction col as [|v col IH]; intros s; [done|].
  rewrite enumerate_from_cons. simpl. by rewrite insert_ranked_perm, IH.
Qed.

Lemma enumerate_from_lookup (s : nat) (col : list A) (i : nat) (v : A) :
  (i, v) ∈ enumerate_from s col <-> (s <= i)%nat /\ col !! (i - s)%nat = Some v.
Proof.
  unfold enumerate_from. rewrite list_elem_of_lookup. split.
  - intros (j & Hj). rewrite list_lookup_imap in Hj.
    destruct (col !! j) as [w|] eqn:Hw; simpl in Hj; [|done].
    injection Hj as <- <-. split; [lia|]. by replace (s + j - s)%nat with j by lia.
  - intros [Hle Hv]. exists (i - s)%nat. rewrite list_lookup_imap, Hv. simpl.
    do 2 f_equal. lia.
Qed.

Lemma ranked_lookup (col : list A) (p : nat * A) :
  p ∈ ranked leb col <-> col !! p.1 = Some p.2.
Proof.
  unfold ranked. rewrite ranked_perm_from. destruct p as [i v].
  rewrite enumerate_from_lookup. simpl. rewrite Nat.sub_0_r.
  split; [by intros [_ ?]|]. split; [lia|done].
Qed.

Lemma gather_values (col : list A) (l : list (nat * A)) :
  Forall (fun p => col !! p.1 = Some p.2) l -> gather col (l.*1) = l.*2.
Proof.
  unfold gather. induction 1 as [|p l Hp _ IH]; [done|].
  rewrite !fmap_cons. cbn [omap list_omap]. rewrite Hp. f_equal. exact IH.
Qed.

(** On one column, the values [torch.topk] returns are the values at the
    stably selected positions. *)
Lemma topk_values_stable (k : Z) (col : list A) :
  0 <= k <= Z.of_nat (length col) ->
  topk_values leb k col = Ok (gather col (stable_topk_positions leb k col)).
Proof.
  intros Hk. unfold topk_values, stable_topk_positions.
  rewrite decide_True by done. f_equal.
  rewrite gather_values.
  - by rewrite fmap_take, <- (ranked_values_from 0).
  - apply Forall_forall. intros p Hp. apply ranked_lookup.
    apply elem_of_take in Hp as (i & Hi & _). by eapply list_elem_of_lookup_2.
Qed.

End SelectionLemmas.

Section OrderedSelection.
Context {A : Type}.
Variable leb : A -> A -> bool.
Hypothesis leb_total : forall a b, leb a b = true \/ leb b a = true.
Hypothesis leb_trans : forall a b c, leb a b = true -> leb b c = true -> leb a c = true.

Lemma insert_ranked_sorted (p : nat * A) (l : list (nat * A)) :
  StronglySorted (ranks_before leb) l ->
  Forall (fun q => (p.1 < q.1)%nat) l ->
  StronglySorted (ranks_before leb) (insert_ranked leb p l).
Proof using leb_total leb_trans.
  induction 1 as [|q l Hsorted IH Hq]; intros Hidx; simpl.
  - repeat constructor.
  - apply Forall_cons in Hidx as [Hpq Hidx].
    destruct (leb q.2 p.2) eqn:Hle.
    + constructor; [by constructor|]. constructor.
      * by split.
      * rewrite Forall_forall in Hq, Hidx |- *. intros r Hr.
        destruct (Hq r Hr) as [Hrq _]. split; [by eapply leb_trans|].
        intros _. by apply Hidx.
    + constructor; [by apply IH|].
      rewrite (insert_ranked_perm leb p l). constructor; [|done].
      split; [|by rewrite Hle].
      destruct (leb_total p.2 q.2) as [?|Hqp]; [done|congruence].
Qed.

Lemma ranked_sorted_from (s : nat) (col : list A) :
  StronglySorted (ranks_before leb)
    (foldr (insert_ranked leb) [] (enumerate_from s col)).
Proof using leb_total leb_trans.
  revert s. induction col as [|v col IH]; intros s; [constructor|].
  rewrite enumerate_from_cons. cbn [foldr].
  apply insert_ranked_sorted; [apply IH|].
  rewrite (ranked_perm_from leb (S s) col).
  apply Forall_forall. intros [i w] Hi.
  apply enumerate_from_lookup in Hi as [Hle _]. simpl. lia.
Qed.

Lemma enumerate_from_positions (s : nat) (col : list A) :
  (enumerate_from s col).*1 = seq s (length col).
Proof.
  revert s. induction col as [|v col IH]; intros s; [done|].
  rewrite enumerate_from_cons, fmap_cons. simpl. by rewrite IH.
Qed.

(** The stably selected positions are [k] distinct positions of the column;
    every position left out holds a value no larger than any selected one,
    and an equal value only at a larger position. *)
Lemma stable_topk_positions_spec (k : Z) (col : list A) :
  0 <= k <= Z.of_nat (length col) ->
  let P := stable_topk_positions leb k col in
  length P = Z.to_nat k /\ NoDup P /\
  (forall i, i ∈ P -> (i < length col)%nat) /\
  (forall i j vi vj, i ∈ P -> j ∉ P ->
     col !! i = Some vi -> col !! j = Some vj ->
     leb vj vi = true /\ (leb vi vj = true -> (i < j)%nat)).
Proof using leb_total leb_trans.
  intros Hk P. unfold P, stable_topk_positions.
  assert (ranked leb col ≡ₚ enumerate_from 0 col) as Hperm
    by apply ranked_perm_from.
  assert (length (ranked leb col) = length col) as Hlen.
  { rewrite Hperm. unfold enumerate_from. by rewrite length_imap. }
  assert (NoDup (ranked leb col).*1) as Hnodup.
  { rewrite Hperm, enumerate_from_positions. apply NoDup_seq. }
  split; [|split; [|split]].
  - rewrite length_fmap, length_take. lia.
  - rewrite fmap_take. eapply sublist_NoDup; [exact Hnodup|apply sublist_take].
  - intros i Hi. apply list_elem_of_fmap in Hi as ([i' v] & -> & Hp).
    apply elem_of_take in Hp as (n & Hn & _).
    apply list_elem_of_lookup_2, ranked_lookup in Hn. simpl in *.
    by eapply lookup_lt_Some.
  - intros i j vi vj Hi Hj Hvi Hvj.
    apply list_elem_of_fmap in Hi as ([i' vi'] & -> & Hp). simpl in *.
    assert (vi' = vi) as ->.
    { apply elem_of_take in Hp as (n & Hn & _).
      apply list_elem_of_lookup_2, ranked_lookup in Hn. simpl in Hn. congruence. }
    assert ((j, vj) ∈ ranked leb col) as Hq by (by apply ranked_lookup).
    rewrite <- (take_drop (Z.to_nat k) (ranked leb col)) in Hq.
    apply elem_of_app in Hq as [Hq|Hq].
    { exfalso. apply Hj. apply list_elem_of_fmap. by exists (j, vj). }
    pose proof (ranked_sorted_from 0 col) as Hsorted. fold (ranked leb col) in Hsorted.
    rewrite <- (take_drop (Z.to_nat k) (ranked leb col)) in Hsorted.
    exact (StronglySorted_app_1_elem_of _ _ _ _ _ Hsorted Hp Hq).
Qed.

Lemma insert_desc_perm (x : A) (l : list A) : insert_desc leb x l ≡ₚ x :: l.
Proof.
  induction l as [|y l IH]; simpl; [done|].
  destruct (leb y x); [done|]. rewrite IH. apply Permutation_swap.
Qed.

Lemma sort_desc_perm (l : list A) : sort_desc leb l ≡ₚ l.
Proof.
  induction l as [|x l IH]; [done|].
  cbn [sort_desc foldr]. fold (sort_desc leb l). by rewrite insert_desc_perm, IH.
Qed.

Lemma insert_desc_sorted (x : A) (l : list A) :
  StronglySorted (ge_by leb) l -> StronglySorted (ge_by leb) (insert_desc leb x l).
Proof using leb_total leb_trans.
  induction 1 as [|y l Hsorted IH Hy]; simpl.
  - repeat constructor.
  - destruct (leb y x) eqn:Hle.
    + constructor; [by constructor|]. constructor; [done|].
      rewrite Forall_forall in Hy |- *. intros z Hz. unfold ge_by in *.
      eapply leb_trans; [by apply Hy|done].
    + constructor; [done|]. rewrite insert_desc_perm. constructor; [|done].
      unfold ge_by. destruct (leb_total x y); [done|congruence].
Qed.

Lemma sort_desc_sorted (l : list A) : StronglySorted (ge_by leb) (sort_desc leb l).
Proof using leb_total leb_trans.
  induction l as [|x l IH]; [constructor|].
  cbn [sort_desc foldr]. by apply insert_desc_sorted.
Qed.

(** Whatever algorithm orders the column, the values come out the same: a
    descending arrangement of the column is unique. *)
Lemma sort_desc_unique (l l' : list A) :
  (forall a b, leb a b = true -> leb b a = true -> a = b) ->
  l' ≡ₚ l -> StronglySorted (ge_by leb) l' -> l' = sort_desc leb l.
Proof using leb_total leb_trans.
  intros Hanti Hperm Hsorted.
  assert (AntiSymm (=) (ge_by leb)) by (intros a b ? ?; by apply Hanti).
  apply (StronglySorted_unique (ge_by leb)); [done|apply sort_desc_sorted|].
  by rewrite sort_desc_perm.
Qed.

End OrderedSelection.

Section SpatialReductionValues.
Context {A : Type}.
Variable leb : A -> A -> bool.
Variable processing :
  list (list (list (list A))) -> result (list (list (list (list A)))).
Variables (add mul : A -> A -> A) (weight : list A) (bias : A).

Lemma topk_dim2_stable (rows cols : nat) (k : Z) (x1 : list (list (list (list A)))) :
  Forall (Forall (is_matrix rows cols)) x1 ->
  (0 < rows)%nat -> 0 <= k <= Z.of_nat rows ->
  topk_dim2 leb k x1 = Ok (select_dim2 leb k x1).
Proof.
  intros Hx1 Hrows Hk. unfold topk_dim2, select_dim2.
  apply list_comp_map. eapply Forall_impl; [exact Hx1|]. intros maps Hmaps.
  apply list_comp_map. eapply Forall_impl; [exact Hmaps|]. intros M HM. simpl.
  destruct (transpose_is_matrix rows cols M Hrows HM) as [_ Hcols].
  rewrite (list_comp_map _
    (fun col : list A => gather col (stable_topk_positions leb k col))); [done|].
  eapply Forall_impl; [exact Hcols|]. intros col Hcol. simpl in Hcol.
  apply topk_values_stable. lia.
Qed.

(** After the 1x1 projection axis 1 has extent 1, so [squeeze(1)] always
    removes it. *)
Lemma channel_adjust_squeeze (x y : list (list (list (list A)))) :
  channel_adjust_v add mul weight bias x = Ok y ->
  exists z, squeeze1_v y = Ok z /\ y = (fun M => [M]) <$> z.
Proof.
  unfold channel_adjust_v, squeeze1_v. revert y.
  induction x as [|maps x IH]; intros y; simpl.
  - intros [= <-]. by exists [].
  - intros Hy. apply bind_Ok in Hy as (m & Hm & Hy).
    apply bind_Ok in Hm as (M & _ & [= <-]).
    apply bind_Ok in Hy as (y' & Hy' & [= <-]).
    destruct (IH y' Hy') as (z & Hz & ->).
    exists (M :: z). simpl. by rewrite Hz.
Qed.

(** C3. For an input whose spatial extent [rows] is at least the reduced
    width [k], the reduction step hands to the 1x1 projection, for every
    sample, each of the intermediate feature maps and each timepoint
    independently, the values found at the [k] spatial positions holding the
    largest activations, ties resolved towards the smaller position
    ([stable_topk_positions], characterised by
    [stable_topk_positions_spec]). *)
Theorem spatial_reduction_selects_topk (rows cols : nat) (k : Z)
    (x : list (list (list A))) (x1 : list (list (list (list A)))) :
  Forall (is_matrix rows cols) x ->
  (0 < rows)%nat -> 0 <= k <= Z.of_nat rows ->
  processing (unsqueeze1_v x) = Ok x1 ->
  Forall (Forall (is_matrix rows cols)) x1 ->
  SpatialReductionPreprocessing_forward_v leb processing add mul weight bias k x
  = (y ← channel_adjust_v add mul weight bias (select_dim2 leb k x1);
     squeeze1_v y).
Proof.
  intros _ Hrows Hk Hproc Hx1.
  unfold SpatialReductionPreprocessing_forward_v.
  rewrite Hproc. cbn [mbind result_bind].
  by rewrite (topk_dim2_stable rows cols).
Qed.

End SpatialReductionValues.

Lemma spatial_reduction_selects_topk_witness :
  let x := [[[3; 1]; [3; 2]; [1; 5]]] in
  SpatialReductionPreprocessing_forward_v Z.leb replicate_maps Z.add Z.mul
    (replicate 16 1) 0 2 x
  = (y ← channel_adjust_v Z.add Z.mul (replicate 16 1) 0
           (select_dim2 Z.leb 2 (replicate 16 <$> x));
     squeeze1_v y).
Proof.
  apply (spatial_reduction_selects_topk Z.leb replicate_maps Z.add Z.mul
           (replicate 16 1) 0 3 2 2 [[[3; 1]; [3; 2]; [1; 5]]]).
  - repeat constructor.
  - lia.
  - lia.
  - reflexivity.
  - repeat constructor.
Defined.

(** The same run, evaluated: per timepoint the two largest of the three
    spatial values, summed over the 16 maps. *)
Example spatial_reduction_run :
  SpatialReductionPreprocessing_forward_v Z.leb replicate_maps Z.add Z.mul
    (replicate 16 1) 0 2 [[[3; 1]; [3; 2]; [1; 5]]]
  = Ok [[[48; 80]; [48; 32]]]
  /\ stable_topk_positions Z.leb 2 [3; 3; 1] = [0; 1]%nat
  /\ stable_topk_positions Z.leb 2 [1; 2; 5] = [2; 1]%nat.
Proof. repeat split; vm_compute; reflexivity. Qed.

(** ** Range of the decode-mode output *)

Lemma logistic_range (x : R) : (0 < logistic x < 1)%R.
Proof.
  unfold logistic. pose proof (exp_pos (- x)) as Hexp.
  split.
  - apply Rdiv_lt_0_compat; lra.
  - apply (Rmult_lt_reg_r (1 + exp (- x))); [lra|].
    unfold Rdiv. rewrite Rmult_assoc, Rinv_l by lra. lra.
Qed.

Lemma transpose_Forall {B} (P : B -> Prop) (M : list (list B)) :
  Forall (Forall P) M -> Forall (Forall P) (transpose M).
Proof.
  induction 1 as [|r M Hr HM IH]; [constructor|].
  destruct M as [|r' M].
  - simpl. apply Forall_fmap. eapply Forall_impl; [exact Hr|].
    intros b Hb. by constructor.
  - change (transpose (r :: r' :: M)) with (zip_with cons r (transpose (r' :: M))).
    clear HM. revert IH. generalize (transpose (r' :: M)). clear -Hr.
    induction Hr as [|v r Hv _ IHr]; intros cs Hcs; [constructor|].
    destruct Hcs as [|c cs Hc Hcs]; simpl; constructor; auto.
Qed.

(** The sigmoid of a NaN is a NaN, and nothing else gives one when the
    rounding is monotone. *)
Lemma sigmoid_nan (round32 : R -> float32) (v : float32) :
  (forall r s : R, (r <= s)%R -> SFleb (round32 r) (round32 s) = true) ->
  sigmoid round32 v = S754_nan <-> v = S754_nan.
Proof.
  intros Hmono. split; [|by intros ->].
  assert (forall r, round32 r <> S754_nan) as Hr.
  { intros r Hnan. specialize (Hmono r r (Rle_refl r)). by rewrite Hnan in Hmono. }
  destruct v as [s|[]| |s m e]; simpl; try done; intros H; by apply Hr in H.
Qed.

Lemma sigmoid_in_unit_interval (round32 : R -> float32) (v : float32) :
  (forall r s : R, (r <= s)%R -> SFleb (round32 r) (round32 s) = true) ->
  round32 0%R = f32_zero -> round32 1%R = f32_one ->
  v <> S754_nan -> in_unit_interval (sigmoid round32 v) = true.
Proof.
  intros Hmono H0 H1 Hv.
  assert (forall r, in_unit_interval (round32 (logistic r)) = true) as Hr.
  { intros r. pose proof (logistic_range r) as [Hlo Hhi].
    unfold in_unit_interval. rewrite <- H0 at 1. rewrite <- H1.
    rewrite !Hmono by lra. done. }
  destruct v as [s|[]| |s m e]; simpl; try done; apply Hr.
Qed.


Lemma round_to_bit_monotone (r s : R) :
  (r <= s)%R -> SFleb (round_to_bit r) (round_to_bit s) = true.
Proof.
  intros Hrs. unfold round_to_bit.
  destruct (Rle_dec r 0%R), (Rle_dec s 0%R); try reflexivity. lra.
Qed.



(** ** Key renaming in [load_pretrained] *)

Example py_replace_examples :
  py_replace "model." "" "model.encoder_blocks.0.conv.0.weight"
    = "encoder_blocks.0.conv.0.weight"
  /\ py_replace "model." "" "lstm.weight_ih_l0" = "lstm.weight_ih_l0"
  /\ py_replace "model." "" "model.submodel.weight" = "subweight"
  /\ py_replace "model." "" "encoder.model.0.weight" = "encoder.0.weight"
  /\ py_replace "ab" "x" "aabab" = "axx".
Proof. repeat split; reflexivity. Qed.

Lemma prefix_append (p s : string) : String.prefix p (p +:+ s) = true.
Proof.
  induction p as [|c p IH]; simpl; [by destruct s|].
  destruct (Ascii.ascii_dec c c); [done|congruence].
Qed.

Lemma py_replace_aux_skip (old new w rest : string) :
  py_replace_aux old new (String.length w) (w +:+ rest)
  = py_replace_aux old new 0 rest.
Proof. induction w as [|c w IH]; simpl; [done|exact IH]. Qed.

(** A key that starts with [old]: the first occurrence goes, the rest of the
    key is processed in turn. *)
Lemma py_replace_prefix (c : ascii) (old' new rest : string) :
  py_replace (String c old') new (String c old' +:+ rest)
  = new +:+ py_replace (String c old') new rest.
Proof.
  unfold py_replace.
  change (String c old' +:+ rest) with (String c (old' +:+ rest)).
  cbn [py_replace_aux].
  pose proof (prefix_append (String c old') rest) as Hp.
  change (String c old' +:+ rest) with (String c (old' +:+ rest)) in Hp.
  rewrite Hp. f_equal.
  replace (String.length (String c old') - 1)%nat with (String.length old')
    by (simpl; lia).
  apply py_replace_aux_skip.
Qed.

(** A key without an occurrence is left as it is. *)
Lemma py_replace_absent (old new s : string) :
  py_contains old s = false -> py_replace old new s = s.
Proof.
  unfold py_replace. induction s as [|c s IH]; [done|].
  cbn [py_contains py_replace_aux]. intros Hc.
  apply orb_false_iff in Hc as [-> Hc]. by rewrite IH.
Qed.

Lemma string_app_nil_l (s : string) : "" +:+ s = s.
Proof. done. Qed.

(** On a key that is ["model."] followed by a remainder free of ["model."],
    the renaming removes exactly the prefix. *)
Lemma py_replace_model_prefix (rest : string) :
  py_contains "model." rest = false ->
  py_replace "model." "" ("model." +:+ rest) = rest.
Proof.
  intros Hrest. rewrite py_replace_prefix, string_app_nil_l.
  by apply py_replace_absent.
Qed.

Section LoadPretrainedLemmas.
Context {V : Type}.
Variable torch_load : string -> result (option (list (string * V))).
Variable same_shape : V -> V -> bool.

Lemma new_state_dict_list_to_map (state_dict : list (string * V)) :
  new_state_dict state_dict = list_to_map (reverse (renamed_items state_dict)).
Proof.
  unfold new_state_dict, renamed_items.
  assert (forall (d : gmap string V),
    foldl (fun d '(k, v) => <[py_replace "model." "" k := v]> d) d state_dict
    = list_to_map (reverse
        ((fun kv : string * V => (py_replace "model." "" kv.1, kv.2)) <$> state_dict))
      ∪ d)
    as Hgen.
  { induction state_dict as [|[k v] sd IH]; intros d; simpl.
    - by rewrite (left_id_L ∅ (∪)).
    - rewrite IH, reverse_cons, list_to_map_app. simpl.
      rewrite <- (assoc_L (∪)). f_equal.
      by rewrite insert_union_singleton_l, insert_empty. }
  rewrite Hgen. by rewrite (right_id_L ∅ (∪)).
Qed.

Lemma renamed_items_elem (state_dict : list (string * V)) (k' : string) (v : V) :
  (k', v) ∈ renamed_items state_dict
  <-> exists k, (k, v) ∈ state_dict /\ k' = py_replace "model." "" k.
Proof.
  unfold renamed_items. rewrite list_elem_of_fmap. split.
  - intros ([k w] & [= -> ->] & Hin). eauto.
  - intros (k & Hin & ->). by exists (k, v).
Qed.

Lemma new_state_dict_lookup_inv (state_dict : list (string * V)) (k' : string) (v : V) :
  new_state_dict state_dict !! k' = Some v ->
  exists k, (k, v) ∈ state_dict /\ k' = py_replace "model." "" k.
Proof.
  rewrite new_state_dict_list_to_map. intros Hl.
  by apply elem_of_list_to_map_2, elem_of_reverse, renamed_items_elem in Hl.
Qed.

Lemma new_state_dict_lookup_is_Some (state_dict : list (string * V)) (k : string) (v : V) :
  (k, v) ∈ state_dict ->
  is_Some (new_state_dict state_dict !! py_replace "model." "" k).
Proof.
  rewrite new_state_dict_list_to_map. intros Hin.
  apply not_eq_None_Some. intros Hnone.
  apply not_elem_of_list_to_map_2 in Hnone. apply Hnone.
  rewrite fmap_reverse, elem_of_reverse.
  apply list_elem_of_fmap. exists (py_replace "model." "" k, v). split; [done|].
  apply renamed_items_elem. eauto.
Qed.

Lemma new_state_dict_prefixed (state_dict : list (string * V)) :
  NoDup state_dict.*1 ->
  Forall (fun k => exists rest,
            k = "model." +:+ rest /\ py_contains "model." rest = false)
         state_dict.*1 ->
  forall (rest : string) (v : V),
    new_state_dict state_dict !! rest = Some v
    <-> ("model." +:+ rest, v) ∈ state_dict.
Proof.
  intros Hnodup Hkeys rest v. rewrite new_state_dict_list_to_map.
  rewrite Forall_forall in Hkeys.
  assert (forall k w, (k, w) ∈ state_dict ->
            exists r, k = "model." +:+ r /\ py_replace "model." "" k = r) as Hk.
  { intros k w Hin.
    destruct (Hkeys k) as (r & -> & Hr).
    - apply list_elem_of_fmap. by exists (k, w).
    - exists r. split; [done|]. by apply py_replace_model_prefix. }
  rewrite <- elem_of_list_to_map.
  - rewrite elem_of_reverse, renamed_items_elem. split.
    + intros (k & Hin & ->).
      destruct (Hk k v Hin) as (r & -> & Hr). by rewrite Hr.
    + intros Hin. exists ("model." +:+ rest). split; [done|].
      destruct (Hk _ _ Hin) as (r & Heq & Hr). rewrite Hr.
      by apply (inj (String.append "model.")) in Heq.
  - rewrite fmap_reverse, reverse_Permutation.
    assert (Hinj : forall x y : string * V,
              x ∈ state_dict -> y ∈ state_dict ->
              py_replace "model." "" x.1 = py_replace "model." "" y.1 -> x.1 = y.1).
    { intros [k1 w1] [k2 w2] H1 H2. simpl.
      destruct (Hk _ _ H1) as (r1 & -> & ->).
      destruct (Hk _ _ H2) as (r2 & -> & ->). by intros ->. }
    clear Hk Hkeys. unfold renamed_items.
    induction state_dict as [|[k w] sd IH]; [constructor|].
    simpl in *. apply NoDup_cons in Hnodup as [Hnotin Hnodup].
    apply NoDup_cons. split.
    + intros Hin. apply list_elem_of_fmap in Hin as ([k2' w2'] & Heq & Hin2).
      apply list_elem_of_fmap in Hin2 as ([k2 w2] & [= -> ->] & Hin2).
      simpl in Heq. apply Hnotin.
      assert (k = k2) as ->.
      { apply (Hinj (k, w) (k2, w2)); [left|by right|done]. }
      apply list_elem_of_fmap. by exists (k2, w2).
    + apply IH; [done|]. intros x y Hx Hy. apply Hinj; by right.
Qed.

End LoadPretrainedLemmas.

Lemma list_comp_lookup {B C} (f : B -> result C) (xs : list B) (ys : list C)
    (i : nat) (x : B) :
  list_comp f xs = Ok ys -> xs !! i = Some x ->
  exists y, ys !! i = Some y /\ f x = Ok y.
Proof.
  revert ys i. induction xs as [|x0 xs IH]; intros ys i Hc Hi; [done|].
  simpl in Hc. apply bind_Ok in Hc as (y0 & Hy0 & Hc).
  apply bind_Ok in Hc as (ys' & Hys' & [= <-]).
  destruct i as [|i]; simpl in *.
  - injection Hi as ->. eauto.
  - eauto.
Qed.

Lemma py_zip_lookup {B C} (xs : list B) (ys : list C) (i : nat) (x : B) (y : C) :
  xs !! i = Some x -> ys !! i = Some y -> py_zip xs ys !! i = Some (x, y).
Proof.
  revert ys i. induction xs as [|x0 xs IH]; intros [|y0 ys] [|i] Hx Hy;
    simpl in *; try done.
  - by simplify_eq.
  - by apply IH.
Qed.

(** One saved key shows the difference between the renaming of the code and
    the removal of a prefix. *)
Lemma replace_differs_from_prefix_removal :
  let state_dict := [("model.submodel.weight", 7)] in
  removeprefix "model." "model.submodel.weight" = "submodel.weight"
  /\ new_state_dict state_dict !! "submodel.weight" = None
  /\ new_state_dict state_dict !! "subweight" = Some 7.
Proof. repeat split; vm_compute; reflexivity. Qed.

(** C8, amended.  For each site network and checkpoint path, paired in
    order, [load_pretrained] gives the network the mapping obtained from the
    saved ['state_dict'] by deleting every occurrence of ["model."] in each
    key.  For a mapping whose keys all are ["model."] followed by a remainder
    free of ["model."], this is the mapping with exactly that prefix removed
    from every key. *)
Theorem load_pretrained_renames_keys {V : Type}
    (torch_load : string -> result (option (list (string * V))))
    (same_shape : V -> V -> bool)
    (site_networks site_networks' : list (gmap string V)) (paths : list string) :
  load_pretrained torch_load same_shape site_networks paths = Ok site_networks' ->
  forall (i : nat) (network : gmap string V) (path : string),
    site_networks !! i = Some network -> paths !! i = Some path ->
    exists state_dict : list (string * V),
      torch_load path = Ok (Some state_dict) /\
      site_networks' !! i = Some (new_state_dict state_dict) /\
      (forall k v, (k, v) ∈ state_dict ->
         is_Some (new_state_dict state_dict !! py_replace "model." "" k)) /\
      (forall k' v, new_state_dict state_dict !! k' = Some v ->
         exists k, (k, v) ∈ state_dict /\ k' = py_replace "model." "" k) /\
      (NoDup state_dict.*1 ->
       Forall (fun k => exists rest,
                 k = "model." +:+ rest /\ py_contains "model." rest = false)
              state_dict.*1 ->
       forall rest v,
         new_state_dict state_dict !! rest = Some v
         <-> ("model." +:+ rest, v) ∈ state_dict).
Proof.
  unfold load_pretrained. intros Hload i network path Hnet Hpath.
  apply bind_Ok in Hload as (loaded & Hloaded & [= <-]).
  destruct (list_comp_lookup _ _ _ i (network, path) Hloaded
              (py_zip_lookup _ _ _ _ _ Hnet Hpath)) as (st & Hst & Hf).
  simpl in Hf.
  apply bind_Ok in Hf as (checkpoint & Hck & Hf).
  apply bind_Ok in Hf as (state_dict & Hsd & Hf).
  destruct checkpoint as [sd|]; [|discriminate]. injection Hsd as ->.
  unfold load_state_dict in Hf.
  destruct (decide _); [|discriminate]. destruct (decide _); [|discriminate].
  injection Hf as <-.
  exists state_dict. split; [done|]. split; [|split; [|split]].
  - rewrite lookup_app_l; [done|]. by eapply lookup_lt_Some.
  - apply new_state_dict_lookup_is_Some.
  - apply new_state_dict_lookup_inv.
  - apply new_state_dict_prefixed.
Qed.

Lemma load_pretrained_renames_keys_witness :
  exists state_dict : list (string * Z),
    demo_torch_load "site0.ckpt" = Ok (Some state_dict) /\
    [new_state_dict [("model.final.0.weight", 1); ("model.final.0.bias", 2)]] !! 0%nat
      = Some (new_state_dict state_dict) /\
    (forall k v, (k, v) ∈ state_dict ->
       is_Some (new_state_dict state_dict !! py_replace "model." "" k)) /\
    (forall k' v, new_state_dict state_dict !! k' = Some v ->
       exists k, (k, v) ∈ state_dict /\ k' = py_replace "model." "" k) /\
    (NoDup state_dict.*1 ->
     Forall (fun k => exists rest,
               k = "model." +:+ rest /\ py_contains "model." rest = false)
            state_dict.*1 ->
     forall rest v,
       new_state_dict state_dict !! rest = Some v
       <-> ("model." +:+ rest, v) ∈ state_dict).
Proof.
  apply (load_pretrained_renames_keys demo_torch_load (fun _ _ => true)
           [demo_site_state] _ ["site0.ckpt"]
           ltac:(vm_compute; reflexivity) 0%nat demo_site_state "site0.ckpt").
  - reflexivity.
  - reflexivity.
Defined.

(** ** Freezing and unfreezing a site *)

Lemma site_position_valid (n : nat) (site_idx : Z) :
  - Z.of_nat n <= site_idx < Z.of_nat n ->
  exists i, site_position n site_idx = Ok i /\ (i < n)%nat /\
    Z.of_nat i = (if decide (site_idx < 0) then site_idx + Z.of_nat n else site_idx).
Proof.
  intros Hv. unfold site_position. rewrite decide_True by done.
  eexists. split; [done|]. destruct (decide (site_idx < 0)); lia.
Qed.

Section ParameterStore.
Context {V : Type}.

Lemma flag_parameters_other (flag : bool) (ids : list nat)
    (st : list (nn_Parameter V)) (id : nat) :
  id ∉ ids -> flag_parameters flag ids st !! id = st !! id.
Proof.
  unfold flag_parameters. revert st.
  induction ids as [|k ids IH]; intros st Hid; [done|].
  apply not_elem_of_cons in Hid as [Hne Hid]. simpl.
  rewrite IH by done. by apply list_lookup_alter_ne.
Qed.

Lemma flag_parameters_member (flag : bool) (ids : list nat)
    (st : list (nn_Parameter V)) (id : nat) :
  id ∈ ids ->
  flag_parameters flag ids st !! id = set_requires_grad flag <$> st !! id.
Proof.
  unfold flag_parameters. revert st.
  induction ids as [|k ids IH]; intros st Hid; [by apply elem_of_nil in Hid|].
  simpl. destruct (decide (id ∈ ids)) as [Hin|Hnotin].
  - rewrite IH by done. destruct (decide (k = id)) as [->|Hne].
    + rewrite list_lookup_alter_eq. by destruct (st !! id).
    + by rewrite list_lookup_alter_ne.
  - apply elem_of_cons in Hid as [->|?]; [|done].
    fold (flag_parameters flag ids (alter (set_requires_grad flag) k st)).
    rewrite flag_parameters_other by done. apply list_lookup_alter_eq.
Qed.

Lemma flag_parameters_data (flag : bool) (ids : list nat)
    (st : list (nn_Parameter V)) (id : nat) :
  p_data <$> flag_parameters flag ids st !! id = p_data <$> st !! id.
Proof.
  destruct (decide (id ∈ ids)).
  - rewrite flag_parameters_member by done. by destruct (st !! id).
  - by rewrite flag_parameters_other.
Qed.

Lemma flag_parameters_length (flag : bool) (ids : list nat)
    (st : list (nn_Parameter V)) :
  length (flag_parameters flag ids st) = length st.
Proof.
  unfold flag_parameters. revert st. induction ids as [|k ids IH]; intros st; [done|].
  simpl. by rewrite IH, length_alter.
Qed.

(** The identities of freshly created parameters lie beyond the store they
    were added to. *)
Lemma create_parameters_fresh (values : list V) (st : list (nn_Parameter V)) :
  forall id, id ∈ (create_parameters values st).1 ->
    (length st <= id < length (create_parameters values st).2)%nat.
Proof.
  intros id Hid. simpl in *. apply elem_of_seq in Hid.
  rewrite length_app, length_fmap. lia.
Qed.

(** The site loop of [init_parameters]: the identities handed out so far
    are below the size of the store, and no two sites share one. *)
Lemma init_sites_invariant (site_values : list (list V)) :
  forall (sites : list (list nat)) (st : list (nn_Parameter V)),
  (forall i a x, sites !! i = Some a -> x ∈ a -> (x < length st)%nat) ->
  (forall i j a b x, i <> j -> sites !! i = Some a -> sites !! j = Some b ->
     x ∈ a -> x ∉ b) ->
  let r := foldl (fun '(sites, st) values =>
                    let '(ids, st) := create_parameters values st in
                    (sites ++ [ids], st))
                 (sites, st) site_values in
  (forall i a x, r.1 !! i = Some a -> x ∈ a -> (x < length r.2)%nat) /\
  (forall i j a b x, i <> j -> r.1 !! i = Some a -> r.1 !! j = Some b ->
     x ∈ a -> x ∉ b).
Proof.
  induction site_values as [|values site_values IH]; intros sites st Hlt Hdisj;
    [by split|].
  cbn [foldl]. cbn [create_parameters]. apply IH.
  - intros i a x Ha Hx. rewrite length_app, length_fmap.
    apply lookup_app_Some in Ha as [Ha|[_ Ha]].
    + specialize (Hlt i a x Ha Hx). lia.
    + apply list_lookup_singleton_Some in Ha as [_ <-].
      apply elem_of_seq in Hx. lia.
  - intros i j a b x Hij Ha Hb Hxa Hxb.
    apply lookup_app_Some in Ha as [Ha|[Hi Ha]];
      apply lookup_app_Some in Hb as [Hb|[Hj Hb]].
    + by apply (Hdisj i j a b x).
    + apply list_lookup_singleton_Some in Hb as [_ <-].
      apply elem_of_seq in Hxb. specialize (Hlt i a x Ha Hxa). lia.
    + apply list_lookup_singleton_Some in Ha as [_ <-].
      apply elem_of_seq in Hxa. specialize (Hlt j b x Hb Hxb). lia.
    + apply list_lookup_singleton_Some in Ha as [Hi' _].
      apply list_lookup_singleton_Some in Hb as [Hj' _]. lia.
Qed.

(** The head loop: every identity handed out is at or beyond the size [n]
    the store had when the loop began. *)
Lemma init_heads_invariant (n : nat) (head_values : list (string * list V)) :
  forall (heads : gmap string (list nat)) (st : list (nn_Parameter V)),
  (n <= length st)%nat ->
  map_Forall (fun _ ids => forall x, x ∈ ids -> (n <= x)%nat) heads ->
  let r := foldl (fun '(heads, st) '(key, values) =>
                    let '(ids, st) := create_parameters values st in
                    (<[key := ids]> heads, st))
                 (heads, st) head_values in
  map_Forall (fun _ ids => forall x, x ∈ ids -> (n <= x)%nat) r.1.
Proof.
  induction head_values as [|[key values] head_values IH]; intros heads st Hn Hall;
    [done|].
  cbn [foldl]. cbn [create_parameters]. apply IH.
  - rewrite length_app. lia.
  - apply map_Forall_insert_2; [|done]. intros x Hx. apply elem_of_seq in Hx. lia.
Qed.

(** What [__init__] creates has separate ownership. *)
Lemma init_parameters_separate (site_values : list (list V))
    (attention_values : list V) (head_values : list (string * list V)) :
  separate_ownership (init_parameters site_values attention_values head_values).
Proof.
  unfold init_parameters.
  pose proof (init_sites_invariant site_values [] []) as Hsites.
  destruct (foldl _ ([], []) site_values) as [sites st1] eqn:Hs1.
  destruct Hsites as [Hlt Hdisj]; [done|done|]. simpl in Hlt, Hdisj.
  cbn [create_parameters].
  pose proof (init_heads_invariant (length st1) head_values ∅
                (st1 ++ ((fun v => {| p_data := v; requires_grad := true |})
                         <$> attention_values))) as Hheads.
  destruct (foldl _ (∅, _) head_values) as [heads st3] eqn:Hs3.
  simpl in Hheads.
  split; [|split]; simpl.
  - exact Hdisj.
  - intros i a x Ha Hx Hatt. apply elem_of_seq in Hatt.
    specialize (Hlt i a x Ha Hx). lia.
  - intros i a key h x Ha Hh Hx Hxh.
    specialize (Hlt i a x Ha Hx).
    assert (length st1 <= x)%nat; [|lia].
    eapply (Hheads ltac:(rewrite length_app; lia) ltac:(apply map_Forall_empty)
              key h Hh x Hxh).
Qed.

(** C10. In an orchestrator whose site networks share no parameter tensor
    with another module (as [__init__] builds it), for a valid site index
    [freeze_site] (flag [False]) and [unfreeze_site] (flag [True]) return;
    afterwards every parameter of that site's sub-network carries the flag,
    no parameter value has changed, and the parameters of every other site,
    of the fusion block and of the regression heads are as before, flags
    included. *)
Theorem freeze_unfreeze_site_frame (m : ModuleParameters V) (site_idx : Z) :
  separate_ownership m ->
  - Z.of_nat (length (site_parameters m)) <= site_idx
    < Z.of_nat (length (site_parameters m)) ->
  exists (i : nat) (ids : list nat),
    Z.of_nat i = (if decide (site_idx < 0)
                  then site_idx + Z.of_nat (length (site_parameters m))
                  else site_idx) /\
    site_parameters m !! i = Some ids /\
    forall (flag : bool),
    exists m' : ModuleParameters V,
      (if flag then unfreeze_site site_idx m else freeze_site site_idx m) = Ok m' /\
      site_parameters m' = site_parameters m /\
      cross_site_attention_parameters m' = cross_site_attention_parameters m /\
      ptt_regression_head_parameters m' = ptt_regression_head_parameters m /\
      length (store m') = length (store m) /\
      (forall id p, id ∈ ids -> store m' !! id = Some p -> requires_grad p = flag) /\
      (forall id, p_data <$> store m' !! id = p_data <$> store m !! id) /\
      (forall j ids_j id, j <> i -> site_parameters m !! j = Some ids_j ->
         id ∈ ids_j -> store m' !! id = store m !! id) /\
      (forall id, id ∈ cross_site_attention_parameters m ->
         store m' !! id = store m !! id) /\
      (forall key ids_h id, ptt_regression_head_parameters m !! key = Some ids_h ->
         id ∈ ids_h -> store m' !! id = store m !! id).
Proof.
  intros (Hsites & Hatt & Hheads) Hvalid.
  destruct (site_position_valid _ _ Hvalid) as (i & Hpos & Hi & Hidx).
  destruct (lookup_lt_is_Some_2 (site_parameters m) i Hi) as [ids Hids].
  exists i, ids. split; [done|]. split; [done|]. intros flag.
  assert (set_site_requires_grad flag site_idx m
          = Ok (with_store (flag_parameters flag ids (store m)) m)) as Hrun.
  { unfold set_site_requires_grad. rewrite Hpos. cbn [mbind result_bind].
    unfold py_nth. by rewrite Hids. }
  eexists. split.
  { unfold unfreeze_site, freeze_site. destruct flag; exact Hrun. }
  unfold with_store. cbn [store site_parameters cross_site_attention_parameters
                          ptt_regression_head_parameters].
  repeat split.
  - apply flag_parameters_length.
  - intros id p Hid Hp. rewrite flag_parameters_member in Hp by done.
    destruct (store m !! id); simpl in Hp; [|done]. by injection Hp as <-.
  - apply flag_parameters_data.
  - intros j ids_j id Hj Hidsj Hid. apply flag_parameters_other.
    intros Hin. by apply (Hsites i j ids ids_j id).
  - intros id Hid. apply flag_parameters_other.
    intros Hin. by apply (Hatt i ids id).
  - intros key ids_h id Hh Hid. apply flag_parameters_other.
    intros Hin. by apply (Hheads i ids key ids_h id).
Qed.

End ParameterStore.

Lemma freeze_unfreeze_site_frame_witness :
  exists (i : nat) (ids : list nat),
    Z.of_nat i = (if decide (-2 < 0)
                  then -2 + Z.of_nat (length (site_parameters demo_parameters))
                  else -2) /\
    site_parameters demo_parameters !! i = Some ids /\
    forall (flag : bool),
    exists m' : ModuleParameters Z,
      (if flag then unfreeze_site (-2) demo_parameters
       else freeze_site (-2) demo_parameters) = Ok m' /\
      site_parameters m' = site_parameters demo_parameters /\
      cross_site_attention_parameters m'
        = cross_site_attention_parameters demo_parameters /\
      ptt_regression_head_parameters m'
        = ptt_regression_head_parameters demo_parameters /\
      length (store m') = length (store demo_parameters) /\
      (forall id p, id ∈ ids -> store m' !! id = Some p -> requires_grad p = flag) /\
      (forall id, p_data <$> store m' !! id = p_data <$> store demo_parameters !! id) /\
      (forall j ids_j id, j <> i -> site_parameters demo_parameters !! j = Some ids_j ->
         id ∈ ids_j -> store m' !! id = store demo_parameters !! id) /\
      (forall id, id ∈ cross_site_attention_parameters demo_parameters ->
         store m' !! id = store demo_parameters !! id) /\
      (forall key ids_h id,
         ptt_regression_head_parameters demo_parameters !! key = Some ids_h ->
         id ∈ ids_h -> store m' !! id = store demo_parameters !! id).
Proof.
  apply (freeze_unfreeze_site_frame demo_parameters (-2)).
  - apply init_parameters_separate.
  - simpl. lia.
Defined.

Example freeze_site_run :
  store <$> freeze_site 0 demo_parameters
  = Ok [ {| p_data := 11; requires_grad := false |};
         {| p_data := 12; requires_grad := false |};
         {| p_data := 21; requires_grad := true |};
         {| p_data := 31; requires_grad := true |};
         {| p_data := 41; requires_grad := true |};
         {| p_data := 51; requires_grad := true |} ]
  /\ site_parameters demo_parameters = [[0; 1]; [2]; [3]]%nat
  /\ freeze_site 3 demo_parameters = Raise (IndexError "index is out of range").
Proof. repeat split; reflexivity. Qed.


(** ** Normalisation of the loaded arrays *)

Section Statistics.
Local Open Scope R_scope.

Lemma sum_list_cons (x : R) (l : list R) : sum_list (x :: l) = x + sum_list l.
Proof. reflexivity. Qed.

Lemma sum_list_affine (m s : R) (l : list R) :
  sum_list ((fun x => (x - m) / s) <$> l) = (sum_list l - INR (length l) * m) / s.
Proof.
  induction l as [|x l IH].
  - simpl. unfold Rdiv. ring.
  - rewrite fmap_cons, !sum_list_cons, IH. cbn [length]. rewrite S_INR.
    unfold Rdiv. ring.
Qed.

Lemma sum_list_scale (c : R) (f : R -> R) (l : list R) :
  sum_list ((fun x => c * f x) <$> l) = c * sum_list (f <$> l).
Proof.
  induction l as [|x l IH]; [simpl; ring|].
  rewrite !fmap_cons, !sum_list_cons, IH. ring.
Qed.

Lemma sum_list_squares_nonneg (m : R) (l : list R) :
  0 <= sum_list ((fun x => (x - m) * (x - m)) <$> l).
Proof.
  induction l as [|x l IH]; [simpl; lra|].
  rewrite fmap_cons, sum_list_cons. cbn beta.
  pose proof (Rle_0_sqr (x - m)) as Hsq. unfold Rsqr in Hsq. lra.
Qed.

Lemma np_var_nonneg (l : list R) : 0 <= np_var l.
Proof.
  unfold np_var, np_mean at 1. rewrite length_fmap.
  destruct l as [|x l].
  - simpl. unfold Rdiv. rewrite Rinv_0. lra.
  - apply Rmult_le_pos; [apply sum_list_squares_nonneg|].
    apply Rlt_le, Rinv_0_lt_compat, lt_0_INR. simpl. lia.
Qed.

(** A non-empty vector, centred on its mean and divided by its standard
    deviation, has zero mean; when that deviation is not zero it has unit
    variance. *)
Lemma standardize_vector (l : list R) :
  l <> [] -> np_std l <> 0 ->
  standardized ((fun x => (x - np_mean l) / np_std l) <$> l).
Proof.
  intros Hne Hstd.
  assert (INR (length l) <> 0) as Hn.
  { apply not_0_INR. destruct l; [done|simpl; lia]. }
  assert (np_mean ((fun x => (x - np_mean l) / np_std l) <$> l) = 0) as Hmean.
  { unfold np_mean at 1. rewrite sum_list_affine, length_fmap.
    unfold np_mean. field. split; assumption. }
  split; [exact Hmean|].
  unfold np_var. rewrite Hmean. rewrite <- list_fmap_compose.
  unfold np_mean at 1. rewrite length_fmap.
  rewrite (list_fmap_ext _
    (fun x => / (np_std l * np_std l) * ((x - np_mean l) * (x - np_mean l))) l);
    [|intros i x _; simpl; field; assumption].
  rewrite (sum_list_scale _ (fun x => (x - np_mean l) * (x - np_mean l))).
  assert (np_std l * np_std l = np_var l) as Hsq.
  { unfold np_std. apply sqrt_sqrt, np_var_nonneg. }
  rewrite Hsq. unfold np_var at 1, np_mean at 1. rewrite length_fmap.
  assert (np_var l <> 0) as Hv.
  { intros Hz. apply Hstd. unfold np_std. rewrite Hz. apply sqrt_0. }
  unfold np_var, np_mean at 1 in Hv. rewrite length_fmap in Hv.
  field. split; [exact Hn|].
  intros Hz. apply Hv. rewrite Hz. unfold Rdiv. ring.
Qed.

End Statistics.

Section Broadcasting.
Local Open Scope R_scope.

Lemma broadcast_fmap2 {W X Y Z} (f : X -> Y -> Z) (h : W -> X) (g : W -> Y)
    (ws : list W) :
  broadcast f (h <$> ws) (g <$> ws) = (fun w => f (h w) (g w)) <$> ws.
Proof.
  destruct ws as [|w1 [|w2 ws]]; [done|done|].
  unfold broadcast. rewrite !fmap_cons.
  change (zip_with f (h <$> w1 :: w2 :: ws) (g <$> w1 :: w2 :: ws)
          = (fun w => f (h w) (g w)) <$> w1 :: w2 :: ws).
  generalize (w1 :: w2 :: ws). intros l.
  induction l as [|w l IH]; [done|]. rewrite !fmap_cons. simpl. by rewrite IH.
Qed.

Lemma broadcast_same_length {X Y Z} (f : X -> Y -> Z) (xs : list X) (ys : list Y) :
  length xs = length ys -> broadcast f xs ys = zip_with f xs ys.
Proof.
  intros Hlen. destruct ys as [|y [|y' ys]]; [done| |done].
  destruct xs as [|x [|x' xs]]; simpl in *; try lia. done.
Qed.

Lemma zip_with_zip_with {X Y Z W} (f : X -> Y -> Z) (g : Z -> W -> R)
    (xs : list X) (ys : list Y) (ws : list W) :
  zip_with g (zip_with f xs ys) ws
  = zip_with (fun x yw => g (f x yw.1) yw.2) xs (zip ys ws).
Proof.
  revert ys ws. induction xs as [|x xs IH]; intros [|y ys] [|w ws]; simpl;
    try done. by rewrite IH.
Qed.

Lemma zip_with_cons_columns {X S} (g : X -> S -> R) (r : list X)
    (cs : list (list X)) (stats : list S) :
  zip_with cons (zip_with g r stats)
    (zip_with (fun col st => (fun x => g x st) <$> col) cs stats)
  = zip_with (fun col st => (fun x => g x st) <$> col) (zip_with cons r cs) stats.
Proof.
  revert cs stats. induction r as [|x r IH]; intros [|c cs] [|st stats]; simpl;
    try done. by rewrite IH.
Qed.

(** Columns of a matrix whose rows were combined entry by entry with one
    statistic per column. *)
Lemma transpose_rowwise {X S} (g : X -> S -> R) (M : list (list X)) (stats : list S) :
  transpose ((fun row => zip_with g row stats) <$> M)
  = zip_with (fun col st => (fun x => g x st) <$> col) (transpose M) stats.
Proof.
  induction M as [|r M IH]; [done|].
  destruct M as [|r' M].
  - simpl. clear IH. revert stats.
    induction r as [|x r IHr]; intros [|st stats]; simpl; try done.
    by rewrite IHr.
  - rewrite fmap_cons.
    change (transpose (zip_with g r stats :: ((fun row => zip_with g row stats) <$> r' :: M)))
      with (zip_with cons (zip_with g r stats)
              (transpose ((fun row => zip_with g row stats) <$> r' :: M))).
    rewrite IH.
    change (transpose (r :: r' :: M)) with (zip_with cons r (transpose (r' :: M))).
    apply zip_with_cons_columns.
Qed.

Lemma zip_with_fmap_diag {X S Z} (F : X -> S -> Z) (k : X -> S) (xs : list X) :
  zip_with F xs (k <$> xs) = (fun x => F x (k x)) <$> xs.
Proof. induction xs as [|x xs IH]; [done|]. rewrite !fmap_cons. simpl. by rewrite IH. Qed.

Lemma zip_fmap_diag {X Y Z} (f : X -> Y) (g : X -> Z) (xs : list X) :
  zip (f <$> xs) (g <$> xs) = (fun x => (f x, g x)) <$> xs.
Proof. induction xs as [|x xs IH]; [done|]. rewrite !fmap_cons. simpl. by rewrite IH. Qed.

Lemma broadcast_fmap_r {X Y Z} (f : X -> Y -> Z) (g : X -> Y) (xs : list X) :
  broadcast f xs (g <$> xs) = (fun x => f x (g x)) <$> xs.
Proof.
  destruct xs as [|x1 [|x2 xs]]; [done|done|].
  unfold broadcast. rewrite !fmap_cons.
  change (zip_with f (x1 :: x2 :: xs) (g <$> x1 :: x2 :: xs)
          = (fun x => f x (g x)) <$> x1 :: x2 :: xs).
  apply zip_with_fmap_diag.
Qed.

Lemma normalize_per_channel_samples (data : list (list (list R))) :
  normalize_per_channel data = normalize_sample_per_channel <$> data.
Proof.
  unfold normalize_per_channel.
  rewrite (broadcast_fmap_r (broadcast (broadcast Rminus)) (reduce_time np_mean)).
  by rewrite (broadcast_fmap2 (broadcast (broadcast Rdiv))
                (fun M => broadcast (broadcast Rminus) M (reduce_time np_mean M))
                (reduce_time np_std)).
Qed.

Lemma normalize_global_samples (data : list (list (list R))) :
  normalize_global data = normalize_sample_global <$> data.
Proof.
  unfold normalize_global.
  rewrite (broadcast_fmap_r (broadcast (broadcast Rminus))
             (reduce_time_channel np_mean)).
  by rewrite (broadcast_fmap2 (broadcast (broadcast Rdiv))
                (fun M => broadcast (broadcast Rminus) M
                            (reduce_time_channel np_mean M))
                (reduce_time_channel np_std)).
Qed.

(** Per-channel normalisation of one sample, read column by column: every
    channel is centred on its own mean and divided by its own standard
    deviation. *)
Lemma normalize_sample_per_channel_columns (rows cols : nat) (M : list (list R)) :
  (0 < rows)%nat -> is_matrix rows cols M ->
  transpose (normalize_sample_per_channel M)
  = (fun col => (fun x => (x - np_mean col) / np_std col) <$> col) <$> transpose M.
Proof.
  intros Hrows HM.
  destruct (transpose_is_matrix rows cols M Hrows HM) as [Hlen _].
  destruct HM as [_ Hrow].
  set (stats := (fun col => (np_mean col, np_std col)) <$> transpose M).
  assert (normalize_sample_per_channel M
          = (fun row => zip_with (fun x st => (x - st.1) / st.2) row stats) <$> M)
    as ->.
  { unfold normalize_sample_per_channel, reduce_time. cbn [broadcast].
    rewrite <- list_fmap_compose. apply list_fmap_ext.
    intros i row Hi. simpl.
    assert (length row = cols) as Hr.
    { rewrite Forall_forall in Hrow. apply Hrow. by eapply list_elem_of_lookup_2. }
    rewrite (broadcast_same_length Rminus) by (by rewrite length_fmap, Hlen).
    rewrite (broadcast_same_length Rdiv)
      by (by rewrite length_zip_with, !length_fmap, Hlen, Hr, Nat.min_id).
    rewrite zip_with_zip_with. f_equal. unfold stats.
    by rewrite zip_fmap_diag. }
  rewrite transpose_rowwise. unfold stats. by rewrite zip_with_fmap_diag.
Qed.

(** Global normalisation of one sample: every entry is centred on the mean
    of all entries and divided by their standard deviation. *)
Lemma normalize_sample_global_entries (M : list (list R)) :
  concat (normalize_sample_global M)
  = (fun x => (x - np_mean (concat M)) / np_std (concat M)) <$> concat M.
Proof.
  unfold normalize_sample_global, reduce_time_channel. cbn [broadcast].
  rewrite <- list_fmap_compose.
  generalize (np_mean (concat M)) (np_std (concat M)). intros m s.
  induction M as [|row M IH]; [done|].
  rewrite fmap_cons. cbn [concat]. rewrite fmap_app, IH. f_equal.
  simpl. rewrite <- list_fmap_compose. by apply list_fmap_ext.
Qed.

(** The normalised sample has zero mean and unit variance along the axes
    its statistics were taken over, provided the standard deviations it was
    divided by are not zero. *)
Lemma normalize_sample_per_channel_standardized (rows cols : nat) (M : list (list R)) :
  (0 < rows)%nat -> is_matrix rows cols M ->
  Forall (fun col => np_std col <> 0) (transpose M) ->
  standardized_per_channel (normalize_sample_per_channel M).
Proof.
  intros Hrows HM Hstd. unfold standardized_per_channel.
  rewrite (normalize_sample_per_channel_columns rows cols) by done.
  destruct (transpose_is_matrix rows cols M Hrows HM) as [_ Hcols].
  apply Forall_fmap. rewrite Forall_forall in Hstd, Hcols |- *.
  intros col Hcol. simpl. apply standardize_vector; [|by apply Hstd].
  specialize (Hcols col Hcol). simpl in Hcols. destruct col; [simpl in *; lia|done].
Qed.

Lemma normalize_sample_global_standardized (M : list (list R)) :
  concat M <> [] -> np_std (concat M) <> 0 ->
  standardized_globally (normalize_sample_global M).
Proof.
  intros Hne Hstd. unfold standardized_globally.
  rewrite normalize_sample_global_entries. by apply standardize_vector.
Qed.

End Broadcasting.

Section DemoStatistics.
Local Open Scope R_scope.

Lemma demo_channel_statistics :
  np_mean [0; 2] = 1 /\ np_std [0; 2] = 1 /\
  np_mean [0; 0; 2; 4] = 3 / 2 /\ np_std [0; 0; 2; 4] * np_std [0; 0; 2; 4] = 11 / 4.
Proof.
  assert (np_mean [0; 2] = 1) as Hm1 by (unfold np_mean; simpl; lra).
  assert (np_mean [0; 0; 2; 4] = 3 / 2) as Hm2 by (unfold np_mean; simpl; lra).
  split; [done|]. split; [|split; [done|]].
  - unfold np_std, np_var. rewrite Hm1.
    replace (np_mean _) with 1 by (unfold np_mean; simpl; lra). apply sqrt_1.
  - unfold np_std. rewrite sqrt_sqrt by apply np_var_nonneg.
    unfold np_var. rewrite Hm2. unfold np_mean. simpl. lra.
Qed.

End DemoStatistics.

(** ** Site order in the fusion block *)

Lemma chunks_concat {X} (n len : nat) (Y : list (list X)) :
  length Y = n -> Forall (fun r => length r = len) Y ->
  chunks n len (concat Y) = Y.
Proof.
  intros <- Hall. induction Hall as [|r Y Hr _ IH]; [done|].
  simpl. rewrite take_app_length' by done.
  rewrite drop_app_length' by done. by rewrite IH.
Qed.

Lemma fmap_concat {X Y} (f : X -> Y) (ls : list (list X)) :
  f <$> concat ls = concat ((fun l : list X => f <$> l) <$> ls).
Proof.
  induction ls as [|l ls IH]; [done|]. simpl. by rewrite fmap_app, IH.
Qed.

Lemma zip_with_fmap_l_diag {X Y Z} (F : Y -> X -> Z) (g : X -> Y) (xs : list X) :
  zip_with F (g <$> xs) xs = (fun x => F (g x) x) <$> xs.
Proof. induction xs as [|x xs IH]; [done|]. rewrite !fmap_cons. simpl. by rewrite IH. Qed.

Lemma fmap_seq_lookup {X Y} (f : X -> Y) (d : Y) (r : list X) :
  (fun i => match r !! i with Some x => f x | None => d end) <$> seq 0 (length r)
  = f <$> r.
Proof.
  induction r as [|x r IH]; [done|].
  cbn [length seq]. rewrite !fmap_cons. f_equal.
  rewrite <- IH, <- fmap_S_seq, <- list_fmap_compose. by apply list_fmap_ext.
Qed.

Lemma columns_transpose {X} (rows cols : nat) (M : list (list X)) :
  (0 < rows)%nat -> is_matrix rows cols M ->
  (fun i => column i M) <$> seq 0 cols = transpose M.
Proof.
  revert rows. induction M as [|r M IH]; intros rows Hrows [Hlen Hall].
  - simpl in Hlen. lia.
  - apply Forall_cons in Hall as [Hr Hall].
    assert (forall (c : list (list X)),
              length c = cols ->
              (fun i => match r !! i with
                        | Some x => x :: default [] (c !! i)
                        | None => default [] (c !! i)
                        end) <$> seq 0 cols
              = zip_with cons r c) as Hzip.
    { clear -Hr. intros c Hc. revert r c Hr Hc.
      induction cols as [|cols IHc]; intros [|x r] [|c0 c] Hr Hc;
        simpl in *; try discriminate; [done|].
      f_equal. rewrite <- (IHc r c) by lia.
      rewrite <- fmap_S_seq, <- list_fmap_compose. by apply list_fmap_ext. }
    destruct M as [|r' M].
    + subst cols. cbn [transpose].
      rewrite <- (fmap_seq_lookup (fun x : X => [x]) [] r).
      apply list_fmap_ext. intros k i _. unfold column. cbn [omap list_omap].
      by destruct (r !! i).
    + change (transpose (r :: r' :: M)) with (zip_with cons r (transpose (r' :: M))).
      rewrite <- (IH (length (r' :: M)) ltac:(simpl; lia) (conj eq_refl Hall)).
      rewrite <- Hzip by (by rewrite length_fmap, length_seq).
      apply list_fmap_ext. intros k i Hk. apply lookup_seq in Hk as [Hi Hk].
      simpl in Hi. subst i.
      unfold column at 1. cbn [omap list_omap].
      rewrite list_lookup_fmap, lookup_seq_lt by done. simpl.
      destruct (lookup_lt_is_Some_2 r k ltac:(lia)) as [x ->]. done.
Qed.

Section FusionValuesLemmas.
Context {V : Type}.
Variable site_attention_v : list V -> list V.
Variable temporal_attention_v : list V -> list V.
Variable vadd : V -> V -> V.
Variable norm1_v : V -> V.
Variable norm2_v : V -> V.
Hypothesis site_attention_length : forall s, length (site_attention_v s) = length s.
Hypothesis temporal_attention_length :
  forall s, length (temporal_attention_v s) = length s.

Lemma attention_block_mix (attention : list V -> list V) (norm : V -> V)
    (x : list (list V)) :
  attention_block vadd attention norm x = mix vadd attention norm <$> x.
Proof.
  unfold attention_block.
  exact (zip_with_fmap_l_diag (zip_with (fun a v => norm (vadd a v))) attention x).
Qed.

Lemma mix_length (attention : list V -> list V) (norm : V -> V) (s : list V) :
  length (attention s) = length s -> length (mix vadd attention norm s) = length s.
Proof. intros Hlen. unfold mix. rewrite length_zip_with. lia. Qed.

Lemma fuse_sample_is_matrix (S L : nat) (sample : list (list V)) :
  (0 < S)%nat -> (0 < L)%nat -> is_matrix S L sample ->
  is_matrix S L
    (fuse_sample site_attention_v temporal_attention_v vadd norm1_v norm2_v sample).
Proof using site_attention_length temporal_attention_length.
  intros HS HL Hsample. unfold fuse_sample.
  pose proof (transpose_is_matrix S L sample HS Hsample) as [Hlen Hrows].
  assert (is_matrix L S (mix vadd site_attention_v norm1_v <$> transpose sample))
    as Hmixed.
  { split; [by rewrite length_fmap|]. apply Forall_fmap.
    eapply Forall_impl; [exact Hrows|]. intros s Hs. simpl in *.
    by rewrite mix_length. }
  pose proof (transpose_is_matrix L S _ HL Hmixed) as [Hlen' Hrows'].
  split; [by rewrite length_fmap|]. apply Forall_fmap.
  eapply Forall_impl; [exact Hrows'|]. intros s Hs. simpl in *.
  by rewrite mix_length.
Qed.

(** The reshapes and transpositions of [forward] put every site back in its
    place: the result is the site-by-site fusion, entry [s] holding site
    [s]. *)
Lemma CrossSiteTemporalAttention_forward_v_sites (S N L : nat)
    (site_features : list (list (list V))) :
  (0 < S)%nat -> (0 < N)%nat -> (0 < L)%nat ->
  length site_features = S ->
  Forall (is_matrix N L) site_features ->
  CrossSiteTemporalAttention_forward_v site_attention_v temporal_attention_v
    vadd norm1_v norm2_v site_features
  = fuse_sites site_attention_v temporal_attention_v vadd norm1_v norm2_v site_features
  /\ length (fuse_sites site_attention_v temporal_attention_v vadd norm1_v norm2_v
               site_features) = S
  /\ Forall (is_matrix N L)
       (fuse_sites site_attention_v temporal_attention_v vadd norm1_v norm2_v
          site_features).
Proof using site_attention_length temporal_attention_length.
  intros HS HN HL Hlen Hall.
  set (stacked := transpose site_features).
  assert (is_matrix N S stacked) as [HlenN HrowsS].
  { apply transpose_is_matrix; [done|]. split; [done|].
    eapply Forall_impl; [exact Hall|]. by intros M [? _]. }
  assert (Forall (Forall (fun row => length row = L)) stacked) as Hentries.
  { apply transpose_Forall. eapply Forall_impl; [exact Hall|]. by intros M [_ ?]. }
  assert (Forall (is_matrix S L) stacked) as Hsamples.
  { apply Forall_forall. intros sample Hs. split.
    - rewrite Forall_forall in HrowsS. by apply HrowsS.
    - rewrite Forall_forall in Hentries. by apply Hentries. }
  assert (Forall (is_matrix S L)
            (fuse_sample site_attention_v temporal_attention_v vadd norm1_v norm2_v
             <$> stacked)) as Hfused.
  { apply Forall_fmap. eapply Forall_impl; [exact Hsamples|].
    intros sample Hs. by apply fuse_sample_is_matrix. }
  assert (is_matrix N S
            (fuse_sample site_attention_v temporal_attention_v vadd norm1_v norm2_v
             <$> stacked)) as Hout.
  { split; [by rewrite length_fmap|].
    eapply Forall_impl; [exact Hfused|]. by intros M [? _]. }
  split; [|split].
  - unfold CrossSiteTemporalAttention_forward_v, fuse_sites. fold stacked.
    assert (extent1 stacked = S) as ->.
    { destruct stacked as [|s0 st]; [simpl in HlenN; lia|].
      apply Forall_cons in HrowsS as [? _]. done. }
    assert (extent1 (hd [] stacked) = L) as ->.
    { destruct stacked as [|s0 st]; [simpl in HlenN; lia|].
      apply Forall_cons in Hsamples as [[Hs0 Hr0] _]. simpl.
      destruct s0 as [|r s0]; [simpl in Hs0; lia|].
      apply Forall_cons in Hr0 as [? _]. done. }
    rewrite HlenN.
    rewrite (attention_block_mix site_attention_v norm1_v), fmap_concat.
    rewrite (chunks_concat N L).
    2:{ by rewrite !length_fmap. }
    2:{ apply Forall_fmap, Forall_fmap. eapply Forall_impl; [exact Hsamples|].
        intros sample Hs. simpl. rewrite length_fmap.
        by destruct (transpose_is_matrix S L sample HS Hs). }
    rewrite (attention_block_mix temporal_attention_v norm2_v), fmap_concat.
    rewrite <- !list_fmap_compose.
    match goal with
    | |- context [concat (?F <$> stacked)] =>
        change F with
          (fuse_sample site_attention_v temporal_attention_v vadd norm1_v norm2_v)
    end.
    rewrite (chunks_concat N S).
    2:{ by rewrite !length_fmap. }
    2:{ by destruct Hout. }
    by apply (columns_transpose N S).
  - unfold fuse_sites. fold stacked.
    by destruct (transpose_is_matrix N S _ HN Hout).
  - unfold fuse_sites. fold stacked.
    apply Forall_forall. intros M HM. split.
    + destruct (transpose_is_matrix N S _ HN Hout) as [_ Hcols].
      rewrite Forall_forall in Hcols. by apply Hcols.
    + assert (Forall (Forall (fun row : list V => length row = L))
                (transpose (fuse_sample site_attention_v temporal_attention_v vadd
                              norm1_v norm2_v <$> stacked))) as Hrows.
      { apply transpose_Forall. eapply Forall_impl; [exact Hfused|].
        by intros ? [_ ?]. }
      rewrite Forall_forall in Hrows. by apply Hrows.
Qed.

End FusionValuesLemmas.

(** ** Shapes through [network.py] *)

(** X1. [SpatialReductionPreprocessing.forward] maps [(N, C, T)] to
    [(N, k, T)] when [1 <= k <= C] and raises otherwise: the reduced width
    cannot exceed the spatial extent of the input.  The [in_channels] given
    to the constructor plays no part. *)
Theorem spatial_reduction_shape (training : bool) (cin k N C T : Z) :
  0 < N -> 0 < C -> 2 <= T ->
  (1 <= k <= C ->
     SpatialReductionPreprocessing_forward training
       (SpatialReductionPreprocessing_init cin k) [N; C; T] = Ok [N; k; T]) /\
  (~ 1 <= k <= C ->
     exists e, SpatialReductionPreprocessing_forward training
       (SpatialReductionPreprocessing_init cin k) [N; C; T] = Raise e).
Proof.
  intros HN _ HT. split.
  - intros Hk. by apply SpatialReductionPreprocessing_forward_ok.
  - intros Hk.
    destruct (SpatialReductionPreprocessing_forward _ _ _) as [r|e] eqn:Hfwd; [|eauto].
    apply SpatialReductionPreprocessing_forward_inv in Hfwd
      as (N' & C' & T' & [= -> -> ->] & _ & Hk'). done.
Qed.

Lemma spatial_reduction_shape_witness :
  SpatialReductionPreprocessing_forward true
    (SpatialReductionPreprocessing_init 40 8) [32; 40; 5000] = Ok [32; 8; 5000]
  /\ exists e, SpatialReductionPreprocessing_forward true
       (SpatialReductionPreprocessing_init 4 8) [32; 4; 5000] = Raise e.
Proof.
  split.
  - apply (spatial_reduction_shape true 40 8 32 40 5000); lia.
  - apply (spatial_reduction_shape true 4 8 32 4 5000); lia.
Defined.

(** X2. For an odd kernel size, [EncoderBlock.forward] returns exactly on
    inputs [(N, cin, T)] with [T >= 2]; the features keep the time extent
    [T] and the pooled tensor has [T // 2] (an odd [T] loses its last
    step). *)
Theorem EncoderBlock_forward_shape (training : bool) (ks cin cout N c T : Z)
    (pooled features : shape) :
  Z.odd ks = true -> 0 < ks -> 0 < cin -> 0 < cout -> 0 < N ->
  EncoderBlock_forward training (EncoderBlock_init cin cout ks) [N; c; T]
    = Ok (pooled, features)
  <-> c = cin /\ 2 <= T /\ pooled = [N; cout; T `div` 2] /\ features = [N; cout; T].
Proof.
  intros Hodd Hks _ _ HN. split.
  - by apply EncoderBlock_forward_inv.
  - intros (-> & HT & -> & ->). by apply EncoderBlock_forward_ok.
Qed.

Lemma EncoderBlock_forward_shape_witness :
  EncoderBlock_forward true (EncoderBlock_init 8 64 5) [16; 8; 5001]
    = Ok ([16; 64; 2500], [16; 64; 5001]).
Proof.
  apply (EncoderBlock_forward_shape true 5 8 64 16 8 5001); try reflexivity.
  repeat split; lia.
Defined.

(** X3. For an even kernel size the padding [kernel_size // 2] is one too
    many: each of the two convolutions lengthens the time axis by one, so
    the features have extent [T + 2]. *)
Theorem EncoderBlock_forward_even_kernel (training : bool) (ks cin cout N T : Z) :
  Z.even ks = true -> 0 < ks -> 0 < cin -> 0 < cout -> 0 < N -> 1 <= T ->
  EncoderBlock_forward training (EncoderBlock_init cin cout ks) [N; cin; T]
  = Ok ([N; cout; (T + 2) `div` 2], [N; cout; T + 2]).
Proof.
  intros Heven Hks _ _ HN HT.
  assert (2 * (ks `div` 2) = ks) as Hh.
  { pose proof (Z.div_mod ks 2 ltac:(lia)) as Hdm.
    rewrite Zmod_even, Heven in Hdm. lia. }
  unfold EncoderBlock_forward, EncoderBlock_init, Sequential_forward.
  shape_cases; try (exfalso; nia); try lia.
  all: replace (T + 2 * (ks `div` 2) - ks + 1 + 2 * (ks `div` 2) - ks + 1)
         with (T + 2) by lia.
  all: by rewrite pool_half.
Qed.

Lemma EncoderBlock_forward_even_kernel_witness :
  EncoderBlock_forward true (EncoderBlock_init 8 64 4) [16; 8; 8]
  = Ok ([16; 64; (8 + 2) `div` 2], [16; 64; 8 + 2]).
Proof.
  apply (EncoderBlock_forward_even_kernel true 4 8 64 16 8); [reflexivity|lia..].
Defined.

(** X4. For an odd kernel size, [DecoderBlock.forward] on an input
    [(N, cin, L)] returns exactly when the skip tensor is [(N, cin, 2L)],
    and the result is [(N, cout, 2L)]; any other skip raises. *)
Theorem DecoderBlock_forward_shape (training : bool) (ks cin cout N L : Z)
    (skip r : shape) :
  Z.odd ks = true -> 0 < ks -> 0 < cin -> 0 < cout -> 0 < N -> 1 <= L ->
  DecoderBlock_forward training (DecoderBlock_init cin cout ks) [N; cin; L] skip = Ok r
  <-> skip = [N; cin; 2 * L] /\ r = [N; cout; 2 * L].
Proof.
  intros Hodd Hks _ _ HN HL. split.
  - intros Hfwd. by apply (DecoderBlock_forward_inv training ks Hodd) in Hfwd as (_ & ? & ?).
  - intros [-> ->]. by apply DecoderBlock_forward_ok.
Qed.

Lemma DecoderBlock_forward_shape_witness :
  DecoderBlock_forward true (DecoderBlock_init 256 128 5) [16; 256; 625] [16; 256; 1250]
  = Ok [16; 128; 1250].
Proof.
  apply (DecoderBlock_forward_shape true 5 256 128 16 625); try reflexivity; try lia.
  split; reflexivity.
Defined.

Lemma enc_chain_length (ks C : Z) (hs : list Z) :
  length (enc_chain ks C hs) = length hs.
Proof. revert C. induction hs as [|h hs IH]; intros C; simpl; [done|]. by rewrite IH. Qed.

(** X5. For arguments the layer constructors accept,
    [PulseDetectionNet.__init__] fails in one case only, the [IndexError] of
    [hidden_channels[-1]] when the LSTM is requested with an empty channel
    schedule; otherwise it builds one encoder and one decoder block per
    entry of [hidden_channels] and stores [seq_len] unchecked. *)
Theorem PulseDetectionNet_init_outcome (a : PulseDetectionNet_args) :
  sensible_args a ->
  match PulseDetectionNet_init a with
  | Ok m =>
      (arg_use_lstm a = true -> hidden_channels a <> []) /\
      length (encoder_blocks m) = length (hidden_channels a) /\
      length (decoder_blocks m) = length (hidden_channels a) /\
      seq_len m = arg_seq_len a
  | Raise e =>
      e = IndexError "list index out of range" /\
      arg_use_lstm a = true /\ hidden_channels a = []
  end.
Proof.
  intros _.
  destruct (PulseDetectionNet_init a) as [m|e] eqn:Hinit.
  - apply PulseDetectionNet_init_inv in Hinit
      as (Hseq & _ & _ & Henc & Hdec & _ & Hl).
    split; [|split; [|split]].
    + intros Hlstm Hnil. rewrite Hlstm in Hl. rewrite Hnil in Hl.
      by destruct Hl as (l & _ & ? & _).
    + rewrite Henc. apply enc_chain_length.
    + rewrite Hdec. apply decoders_length.
    + done.
  - unfold PulseDetectionNet_init in Hinit.
    rewrite init_encoders_spec in Hinit.
    destruct (arg_use_lstm a); simpl in Hinit.
    + unfold py_last in Hinit.
      destruct (last (hidden_channels a)) as [lc|] eqn:Hlast; simpl in Hinit.
      * rewrite init_decoders_spec in Hinit. discriminate.
      * injection Hinit as <-. apply last_None in Hlast. done.
    + rewrite init_decoders_spec in Hinit. discriminate.
Qed.

Lemma PulseDetectionNet_init_outcome_witness :
  match PulseDetectionNet_init (default_args 40 5001) with
  | Ok m =>
      (true = true -> [64; 128; 256] <> []) /\
      length (encoder_blocks m) = 3%nat /\
      length (decoder_blocks m) = 3%nat /\
      seq_len m = 5001
  | Raise e =>
      e = IndexError "list index out of range" /\ true = true /\ [64; 128; 256] = []
  end.
Proof.
  apply (PulseDetectionNet_init_outcome (default_args 40 5001)).
  unfold sensible_args. simpl. repeat split; try lia; try (repeat constructor; lia).
  - unfold Qle. simpl. lia.
  - unfold Qle. simpl. lia.
Defined.

(** With the LSTM, the bottleneck turns [(N, input_size, L)] into
    [(N, 2 * hidden_size, L)]. *)
Lemma lstm_bottleneck_lstm_inv (m : PulseDetectionNet) (l : LSTM) (N c L : Z)
    (r : shape) :
  use_lstm m = true -> lstm m = Some l ->
  lstm_bottleneck m [N; c; L] = Ok r ->
  c = input_size l /\ r = [N; 2 * hidden_size l; L].
Proof.
  unfold lstm_bottleneck. intros -> ->. simpl.
  destruct (decide (c = input_size l)); simpl; [|discriminate].
  by intros [= <-].
Qed.

Lemma decoder_loop_cons (training : bool) (d : DecoderBlock) (ds : list DecoderBlock)
    (s : shape) (ss : list shape) (x : shape) :
  decoder_loop training (d :: ds) (s :: ss) x
  = y ← DecoderBlock_forward training d x s; decoder_loop training ds ss y.
Proof. reflexivity. Qed.

(** Whenever the forward pass of a constructed network returns: the input
    is [(N, T, C)] with at least [reduce_channels] channels and [T] a
    multiple of [2 ^ stages], the output is [(N, T, 1)], and with the LSTM
    the last hidden width is twice the LSTM width. *)
Lemma PulseDetectionNet_forward_inv_full (training : bool)
    (a : PulseDetectionNet_args) (m : PulseDetectionNet) (x r : shape) :
  PulseDetectionNet_init a = Ok m ->
  Z.odd (kernel_size a) = true ->
  PulseDetectionNet_forward training m x = Ok r ->
  exists N T C, x = [N; T; C] /\ r = [N; T; 1]
    /\ (2 ^ Z.of_nat (length (hidden_channels a)) | T)
    /\ 1 <= reduce_channels a <= C
    /\ (arg_use_lstm a = true ->
        last (hidden_channels a) = Some (lstm_hidden_size a * 2)).
Proof.
  intros Hinit Hodd Hfwd.
  destruct (PulseDetectionNet_forward_inv training a m x r Hinit Hodd Hfwd)
    as (N & T & C & -> & -> & Hdiv).
  exists N, T, C. split; [done|]. split; [done|]. split; [done|].
  apply PulseDetectionNet_init_inv in Hinit
    as (_ & Huse & Hsp & Henc & Hdec & Hfin & Hl).
  unfold PulseDetectionNet_forward in Hfwd.
  apply bind_Ok in Hfwd as (x1 & [= <-] & Hfwd).
  apply bind_Ok in Hfwd as (x2 & Hx2 & Hfwd).
  apply bind_Ok in Hfwd as ([x3 skips] & Hx3 & Hfwd).
  apply bind_Ok in Hfwd as (x4 & Hx4 & Hfwd).
  apply bind_Ok in Hfwd as (x5 & Hx5 & _).
  rewrite Hsp in Hx2.
  apply SpatialReductionPreprocessing_forward_inv in Hx2
    as (N' & C' & T' & [= <- <- <-] & -> & Hk).
  split; [done|]. intros Hlstm. rewrite Hlstm in Hl.
  destruct Hl as (l & Hl & Hlast & Hhid).
  rewrite Henc in Hx3.
  pose proof (encode_decode_inv training _ Hodd _ _ _ _ _ _ _ Hx3)
    as (ch & q & Hx3' & Hlen & _).
  pose proof (encoder_loop_inv training _ _ Hodd _ _ _ _ _ _ Hx3) as (_ & Hskips).
  subst x3. rewrite Hlstm in Huse.
  apply (lstm_bottleneck_lstm_inv m l) in Hx4 as (_ & ->); [|done..].
  rewrite Hdec in Hx5. simpl in Hx5.
  destruct (hidden_channels a) as [|h0 hs0] eqn:Hhs using rev_ind; [done|].
  clear IHhs0. rewrite last_snoc in Hlast. injection Hlast as Hlast.
  rewrite reverse_snoc in Hx5. cbn [app tail] in Hx5.
  rewrite length_app in Hlen. simpl in Hlen.
  destruct skips as [|s0 sk0 _] using rev_ind; [simpl in Hlen; lia|].
  rewrite length_app in Hlen. simpl in Hlen.
  specialize (Hskips (length hs0) h0).
  rewrite lookup_app_r, Nat.sub_diag in Hskips by lia. specialize (Hskips eq_refl).
  assert (length sk0 = length hs0) as Hlen' by lia.
  assert ((sk0 ++ [s0]) !! length sk0 = Some s0) as Hs0.
  { by rewrite lookup_app_r, Nat.sub_diag. }
  rewrite Hlen' in Hs0.
  assert (Some s0 = Some [N; h0; T `div` 2 ^ Z.of_nat (length hs0)]) as Hskips'.
  { etrans; [symmetry; exact Hs0|exact Hskips]. }
  clear Hskips Hs0. rename Hskips' into Hskips.
  injection Hskips as ->.
  rewrite reverse_snoc in Hx5.
  destruct (reverse hs0 ++ [32]) as [|o outs] eqn:Houts.
  { by destruct (reverse hs0). }
  cbn [dec_chain] in Hx5. rewrite decoder_loop_cons in Hx5.
  apply bind_Ok in Hx5 as (y & Hy & _).
  apply (DecoderBlock_forward_inv training _ Hodd) in Hy as (_ & [= Hch _] & _).
  rewrite Hlstm in Hch. rewrite last_snoc. by f_equal.
Qed.

(** X6. The contract of [PulseDetectionNet.forward] for a network built
    with an odd kernel size, a non-empty channel schedule and, with the
    LSTM, a last hidden width of twice the LSTM width: on an input
    [(N, T, C)] it returns exactly when [T] is a multiple of [2 ^ stages]
    and [C >= reduce_channels >= 1], and the result is [(N, T, 1)]. *)
Theorem PulseDetectionNet_forward_contract (training : bool)
    (a : PulseDetectionNet_args) (m : PulseDetectionNet) (N T C : Z) (r : shape) :
  sensible_args a ->
  PulseDetectionNet_init a = Ok m ->
  Z.odd (kernel_size a) = true ->
  hidden_channels a <> [] ->
  (arg_use_lstm a = true -> last (hidden_channels a) = Some (lstm_hidden_size a * 2)) ->
  0 < N -> 0 < T ->
  PulseDetectionNet_forward training m [N; T; C] = Ok r
  <-> r = [N; T; 1] /\ (2 ^ Z.of_nat (length (hidden_channels a)) | T)
      /\ reduce_channels a <= C.
Proof.
  intros Hargs Hinit Hodd Hne Hlstm HN HT. split.
  - intros Hfwd.
    destruct (PulseDetectionNet_forward_inv_full training a m _ _ Hinit Hodd Hfwd)
      as (N' & T' & C' & [= <- <- <-] & -> & Hdiv & Hk & _).
    split; [done|]. split; [done|lia].
  - intros (-> & Hdiv & Hk). destruct Hargs as (Hrc & _).
    apply (PulseDetectionNet_forward_ok training a); try done. lia.
Qed.

Lemma PulseDetectionNet_forward_contract_witness :
  exists m, PulseDetectionNet_init (default_args 40 5000) = Ok m /\
    PulseDetectionNet_forward true m [32; 5000; 40] = Ok [32; 5000; 1].
Proof.
  destruct (PulseDetectionNet_init (default_args 40 5000)) as [m|e] eqn:Hinit;
    [|vm_compute in Hinit; discriminate].
  exists m. split; [done|].
  apply (PulseDetectionNet_forward_contract true (default_args 40 5000) m 32 5000 40).
  - unfold sensible_args. simpl. repeat split; try lia; try (repeat constructor; lia).
    + unfold Qle. simpl. lia.
    + unfold Qle. simpl. lia.
  - exact Hinit.
  - reflexivity.
  - discriminate.
  - reflexivity.
  - lia.
  - lia.
  - split; [done|]. split; [exists 625; reflexivity|simpl; lia].
Defined.

(** X7. With the LSTM enabled the first decoder block is built for
    [2 * lstm_hidden_size] channels but is fed a skip tensor with
    [hidden_channels[-1]] channels: unless the two agree, the forward pass
    raises on every input. *)
Theorem lstm_width_mismatch_raises (training : bool)
    (a : PulseDetectionNet_args) (m : PulseDetectionNet) (x : shape) :
  PulseDetectionNet_init a = Ok m ->
  Z.odd (kernel_size a) = true ->
  arg_use_lstm a = true ->
  last (hidden_channels a) <> Some (lstm_hidden_size a * 2) ->
  exists e, PulseDetectionNet_forward training m x = Raise e.
Proof.
  intros Hinit Hodd Hlstm Hne.
  destruct (PulseDetectionNet_forward training m x) as [r|e] eqn:Hfwd; [|eauto].
  destruct (PulseDetectionNet_forward_inv_full training a m _ _ Hinit Hodd Hfwd)
    as (N & T & C & _ & _ & _ & _ & Hw).
  by specialize (Hw Hlstm).
Qed.

Lemma lstm_width_mismatch_raises_witness :
  exists m e,
    PulseDetectionNet_init
      {| in_channels := 21; arg_seq_len := 5000; reduce_channels := 8;
         hidden_channels := [64; 128; 256]; kernel_size := 5; arg_use_lstm := true;
         lstm_hidden_size := 64; lstm_num_layers := 2; dropout := (1 # 10)%Q |} = Ok m /\
    PulseDetectionNet_forward true m [16; 5000; 21] = Raise e.
Proof.
  eexists. 
  destruct (lstm_width_mismatch_raises true
    {| in_channels := 21; arg_seq_len := 5000; reduce_channels := 8;
       hidden_channels := [64; 128; 256]; kernel_size := 5; arg_use_lstm := true;
       lstm_hidden_size := 64; lstm_num_layers := 2; dropout := (1 # 10)%Q |}
    _ [16; 5000; 21] ltac:(vm_compute; reflexivity)) as [e He].
  - reflexivity.
  - reflexivity.
  - simpl. discriminate.
  - exists e. split; [reflexivity|exact He].
Defined.

(** ** The fusion blocks: which inputs they accept *)

Lemma stack1_inv (xs : list shape) (s : shape) :
  stack1 xs = Ok s ->
  exists d0 r, Forall (fun y => y = d0 :: r) xs /\ xs <> [] /\
    s = d0 :: Z.of_nat (length xs) :: r.
Proof.
  unfold stack1. destruct xs as [|x rest]; [discriminate|].
  destruct (decide (Forall (fun y => y = x) rest)) as [Hall|]; [|discriminate].
  destruct x as [|d0 r]; [discriminate|]. intros [= <-].
  exists d0, r. split; [|done]. by constructor.
Qed.

Lemma MultiheadAttention_forward_inv (m : MultiheadAttention) (b l e : Z) (r : shape) :
  MultiheadAttention_forward m [b; l; e] = Ok r -> e = embed_dim m.
Proof. simpl. by destruct (decide (e = embed_dim m)). Qed.

Lemma CrossSiteAttention_forward_shape (training : bool)
    (hidden num_heads : Z) (att : CrossSiteAttention) (N L : Z)
    (site_features : list shape) :
  CrossSiteAttention_init hidden num_heads = Ok att ->
  site_features <> [] ->
  Forall (fun x => x = [N; L; hidden]) site_features ->
  CrossSiteAttention_forward training att site_features = Ok site_features.
Proof.
  intros Hinit Hne Hall.
  unfold CrossSiteAttention_init in Hinit.
  apply bind_Ok in Hinit as (sa & Hsa & [= <-]).
  apply MultiheadAttention_init_inv in Hsa as [Hsa _].
  destruct site_features as [|x rest]; [done|].
  apply Forall_cons in Hall as [-> Hrest].
  unfold CrossSiteAttention_forward, stack1.
  rewrite decide_True by done.
  cbn [mbind result_bind transpose12 mha norm].
  match goal with
  | |- context [reshape [N * L; ?s; hidden] _] => remember s as S eqn:HS
  end.
  rewrite (reshape_ok [N * L; S; hidden]) by (unfold numel; cbn [fold_right]; ring).
  cbn [mbind result_bind].
  rewrite (MultiheadAttention_forward_ok sa) by done. cbn [mbind result_bind].
  rewrite add_same. cbn [mbind result_bind].
  rewrite LayerNorm_ok. cbn [mbind result_bind].
  rewrite (reshape_ok [N; L; S; hidden]) by (unfold numel; cbn [fold_right]; ring).
  cbn [mbind result_bind transpose12].
  rewrite (list_comp_replicate _ _ [N; L; hidden]).
  - rewrite HS, py_range_length. simpl. do 2 f_equal.
    symmetry. by apply Forall_eq_replicate.
  - apply Forall_forall. intros i Hi. apply py_range_bounds in Hi.
    unfold select1. by rewrite decide_True by lia.
Qed.

(** X8. [CrossSiteAttention.forward] of a block of width [C] returns only
    on a non-empty list of tensors that all have one shape [(N, L, C)], and
    on such a list it returns one tensor of that shape per site; an empty
    list, sites of different shapes or another feature width raise. *)
Theorem CrossSiteAttention_forward_accepts (training : bool) (C num_heads : Z)
    (att : CrossSiteAttention) (site_features : list shape) :
  CrossSiteAttention_init C num_heads = Ok att ->
  (forall out, CrossSiteAttention_forward training att site_features = Ok out ->
     site_features <> [] /\
     (exists N L, Forall (fun x => x = [N; L; C]) site_features) /\
     out = site_features) /\
  (forall N L, 0 < N -> 0 < L -> site_features <> [] ->
     Forall (fun x => x = [N; L; C]) site_features ->
     CrossSiteAttention_forward training att site_features = Ok site_features).
Proof.
  intros Hinit. split.
  - intros out Hfwd.
    assert (site_features <> [] /\
            exists N L, Forall (fun x => x = [N; L; C]) site_features) as [Hne HNL].
    { unfold CrossSiteAttention_forward in Hfwd.
      apply bind_Ok in Hfwd as (stacked & Hst & Hfwd).
      apply stack1_inv in Hst as (d0 & r & Hall & Hne & ->).
      split; [done|].
      destruct r as [|L [|C' [|? ?]]]; try discriminate.
      apply bind_Ok in Hfwd as (reshaped & Hre & Hfwd).
      apply bind_Ok in Hfwd as (attn & Hattn & _).
      cbn [transpose12 mbind result_bind] in Hre. unfold reshape in Hre.
      destruct (decide _); [|discriminate]. injection Hre as <-.
      apply MultiheadAttention_forward_inv in Hattn.
      unfold CrossSiteAttention_init in Hinit.
      apply bind_Ok in Hinit as (sa & Hsa & [= <-]).
      apply MultiheadAttention_init_inv in Hsa as [Hsa _]. simpl in Hattn.
      exists d0, L. by rewrite <- Hsa, <- Hattn. }
    split; [done|]. split; [done|].
    destruct HNL as (N & L & Hall).
    rewrite (CrossSiteAttention_forward_shape training C num_heads att N L) in Hfwd
      by done.
    by injection Hfwd.
  - intros N L _ _ Hne Hall.
    by apply (CrossSiteAttention_forward_shape training C num_heads att N L).
Qed.

Lemma CrossSiteAttention_forward_accepts_witness :
  CrossSiteAttention_forward true
    {| mha := {| embed_dim := 256; num_heads := 4 |}; norm := LayerNorm 256 |}
    [[16; 625; 256]; [16; 625; 256]; [16; 625; 256]]
  = Ok [[16; 625; 256]; [16; 625; 256]; [16; 625; 256]].
Proof.
  apply (CrossSiteAttention_forward_accepts true 256 4 _ _ eq_refl) with 16 625.
  - lia.
  - lia.
  - done.
  - repeat constructor.
Defined.

(** X9. [CrossSiteTemporalAttention.forward] returns only on a non-empty
    list of tensors of one shape [(N, L, C)] with [C] the width of the block,
    and what it returns then has the shapes of its input: an empty list,
    sites of different shapes (for instance different LSTM widths) or
    another feature width raise. *)
Theorem CrossSiteTemporalAttention_forward_accepts (training : bool)
    (C num_heads : Z) (att : CrossSiteTemporalAttention)
    (site_features out : list shape) :
  CrossSiteTemporalAttention_init C num_heads = Ok att ->
  CrossSiteTemporalAttention_forward training att site_features = Ok out ->
  site_features <> [] /\
  (exists N L, Forall (fun x => x = [N; L; C]) site_features) /\
  out = site_features.
Proof.
  intros Hinit Hfwd.
  assert (site_features <> [] /\
          exists N L, Forall (fun x => x = [N; L; C]) site_features) as [Hne HNL].
  { unfold CrossSiteTemporalAttention_forward in Hfwd.
    apply bind_Ok in Hfwd as (stacked & Hst & Hfwd).
    apply stack1_inv in Hst as (d0 & r & Hall & Hne & ->).
    split; [done|].
    destruct r as [|L [|C' [|? ?]]]; try discriminate.
    apply bind_Ok in Hfwd as (reshaped & Hre & Hfwd).
    apply bind_Ok in Hfwd as (attn & Hattn & _).
    cbn [transpose12 mbind result_bind] in Hre. unfold reshape in Hre.
    destruct (decide _); [|discriminate]. injection Hre as <-.
    apply MultiheadAttention_forward_inv in Hattn.
    unfold CrossSiteTemporalAttention_init in Hinit.
    apply bind_Ok in Hinit as (sa & Hsa & Hinit).
    apply bind_Ok in Hinit as (ta & _ & [= <-]).
    apply MultiheadAttention_init_inv in Hsa as [Hsa _]. simpl in Hattn.
    exists d0, L. by rewrite <- Hsa, <- Hattn. }
  split; [done|]. split; [done|].
  destruct HNL as (N & L & Hall).
  rewrite (CrossSiteTemporalAttention_forward_shape training C num_heads att N L C)
    in Hfwd by done.
  by injection Hfwd.
Qed.

Lemma CrossSiteTemporalAttention_forward_accepts_witness :
  [[16; 625; 256]; [16; 625; 256]] <> [] /\
  (exists N L, Forall (fun x => x = [N; L; 256]) [[16; 625; 256]; [16; 625; 256]]) /\
  [[16; 625; 256]; [16; 625; 256]] = [[16; 625; 256]; [16; 625; 256]].
Proof.
  apply (CrossSiteTemporalAttention_forward_accepts true 256 4
           {| site_attention := {| embed_dim := 256; num_heads := 4 |};
              temporal_attention := {| embed_dim := 256; num_heads := 4 |};
              norm1 := LayerNorm 256; norm2 := LayerNorm 256 |}); reflexivity.
Defined.

(** ** Construction of the orchestrator *)

Lemma PulseDetectionNet_kwargs_in_channels (c : site_config) (n : PulseDetectionNet) :
  PulseDetectionNet_kwargs c = Ok n -> is_Some (sc_in_channels c).
Proof.
  unfold PulseDetectionNet_kwargs. destruct (sc_in_channels c); [eauto|discriminate].
Qed.

Lemma site_in_channels_Ok (site_configs : list site_config)
    (nets : list PulseDetectionNet) :
  list_comp PulseDetectionNet_kwargs site_configs = Ok nets ->
  exists chs,
    list_comp (fun config => dict_get "in_channels" (sc_in_channels config)) site_configs
    = Ok chs.
Proof.
  revert nets. induction site_configs as [|c cs IH]; intros nets Hnets; simpl.
  - eauto.
  - simpl in Hnets. apply bind_Ok in Hnets as (n & Hn & Hnets).
    apply bind_Ok in Hnets as (ns & Hns & _).
    apply PulseDetectionNet_kwargs_in_channels in Hn as [ch Hch].
    destruct (IH _ Hns) as (chs & ->). rewrite Hch. simpl. eauto.
Qed.

(** X10. [MultiSitePulseDetectionNet.__init__] reads
    [site_configs[0]['lstm_hidden_size']] itself: an empty list of
    configurations raises [IndexError], and a first configuration without
    that key raises [KeyError] although every site network was constructed
    (the key is optional for [PulseDetectionNet]), whether or not fusion or
    regression is enabled. *)
Theorem init_needs_first_lstm_hidden_size (enable_fusion direct_ptt : bool)
    (pairs : option (list (Z * Z))) :
  MultiSitePulseDetectionNet_init [] enable_fusion direct_ptt pairs
    = Raise (IndexError "list index out of range") /\
  forall (c0 : site_config) (rest : list site_config) (nets : list PulseDetectionNet),
    list_comp PulseDetectionNet_kwargs (c0 :: rest) = Ok nets ->
    sc_lstm_hidden_size c0 = None ->
    MultiSitePulseDetectionNet_init (c0 :: rest) enable_fusion direct_ptt pairs
    = Raise (KeyError "lstm_hidden_size").
Proof.
  split; [reflexivity|]. intros c0 rest nets Hnets Hnone.
  unfold MultiSitePulseDetectionNet_init.
  destruct (site_in_channels_Ok _ _ Hnets) as (chs & Hchs).
  rewrite Hnets. cbn [mbind result_bind]. rewrite Hchs. cbn [mbind result_bind].
  unfold py_index. simpl. rewrite Hnone. reflexivity.
Qed.

Lemma init_needs_first_lstm_hidden_size_witness :
  MultiSitePulseDetectionNet_init
    [ {| sc_in_channels := Some 21; sc_seq_len := Some 5000;
         sc_reduce_channels := None; sc_hidden_channels := None;
         sc_kernel_size := None; sc_use_lstm := None;
         sc_lstm_hidden_size := None; sc_lstm_num_layers := None;
         sc_dropout := None |}; scenario_config 42 ] true true None
  = Raise (KeyError "lstm_hidden_size").
Proof.
  destruct (init_needs_first_lstm_hidden_size true true None) as [_ H].
  eapply H.
  - vm_compute. reflexivity.
  - reflexivity.
Defined.

(** X11. With fusion enabled, a constructed orchestrator takes the width of
    its fusion block from the first site only: twice that site's
    [lstm_hidden_size], which therefore is positive and even (the four
    attention heads must divide the width). *)
Theorem fusion_width_from_first_site (site_configs : list site_config)
    (direct_ptt : bool) (pairs : option (list (Z * Z))) (m : MultiSite_modules) :
  MultiSitePulseDetectionNet_init site_configs true direct_ptt pairs = Ok m ->
  exists (c0 : site_config) (h : Z) (att : CrossSiteTemporalAttention),
    site_configs !! 0%nat = Some c0 /\
    sc_lstm_hidden_size c0 = Some h /\
    0 < h /\ Z.even h = true /\
    ms_cross_site_attention m = Some att /\
    CrossSiteTemporalAttention_init (2 * h) 4 = Ok att.
Proof.
  unfold MultiSitePulseDetectionNet_init. intros Hinit.
  apply bind_Ok in Hinit as (nets & Hnets & Hinit).
  apply bind_Ok in Hinit as (chs & _ & Hinit).
  apply bind_Ok in Hinit as (c0 & Hc0 & Hinit).
  apply bind_Ok in Hinit as (h & Hh & Hinit).
  apply bind_Ok in Hinit as (att & Hatt & [= <-]). simpl.
  destruct (sc_lstm_hidden_size c0) as [h'|] eqn:Hh'; [|discriminate].
  injection Hh as ->.
  destruct (CrossSiteTemporalAttention_init (h * 2) 4) as [a|e] eqn:Ha;
    [|discriminate].
  injection Hatt as <-.
  exists c0, h, a. split.
  { destruct site_configs as [|c cs]; [discriminate|].
    unfold py_index in Hc0. cbn [length] in Hc0.
    rewrite decide_True in Hc0 by lia. by injection Hc0 as ->. }
  split; [done|].
  assert (0 < h /\ Z.even h = true) as [? ?].
  { unfold CrossSiteTemporalAttention_init, MultiheadAttention_init in Ha.
    destruct (decide (h * 2 > 0 /\ 4 > 0)) as [[Hpos _]|]; [|discriminate].
    destruct (decide ((h * 2) `div` 4 * 4 = h * 2)) as [Hdiv|]; [|discriminate].
    split; [lia|]. rewrite Z.even_spec. exists ((h * 2) `div` 4). lia. }
  repeat split; try done. by rewrite Z.mul_comm.
Qed.

Lemma fusion_width_from_first_site_witness :
  exists (m : MultiSite_modules) (c0 : site_config) (h : Z)
         (att : CrossSiteTemporalAttention),
    MultiSitePulseDetectionNet_init scenario_configs true true None = Ok m /\
    scenario_configs !! 0%nat = Some c0 /\
    sc_lstm_hidden_size c0 = Some h /\
    0 < h /\ Z.even h = true /\
    ms_cross_site_attention m = Some att /\
    CrossSiteTemporalAttention_init (2 * h) 4 = Ok att.
Proof.
  destruct (MultiSitePulseDetectionNet_init scenario_configs true true None)
    as [m|e] eqn:Hinit; [|vm_compute in Hinit; discriminate].
  exists m.
  destruct (fusion_width_from_first_site scenario_configs true None m Hinit)
    as (c0 & h & att & H).
  exists c0, h, att. split; [reflexivity|exact H].
Defined.

(** ** Site pairs and regression heads *)

Lemma elem_of_py_range (n i : Z) : i ∈ py_range n <-> 0 <= i < n.
Proof.
  split; [apply py_range_bounds|]. intros Hi. unfold py_range.
  apply list_elem_of_fmap. exists (Z.to_nat i). split; [lia|].
  apply elem_of_seq. lia.
Qed.

Lemma elem_of_py_range2 (a b j : Z) : j ∈ py_range2 a b <-> a <= j < b.
Proof.
  unfold py_range2. rewrite list_elem_of_fmap. split.
  - intros (k & -> & Hk). apply elem_of_seq in Hk. lia.
  - intros Hj. exists (Z.to_nat (j - a)). split; [lia|]. apply elem_of_seq. lia.
Qed.

Lemma py_range2_NoDup (a b : Z) : NoDup (py_range2 a b).
Proof.
  unfold py_range2. apply NoDup_fmap_2; [|apply NoDup_seq].
  intros x y Hxy. lia.
Qed.

Lemma py_range_NoDup (n : Z) : NoDup (py_range n).
Proof.
  unfold py_range. apply NoDup_fmap_2; [|apply NoDup_seq].
  intros x y Hxy. lia.
Qed.

Lemma pairs_from_length (k a : nat) (f : nat -> list (Z * Z)) :
  (forall i, (a <= i < a + k)%nat -> length (f i) = (a + k - 1 - i)%nat) ->
  (2 * length (seq a k ≫= f) = k * (k - 1))%nat.
Proof.
  revert a. induction k as [|k IH]; intros a Hf; [done|].
  cbn [seq]. rewrite bind_cons, length_app, Hf by lia.
  specialize (IH (S a)). rewrite Nat.mul_add_distr_l, IH.
  - nia.
  - intros i Hi. rewrite Hf by lia. lia.
Qed.

Lemma length_bind_singleton {A B} (g : A -> B) (l : list A) :
  length (l ≫= fun x => [g x]) = length l.
Proof. induction l as [|x l IH]; [done|]. rewrite bind_cons. simpl. by rewrite IH. Qed.

(** X12. The default pairing of [num_sites] sites lists every pair [(i, j)]
    with [0 <= i < j < num_sites] exactly once, [num_sites * (num_sites - 1) / 2]
    pairs in all; for fewer than two sites it is empty. *)
Theorem default_pairs_spec (num_sites : Z) :
  NoDup (default_pairs num_sites) /\
  (forall i j, (i, j) ∈ default_pairs num_sites <-> 0 <= i /\ i < j /\ j < num_sites) /\
  (2 * length (default_pairs num_sites)
   = Z.to_nat num_sites * (Z.to_nat num_sites - 1))%nat.
Proof.
  unfold default_pairs. split; [|split].
  - apply NoDup_bind; [| |apply py_range_NoDup].
    + intros i1 i2 [a b] _ _ H1 H2.
      apply list_elem_of_bind in H1 as (j1 & H1 & _).
      apply list_elem_of_bind in H2 as (j2 & H2 & _).
      apply list_elem_of_singleton in H1. apply list_elem_of_singleton in H2.
      congruence.
    + intros i _. apply NoDup_bind; [| |apply py_range2_NoDup].
      * intros j1 j2 [a b] _ _ H1 H2.
        apply list_elem_of_singleton in H1. apply list_elem_of_singleton in H2.
        congruence.
      * intros j _. apply NoDup_singleton.
  - intros i j. rewrite list_elem_of_bind. split.
    + intros (i' & Hin & Hi'). apply list_elem_of_bind in Hin as (j' & Hin & Hj').
      apply list_elem_of_singleton in Hin. injection Hin as -> ->.
      apply elem_of_py_range in Hi'. apply elem_of_py_range2 in Hj'. lia.
    + intros Hij. exists i. split; [|apply elem_of_py_range; lia].
      apply list_elem_of_bind. exists j. split; [by apply list_elem_of_singleton|].
      apply elem_of_py_range2. lia.
  - unfold py_range. rewrite list_fmap_bind.
    apply pairs_from_length. intros i Hi. simpl.
    rewrite length_bind_singleton. unfold py_range2.
    rewrite length_fmap, length_seq. lia.
Qed.

Lemma heads_lookup (head : PTTRegressionHead) (ps : list (Z * Z))
    (heads0 : gmap string PTTRegressionHead) (key : string) :
  foldl (fun (heads : gmap string PTTRegressionHead) pair =>
           <[pair_key pair := head]> heads) heads0 ps !! key
  = if decide (key ∈ pair_key <$> ps) then Some head else heads0 !! key.
Proof.
  revert heads0. induction ps as [|p ps IH]; intros heads0; cbn [foldl].
  - rewrite decide_False; [done|]. rewrite fmap_nil. apply not_elem_of_nil.
  - rewrite IH, fmap_cons. destruct (decide (key ∈ pair_key <$> ps)) as [Hin|Hnotin].
    + rewrite decide_True; [done|]. by right.
    + destruct (decide (key = pair_key p)) as [->|Hne].
      * rewrite lookup_insert_eq. rewrite decide_True; [done|]. by left.
      * rewrite lookup_insert_ne by done. rewrite decide_False; [done|].
        intros Hin. by apply elem_of_cons in Hin as [?|?].
Qed.

(** What [__init__] sets up for direct regression. *)
Lemma MultiSitePulseDetectionNet_init_heads (site_configs : list site_config)
    (enable_fusion : bool) (pairs : option (list (Z * Z))) (m : MultiSite_modules) :
  MultiSitePulseDetectionNet_init site_configs enable_fusion true pairs = Ok m ->
  exists (c0 : site_config) (h : Z) (heads : gmap string PTTRegressionHead),
    site_configs !! 0%nat = Some c0 /\
    sc_lstm_hidden_size c0 = Some h /\
    ms_all_pairs m
      = Some (default (default_pairs (Z.of_nat (length site_configs))) pairs) /\
    ms_ptt_regression_heads m = Some heads /\
    forall key : string,
      heads !! key
      = if decide (key ∈ pair_key <$>
                     default (default_pairs (Z.of_nat (length site_configs))) pairs)
        then Some (PTTRegressionHead_init (2 * (h * 2)) (h * 2))
        else None.
Proof.
  unfold MultiSitePulseDetectionNet_init. intros Hinit.
  apply bind_Ok in Hinit as (nets & Hnets & Hinit).
  apply bind_Ok in Hinit as (chs & _ & Hinit).
  apply bind_Ok in Hinit as (c0 & Hc0 & Hinit).
  apply bind_Ok in Hinit as (h & Hh & Hinit).
  apply bind_Ok in Hinit as (att & Hatt & [= <-]). simpl.
  destruct (sc_lstm_hidden_size c0) as [h'|] eqn:Hh'; [|discriminate].
  injection Hh as ->.
  exists c0, h. eexists. split.
  { destruct site_configs as [|c cs]; [discriminate|].
    unfold py_index in Hc0. cbn [length] in Hc0.
    rewrite decide_True in Hc0 by lia. by injection Hc0 as ->. }
  split; [done|]. split; [by destruct pairs|]. split; [done|].
  intros key. rewrite heads_lookup. rewrite lookup_empty.
  by destruct pairs.
Qed.

(** X13. In direct regression mode [__init__] stores one regression head
    per pair key ['i_j'], for the given pairs or by default for all pairs of
    sites, each taking twice the fused width (itself twice the first site's
    [lstm_hidden_size]); no other key holds a head, so the lookup
    [self.ptt_regression_heads[key]] of the forward pass finds a head for
    every pair of [self.all_pairs]. *)
Theorem regression_head_per_pair (site_configs : list site_config)
    (enable_fusion : bool) (pairs : option (list (Z * Z))) (m : MultiSite_modules) :
  MultiSitePulseDetectionNet_init site_configs enable_fusion true pairs = Ok m ->
  exists (c0 : site_config) (h : Z) (all_pairs : list (Z * Z))
         (heads : gmap string PTTRegressionHead),
    site_configs !! 0%nat = Some c0 /\
    sc_lstm_hidden_size c0 = Some h /\
    all_pairs = default (default_pairs (Z.of_nat (length site_configs))) pairs /\
    ms_all_pairs m = Some all_pairs /\
    ms_ptt_regression_heads m = Some heads /\
    (forall pair, pair ∈ all_pairs ->
       heads !! pair_key pair = Some (PTTRegressionHead_init (2 * (h * 2)) (h * 2))) /\
    (forall key, is_Some (heads !! key) -> exists pair, pair ∈ all_pairs /\ key = pair_key pair).
Proof.
  intros Hinit.
  destruct (MultiSitePulseDetectionNet_init_heads _ _ _ _ Hinit)
    as (c0 & h & heads & Hc0 & Hh & Hpairs & Hheads & Hlookup).
  exists c0, h, (default (default_pairs (Z.of_nat (length site_configs))) pairs), heads.
  repeat split; try done.
  - intros pair Hin. rewrite Hlookup, decide_True; [done|].
    apply list_elem_of_fmap. eauto.
  - intros key [hd Hhd]. rewrite Hlookup in Hhd.
    destruct (decide _) as [Hin|]; [|discriminate].
    apply list_elem_of_fmap in Hin as (pair & -> & Hin). eauto.
Qed.

Lemma regression_head_per_pair_witness :
  exists (m : MultiSite_modules) (c0 : site_config) (h : Z) (all_pairs : list (Z * Z))
         (heads : gmap string PTTRegressionHead),
    scenario_modules = Ok m /\
    scenario_configs !! 0%nat = Some c0 /\
    sc_lstm_hidden_size c0 = Some h /\
    all_pairs = default (default_pairs (Z.of_nat (length scenario_configs))) None /\
    ms_all_pairs m = Some all_pairs /\
    ms_ptt_regression_heads m = Some heads /\
    (forall pair, pair ∈ all_pairs ->
       heads !! pair_key pair = Some (PTTRegressionHead_init (2 * (h * 2)) (h * 2))) /\
    (forall key, is_Some (heads !! key) -> exists pair, pair ∈ all_pairs /\ key = pair_key pair).
Proof.
  destruct scenario_modules as [m|e] eqn:Hinit; [|vm_compute in Hinit; discriminate].
  exists m.
  destruct (regression_head_per_pair scenario_configs true None m Hinit)
    as (c0 & h & ps & heads & H).
  exists c0, h, ps, heads. split; [reflexivity|exact H].
Defined.

(** X14. [PTTRegressionHead.forward] maps [(N, in_features)] to [(N, 1)];
    in training mode a batch of one sample raises, as batch normalisation
    needs more than one value per channel. *)
Theorem PTTRegressionHead_forward_shape (training : bool)
    (in_features hidden_features N : Z) :
  0 < in_features -> 0 < hidden_features -> 0 < N ->
  PTTRegressionHead_forward training
    (PTTRegressionHead_init in_features hidden_features) [N; in_features]
  = if training && bool_decide (N = 1)
    then Raise (ValueError "Expected more than 1 value per channel when training")
    else Ok [N; 1].
Proof.
  intros _ _ _.
  unfold PTTRegressionHead_forward, PTTRegressionHead_init, Sequential_forward.
  cbn [fc for_each apply_layer mbind result_bind].
  unfold last_dim_apply. cbn [reverse rev_append].
  rewrite decide_True by done. cbn [mbind result_bind reverse rev_append].
  unfold bn_batch_check.
  destruct (training && bool_decide (N = 1)); cbn [mbind result_bind]; [done|].
  rewrite decide_True by done. cbn [mbind result_bind reverse rev_append].
  by rewrite decide_True by done.
Qed.

Lemma PTTRegressionHead_forward_shape_witness :
  PTTRegressionHead_forward true (PTTRegressionHead_init 512 256) [1; 512]
  = Raise (ValueError "Expected more than 1 value per channel when training")
  /\ PTTRegressionHead_forward false (PTTRegressionHead_init 512 256) [1; 512]
     = Ok [1; 1].
Proof.
  split.
  - apply (PTTRegressionHead_forward_shape true 512 256 1); lia.
  - apply (PTTRegressionHead_forward_shape false 512 256 1); lia.
Defined.

Lemma PTTRegressionHead_forward_ok (training : bool) (in_features hidden_features N : Z) :
  training && bool_decide (N = 1) = false ->
  PTTRegressionHead_forward training
    (PTTRegressionHead_init in_features hidden_features) [N; in_features]
  = Ok [N; 1].
Proof.
  intros Hbn.
  unfold PTTRegressionHead_forward, PTTRegressionHead_init, Sequential_forward.
  cbn [fc for_each apply_layer mbind result_bind].
  unfold last_dim_apply. cbn [reverse rev_append].
  rewrite decide_True by done. cbn [mbind result_bind reverse rev_append].
  unfold bn_batch_check. rewrite Hbn. cbn [mbind result_bind].
  rewrite decide_True by done. cbn [mbind result_bind reverse rev_append].
  by rewrite decide_True by done.
Qed.

(** ** The direct regression branch *)

Lemma cat1_replicate (N : Z) (k : nat) :
  cat1 (replicate (S k) [N; 1]) = Ok [N; Z.of_nat (S k)].
Proof.
  induction k as [|k IH]; [done|].
  change (replicate (S (S k)) [N; 1]) with ([N; 1] :: replicate (S k) [N; 1]).
  change (cat1 ([N; 1] :: replicate (S k) [N; 1]))
    with (y ← cat1 (replicate (S k) [N; 1]); cat1_pair [N; 1] y).
  rewrite IH. cbn [mbind result_bind cat1_pair].
  rewrite decide_True by done. do 3 f_equal. lia.
Qed.

Lemma py_index_replicate {A} (x : A) (n : nat) (i : Z) :
  - Z.of_nat n <= i < Z.of_nat n -> py_index (replicate n x) i = Ok x.
Proof.
  intros Hi. unfold py_index, py_nth. rewrite length_replicate.
  destruct (decide (0 <= i < Z.of_nat n)).
  - rewrite lookup_replicate_2; [done|lia].
  - rewrite decide_True by lia. rewrite lookup_replicate_2; [done|lia].
Qed.

Lemma regression_loop (training : bool) (N W : Z) (S : nat)
    (heads : gmap string PTTRegressionHead) (ps : list (Z * Z)) :
  0 < N -> 0 < W -> training && bool_decide (N = 1) = false ->
  Forall (fun pair : Z * Z => - Z.of_nat S <= pair.1 < Z.of_nat S /\
                              - Z.of_nat S <= pair.2 < Z.of_nat S) ps ->
  (forall pair, pair ∈ ps ->
     heads !! pair_key pair = Some (PTTRegressionHead_init (2 * W) W)) ->
  forall acc : list shape,
  for_each (fun (ptt_outputs : list shape) (pair : Z * Z) =>
      let key := pair_key pair in
      a ← py_index (replicate S ([N; W] : shape)) pair.1;
      b ← py_index (replicate S ([N; W] : shape)) pair.2;
      reg_input ← cat1 [a; b];
      heads ← self_attr "ptt_regression_heads"
                (Some (PTTRegressionHead_forward training <$> heads));
      head ← match (heads : gmap string (shape -> result shape)) !! key with
             | Some head => Ok head
             | None => Raise (KeyError key)
             end;
      ptt_value ← head reg_input;
      Ok (ptt_outputs ++ [ptt_value]))
    ps acc
  = Ok (acc ++ replicate (length ps) [N; 1]).
Proof.
  intros HN HW Hbn Hvalid Hheads.
  induction ps as [|p ps IH]; intros acc; simpl.
  - by rewrite app_nil_r.
  - apply Forall_cons in Hvalid as [[H1 H2] Hvalid].
    rewrite !py_index_replicate by done. cbn [mbind result_bind cat1 cat1_pair].
    rewrite decide_True by done. cbn [mbind result_bind self_attr].
    rewrite lookup_fmap, (Hheads p) by left. cbn [fmap option_fmap option_map mbind result_bind].
    replace (W + W) with (2 * W) by lia.
    rewrite PTTRegressionHead_forward_ok by done.
    cbn [mbind result_bind]. rewrite IH.
    + by rewrite <- app_assoc.
    + done.
    + intros pair Hin. apply Hheads. by right.
Qed.

(** X15. The regression branch of a constructed orchestrator, on one fused
    tensor [(N, L, W)] per site with [W] twice the first site's
    [lstm_hidden_size], for a non-empty list of pairs that index existing
    sites: it returns [(N, number of pairs)], one column per pair in the
    order of [self.all_pairs] (in training mode for [N >= 2]). *)
Theorem ptt_branch_shape (training : bool)
    (methods : PulseDetectionNet -> SiteNetwork shape)
    (site_configs : list site_config) (enable_fusion : bool)
    (pairs : option (list (Z * Z))) (m : MultiSite_modules)
    (c0 : site_config) (h N L : Z) (ps : list (Z * Z)) (fused_features : list shape) :
  MultiSitePulseDetectionNet_init site_configs enable_fusion true pairs = Ok m ->
  site_configs !! 0%nat = Some c0 -> sc_lstm_hidden_size c0 = Some h -> 0 < h ->
  ms_all_pairs m = Some ps -> ps <> [] ->
  Forall (fun pair : Z * Z =>
            - Z.of_nat (length fused_features) <= pair.1
              < Z.of_nat (length fused_features) /\
            - Z.of_nat (length fused_features) <= pair.2
              < Z.of_nat (length fused_features)) ps ->
  Forall (fun x => x = [N; L; h * 2]) fused_features ->
  0 < N -> 0 < L -> training && bool_decide (N = 1) = false ->
  ptt_branch (bind_modules training methods m) fused_features
  = Ok [N; Z.of_nat (length ps)].
Proof.
  intros Hinit Hc0 Hh Hhpos Hps Hne Hvalid Hfused HN HL Hbn.
  destruct (MultiSitePulseDetectionNet_init_heads _ _ _ _ Hinit)
    as (c0' & h' & heads & Hc0' & Hh' & Hpairs & Hheads & Hlookup).
  assert (c0' = c0) as -> by congruence.
  assert (h' = h) as -> by congruence.
  rewrite Hps in Hpairs. injection Hpairs as Hpairs.
  unfold ptt_branch.
  rewrite (list_comp_replicate _ _ ([N; h * 2] : shape)).
  2:{ eapply Forall_impl; [exact Hfused|]. by intros x ->. }
  cbn [mbind result_bind bind_modules all_pairs ptt_regression_heads].
  rewrite Hps, Hheads. cbn [self_attr mbind result_bind fmap option_fmap option_map].
  rewrite (regression_loop training N (h * 2) (length fused_features) heads ps);
    try done; try lia.
  - cbn [mbind result_bind app]. destruct ps as [|p ps']; [done|].
    apply cat1_replicate.
  - intros pair Hin. rewrite Hlookup, decide_True; [done|].
    rewrite <- Hpairs. apply list_elem_of_fmap. eauto.
Qed.

Lemma ptt_branch_shape_witness :
  exists m : MultiSite_modules,
    scenario_modules = Ok m /\
    ptt_branch (bind_modules true PulseDetectionNet_methods m)
      [[16; 625; 256]; [16; 625; 256]; [16; 625; 256]]
    = Ok [16; 3].
Proof.
  destruct scenario_modules as [m|e] eqn:Hinit; [|vm_compute in Hinit; discriminate].
  exists m. split; [done|].
  apply (ptt_branch_shape true PulseDetectionNet_methods scenario_configs true None m
           (scenario_config 21) 128 16 625 [(0, 1); (0, 2); (1, 2)]).
  - exact Hinit.
  - reflexivity.
  - reflexivity.
  - lia.
  - vm_compute in Hinit. by injection Hinit as <-.
  - discriminate.
  - repeat constructor; simpl; lia.
  - repeat constructor.
  - lia.
  - lia.
  - reflexivity.
Defined.

(** X16. An orchestrator of a single site with the default pairing has no
    pair at all, and its regression branch raises on every input: the
    final [torch.cat] receives an empty list. *)
Theorem single_site_regression_raises (training : bool)
    (methods : PulseDetectionNet -> SiteNetwork shape) (c0 : site_config)
    (enable_fusion : bool) (m : MultiSite_modules) (fused_features : list shape) :
  MultiSitePulseDetectionNet_init [c0] enable_fusion true None = Ok m ->
  ms_all_pairs m = Some [] /\
  exists e, ptt_branch (bind_modules training methods m) fused_features = Raise e.
Proof.
  intros Hinit.
  destruct (MultiSitePulseDetectionNet_init_heads _ _ _ _ Hinit)
    as (c0' & h' & heads & _ & _ & Hpairs & Hheads & _).
  split; [exact Hpairs|].
  unfold ptt_branch.
  destruct (list_comp t_mean1 fused_features) as [pooled|e]; [|by eexists].
  cbn [mbind result_bind bind_modules all_pairs ptt_regression_heads].
  rewrite Hpairs. by eexists.
Qed.

Lemma single_site_regression_raises_witness :
  exists (m : MultiSite_modules) e,
    MultiSitePulseDetectionNet_init [scenario_config 21] true true None = Ok m /\
    ms_all_pairs m = Some [] /\
    ptt_branch (bind_modules true PulseDetectionNet_methods m) [[16; 625; 256]]
    = Raise e.
Proof.
  destruct (MultiSitePulseDetectionNet_init [scenario_config 21] true true None)
    as [m|e] eqn:Hinit; [|vm_compute in Hinit; discriminate].
  destruct (single_site_regression_raises true PulseDetectionNet_methods
              (scenario_config 21) true m [[16; 625; 256]] Hinit) as [Hp [e He]].
  exists m, e. split; [reflexivity|]. split; [exact Hp|exact He].
Defined.

(** ** The fusion block keeps samples and sites apart *)

Lemma column_lookup {X} (s n : nat) (M : list (list X)) :
  Forall (fun r => (s < length r)%nat) M ->
  column s M !! n = M !! n ≫= (fun r => r !! s).
Proof.
  intros Hall. revert n. induction Hall as [|r M Hr _ IH]; intros n; [done|].
  unfold column in *. cbn [omap list_omap].
  destruct (lookup_lt_is_Some_2 r s Hr) as [x Hx]. rewrite Hx.
  destruct n as [|n]; simpl; [by rewrite Hx|apply IH].
Qed.

Lemma transpose_lookup {X} (rows cols i : nat) (M : list (list X)) :
  (0 < rows)%nat -> is_matrix rows cols M -> (i < cols)%nat ->
  transpose M !! i = Some (column i M).
Proof.
  intros Hrows HM Hi. rewrite <- (columns_transpose rows cols M Hrows HM).
  by rewrite list_lookup_fmap, lookup_seq_lt.
Qed.

Section FusionSamples.
Context {V : Type}.
Variable site_attention_v : list V -> list V.
Variable temporal_attention_v : list V -> list V.
Variable vadd : V -> V -> V.
Variable norm1_v : V -> V.
Variable norm2_v : V -> V.
Hypothesis site_attention_length : forall s, length (site_attention_v s) = length s.
Hypothesis temporal_attention_length :
  forall s, length (temporal_attention_v s) = length s.

(** X17. Through the stacking, transpositions and reshapes of
    [CrossSiteTemporalAttention.forward], the features of sample [n] at
    site [s] of the result are those the two attention stages compute from
    the features of sample [n] alone (its sites and timepoints), at site
    [s]: no entry of another sample is used, and the sites keep their
    order. *)
Theorem fusion_keeps_samples_apart (S N L : nat)
    (site_features : list (list (list V))) (s n : nat) :
  (0 < L)%nat -> length site_features = S ->
  Forall (is_matrix N L) site_features ->
  (s < S)%nat -> (n < N)%nat ->
  CrossSiteTemporalAttention_forward_v site_attention_v temporal_attention_v
    vadd norm1_v norm2_v site_features !! s ≫= (fun out => out !! n)
  = fuse_sample site_attention_v temporal_attention_v vadd norm1_v norm2_v
      (column n site_features) !! s.
Proof using site_attention_length temporal_attention_length.
  intros HL Hlen Hall Hs Hn.
  assert (0 < S)%nat as HS by lia. assert (0 < N)%nat as HN by lia.
  destruct (CrossSiteTemporalAttention_forward_v_sites site_attention_v
              temporal_attention_v vadd norm1_v norm2_v site_attention_length
              temporal_attention_length S N L site_features HS HN HL Hlen Hall)
    as (-> & _ & _).
  unfold fuse_sites.
  assert (is_matrix S N site_features) as Hsf.
  { split; [done|]. eapply Forall_impl; [exact Hall|]. by intros M [? _]. }
  pose proof (transpose_is_matrix S N site_features HS Hsf) as Hstacked.
  set (stacked := transpose site_features) in *.
  assert (Forall (is_matrix S L) stacked) as Hsamples.
  { destruct Hstacked as [_ Hrows]. apply Forall_forall. intros sample Hin. split.
    - rewrite Forall_forall in Hrows. by apply Hrows.
    - assert (Forall (Forall (fun row : list V => length row = L)) stacked) as Hent.
      { apply transpose_Forall. eapply Forall_impl; [exact Hall|]. by intros M [_ ?]. }
      rewrite Forall_forall in Hent. by apply Hent. }
  assert (Forall (is_matrix S L)
            (fuse_sample site_attention_v temporal_attention_v vadd norm1_v norm2_v
             <$> stacked)) as Hfused.
  { apply Forall_fmap. eapply Forall_impl; [exact Hsamples|].
    intros sample Hsample. by apply fuse_sample_is_matrix. }
  rewrite (transpose_lookup N S s) by
    (first [lia | split; [rewrite length_fmap; apply Hstacked
                         |eapply Forall_impl; [exact Hfused|]; by intros M [? _]]]).
  cbn [mbind option_bind].
  rewrite column_lookup.
  2:{ eapply Forall_impl; [exact Hfused|]. intros M [HM _]. simpl. lia. }
  rewrite list_lookup_fmap. unfold stacked.
  rewrite (transpose_lookup S N n) by done. done.
Qed.

End FusionSamples.

Lemma fusion_keeps_samples_apart_witness :
  CrossSiteTemporalAttention_forward_v (V := Z) reverse (fun s => s) Z.add
    (fun v => v) (fun v => 2 * v) [[[1; 2]; [3; 4]]; [[5; 6]; [7; 8]]; [[9; 10]; [11; 12]]]
    !! 1%nat ≫= (fun out => out !! 0%nat)
  = fuse_sample (V := Z) reverse (fun s => s) Z.add (fun v => v) (fun v => 2 * v)
      (column 0 [[[1; 2]; [3; 4]]; [[5; 6]; [7; 8]]; [[9; 10]; [11; 12]]]) !! 1%nat.
Proof.
  apply (fusion_keeps_samples_apart (V := Z) reverse (fun s => s) Z.add
           (fun v => v) (fun v => 2 * v) (@length_reverse Z) (fun s => eq_refl)
           3 2 2).
  - lia.
  - reflexivity.
  - repeat constructor.
  - lia.
  - lia.
Defined.

(** ** [load_pretrained]: pairing of networks and paths, strict loading *)

Lemma py_zip_take {A B} (xs : list A) (ys : list B) :
  py_zip xs ys = py_zip xs (take (length xs) ys).
Proof.
  revert ys. induction xs as [|x xs IH]; intros [|y ys]; simpl; try done.
  by rewrite <- IH.
Qed.

Lemma py_zip_length {A B} (xs : list A) (ys : list B) :
  length (py_zip xs ys) = (length xs `min` length ys)%nat.
Proof.
  revert ys. induction xs as [|x xs IH]; intros [|y ys]; simpl; try done.
  by rewrite IH.
Qed.

(** X18. [load_pretrained] pairs networks and paths with [zip]: networks
    beyond the last path are left as they were, paths beyond the last
    network are never opened, and the number of site networks does not
    change. *)
Theorem load_pretrained_pairs_by_zip {V : Type}
    (torch_load : string -> result (option (list (string * V))))
    (same_shape : V -> V -> bool)
    (site_networks : list (gmap string V)) (paths : list string) :
  load_pretrained torch_load same_shape site_networks paths
    = load_pretrained torch_load same_shape site_networks
        (take (length site_networks) paths) /\
  forall site_networks' : list (gmap string V),
    load_pretrained torch_load same_shape site_networks paths = Ok site_networks' ->
    length site_networks' = length site_networks /\
    forall i : nat, (length paths <= i)%nat ->
      site_networks' !! i = site_networks !! i.
Proof.
  split.
  - unfold load_pretrained. rewrite <- py_zip_take.
    destruct (list_comp _ (py_zip site_networks paths)) as [loaded|e]; [|done].
    cbn [mbind result_bind]. do 2 f_equal.
    destruct (decide (length paths <= length site_networks)%nat).
    + by rewrite take_ge by lia.
    + rewrite length_take, !drop_ge by lia. done.
  - unfold load_pretrained. intros nets' Hload.
    apply bind_Ok in Hload as (loaded & Hloaded & [= <-]).
    apply list_comp_Ok_length in Hloaded. rewrite py_zip_length in Hloaded.
    split.
    + rewrite length_app, length_drop. lia.
    + intros i Hi. destruct (decide (length site_networks <= length paths)%nat).
      * rewrite drop_ge, app_nil_r by lia.
        rewrite !lookup_ge_None_2; [done|lia..].
      * rewrite lookup_app_r by lia. rewrite lookup_drop. f_equal. lia.
Qed.

(** X19. [load_state_dict] is strict: whenever [load_pretrained] returns,
    every site network still has exactly the entries it had before, each
    loaded tensor fitting the one it replaces; so a checkpoint whose renamed
    keys miss an entry of the network or bring an unknown one makes the call
    raise. *)
Theorem load_pretrained_keeps_keys {V : Type}
    (torch_load : string -> result (option (list (string * V))))
    (same_shape : V -> V -> bool)
    (site_networks site_networks' : list (gmap string V)) (paths : list string) :
  load_pretrained torch_load same_shape site_networks paths = Ok site_networks' ->
  forall (i : nat) (network : gmap string V),
    site_networks !! i = Some network ->
    exists network', site_networks' !! i = Some network' /\
      dom network' = dom network /\
      forall k v v', network !! k = Some v -> network' !! k = Some v' ->
        (i < length paths)%nat -> same_shape v v' = true.
Proof.
  unfold load_pretrained. intros Hload i network Hnet.
  apply bind_Ok in Hload as (loaded & Hloaded & [= <-]).
  pose proof (list_comp_Ok_length _ _ _ Hloaded) as Hlen.
  rewrite py_zip_length in Hlen.
  destruct (paths !! i) as [path|] eqn:Hpath.
  - destruct (list_comp_lookup _ _ _ i (network, path) Hloaded
                (py_zip_lookup _ _ _ _ _ Hnet Hpath)) as (st & Hst & Hf).
    simpl in Hf.
    apply bind_Ok in Hf as (checkpoint & Hck & Hf).
    apply bind_Ok in Hf as (state_dict & Hsd & Hf).
    unfold load_state_dict in Hf.
    destruct (decide _) as [Hdom|]; [|discriminate].
    destruct (decide _) as [Hfits|]; [|discriminate].
    injection Hf as <-.
    exists (new_state_dict state_dict). split.
    { rewrite lookup_app_l; [done|]. by eapply lookup_lt_Some. }
    split; [done|]. intros k v v' Hv Hk _.
    specialize (Hfits k v' Hk). unfold fits in Hfits. by rewrite Hv in Hfits.
  - apply lookup_ge_None in Hpath.
    apply lookup_lt_Some in Hnet as Hi.
    exists network. split.
    { rewrite lookup_app_r by lia. rewrite lookup_drop, <- Hnet. f_equal. lia. }
    split; [done|]. intros k v v' _ _ Hlt. lia.
Qed.

Lemma load_pretrained_keeps_keys_witness :
  exists network',
    [new_state_dict [("model.final.0.weight", 1); ("model.final.0.bias", 2)]] !! 0%nat
      = Some network' /\
    dom network' = dom demo_site_state /\
    forall k v v', demo_site_state !! k = Some v -> network' !! k = Some v' ->
      (0 < length ["site0.ckpt"])%nat -> (fun _ _ : Z => true) v v' = true.
Proof.
  apply (load_pretrained_keeps_keys demo_torch_load (fun _ _ => true)
           [demo_site_state] _ ["site0.ckpt"]
           ltac:(vm_compute; reflexivity) 0%nat demo_site_state).
  reflexivity.
Defined.

(** ** Freezing: all sites, and repeated calls *)

Section FreezeAll.
Context {V : Type}.

Lemma set_requires_grad_twice (f1 f2 : bool) (p : nn_Parameter V) :
  set_requires_grad f2 (set_requires_grad f1 p) = set_requires_grad f2 p.
Proof. done. Qed.

Lemma flag_parameters_twice (f1 f2 : bool) (ids : list nat)
    (st : list (nn_Parameter V)) :
  flag_parameters f2 ids (flag_parameters f1 ids st) = flag_parameters f2 ids st.
Proof.
  apply list_eq. intros id. destruct (decide (id ∈ ids)).
  - rewrite !flag_parameters_member by done. by destruct (st !! id).
  - by rewrite !flag_parameters_other.
Qed.

Lemma set_site_requires_grad_twice (f1 f2 : bool) (site_idx : Z)
    (m : ModuleParameters V) :
  set_site_requires_grad f1 site_idx m ≫= set_site_requires_grad f2 site_idx
  = set_site_requires_grad f2 site_idx m.
Proof.
  unfold set_site_requires_grad.
  destruct (site_position _ site_idx) as [i|e] eqn:Hpos; [|done].
  cbn [mbind result_bind].
  destruct (py_nth (site_parameters m) i) as [ids|e] eqn:Hids; [|done].
  cbn [mbind result_bind with_store site_parameters store
       cross_site_attention_parameters ptt_regression_head_parameters].
  rewrite Hpos. cbn [mbind result_bind]. rewrite Hids. cbn [mbind result_bind].
  unfold with_store. cbn. by rewrite flag_parameters_twice.
Qed.

(** X20. Freezing and unfreezing one site are idempotent and the last call
    wins, whatever the index (an invalid index raises the same error either
    way); on a site whose parameters were all trainable, as they are after
    construction, [unfreeze_site] undoes [freeze_site] exactly. *)
Theorem freeze_unfreeze_compose (site_idx : Z) (m : ModuleParameters V) :
  freeze_site site_idx m ≫= freeze_site site_idx = freeze_site site_idx m /\
  unfreeze_site site_idx m ≫= unfreeze_site site_idx = unfreeze_site site_idx m /\
  freeze_site site_idx m ≫= unfreeze_site site_idx = unfreeze_site site_idx m /\
  unfreeze_site site_idx m ≫= freeze_site site_idx = freeze_site site_idx m /\
  forall (i : nat) (ids : list nat),
    site_position (length (site_parameters m)) site_idx = Ok i ->
    site_parameters m !! i = Some ids ->
    (forall id p, id ∈ ids -> store m !! id = Some p -> requires_grad p = true) ->
    freeze_site site_idx m ≫= unfreeze_site site_idx = Ok m.
Proof.
  unfold freeze_site, unfreeze_site.
  repeat split; try apply set_site_requires_grad_twice.
  intros i ids Hpos Hids Htrain.
  rewrite set_site_requires_grad_twice. unfold set_site_requires_grad.
  rewrite Hpos. cbn [mbind result_bind]. unfold py_nth. rewrite Hids.
  cbn [mbind result_bind]. f_equal.
  destruct m as [st sites att heads]. unfold with_store. cbn in *. f_equal.
  apply list_eq. intros id. destruct (decide (id ∈ ids)) as [Hin|Hnotin].
  - rewrite flag_parameters_member by done.
    destruct (st !! id) as [p|] eqn:Hp; [|done]. simpl. f_equal.
    specialize (Htrain id p Hin Hp). destruct p as [d g]. simpl in *. by subst g.
  - by rewrite flag_parameters_other.
Qed.

Lemma freeze_sites_run (m : ModuleParameters V) (idxs : list nat) :
  (forall i, i ∈ idxs -> (i < length (site_parameters m))%nat) ->
  exists st' : list (nn_Parameter V),
    for_each (fun m i => freeze_site i m) (Z.of_nat <$> idxs) m = Ok (with_store st' m) /\
    length st' = length (store m) /\
    forall id,
      st' !! id
      = if decide (Exists (fun i => id ∈ default [] (site_parameters m !! i)) idxs)
        then set_requires_grad false <$> store m !! id
        else store m !! id.
Proof.
  revert m. induction idxs as [|i idxs IH]; intros m Hvalid.
  - exists (store m). split; [by destruct m|]. split; [done|].
    intros id. rewrite decide_False; [done|]. by intros ?%Exists_nil.
  - assert (i < length (site_parameters m))%nat as Hi by (apply Hvalid; left).
    destruct (lookup_lt_is_Some_2 _ _ Hi) as [ids Hids].
    assert (freeze_site (Z.of_nat i) m
            = Ok (with_store (flag_parameters false ids (store m)) m)) as Hstep.
    { unfold freeze_site, set_site_requires_grad, site_position.
      rewrite decide_True by lia. rewrite decide_False by lia.
      cbn [mbind result_bind]. rewrite Nat2Z.id. unfold py_nth. by rewrite Hids. }
    destruct (IH (with_store (flag_parameters false ids (store m)) m))
      as (st' & Hrun & Hlen & Hst').
    { intros j Hj. apply Hvalid. by right. }
    exists st'. rewrite fmap_cons. cbn [for_each]. rewrite Hstep.
    cbn [mbind result_bind]. split; [exact Hrun|]. split.
    { rewrite Hlen. apply flag_parameters_length. }
    intros id. rewrite Hst'. cbn [with_store store site_parameters].
    destruct (decide (id ∈ ids)) as [Hin|Hnotin].
    + rewrite (decide_True (P := Exists _ (i :: idxs))).
      2:{ apply Exists_cons_hd. by rewrite Hids. }
      rewrite flag_parameters_member by done.
      destruct (decide _); by destruct (store m !! id).
    + rewrite flag_parameters_other by done.
      destruct (decide (Exists _ idxs)) as [Hex|Hno].
      * rewrite decide_True; [done|]. by apply Exists_cons_tl.
      * rewrite decide_False; [done|]. intros Hex.
        apply Exists_cons in Hex as [Hhd|Htl]; [|done].
        by rewrite Hids in Hhd.
Qed.

(** X21. [freeze_all_sites] returns; afterwards every parameter of every
    site network has [requires_grad = False], no parameter value has
    changed, and in an orchestrator whose site networks share no parameter
    with the fusion block or a regression head the parameters of those are
    as before, flags included. *)
Theorem freeze_all_sites_frame (m : ModuleParameters V) :
  separate_ownership m ->
  exists m' : ModuleParameters V,
    freeze_all_sites (Z.of_nat (length (site_parameters m))) m = Ok m' /\
    site_parameters m' = site_parameters m /\
    cross_site_attention_parameters m' = cross_site_attention_parameters m /\
    ptt_regression_head_parameters m' = ptt_regression_head_parameters m /\
    length (store m') = length (store m) /\
    (forall i ids id p, site_parameters m !! i = Some ids -> id ∈ ids ->
       store m' !! id = Some p -> requires_grad p = false) /\
    (forall id, p_data <$> store m' !! id = p_data <$> store m !! id) /\
    (forall id, id ∈ cross_site_attention_parameters m ->
       store m' !! id = store m !! id) /\
    (forall key ids_h id, ptt_regression_head_parameters m !! key = Some ids_h ->
       id ∈ ids_h -> store m' !! id = store m !! id).
Proof.
  intros (Hsites & Hatt & Hheads).
  destruct (freeze_sites_run m (seq 0 (length (site_parameters m))))
    as (st' & Hrun & Hlen & Hst').
  { intros i Hi. apply elem_of_seq in Hi. lia. }
  exists (with_store st' m). split.
  { unfold freeze_all_sites, py_range. by rewrite Nat2Z.id. }
  unfold with_store. cbn [store site_parameters cross_site_attention_parameters
                          ptt_regression_head_parameters].
  assert (forall i ids id, site_parameters m !! i = Some ids -> id ∈ ids ->
            Exists (fun i => id ∈ default [] (site_parameters m !! i))
                   (seq 0 (length (site_parameters m)))) as Hex.
  { intros i ids id Hids Hid. apply Exists_exists. exists i. split.
    - apply elem_of_seq. apply lookup_lt_Some in Hids. lia.
    - by rewrite Hids. }
  assert (forall id,
            (forall i ids, site_parameters m !! i = Some ids -> id ∉ ids) ->
            st' !! id = store m !! id) as Hout.
  { intros id Hnone. rewrite Hst', decide_False; [done|].
    intros (i & _ & Hi)%Exists_exists.
    destruct (site_parameters m !! i) as [ids|] eqn:Hids; simpl in Hi.
    - by apply (Hnone i ids).
    - by apply elem_of_nil in Hi. }
  repeat split; try done.
  - intros i ids id p Hids Hid Hp.
    rewrite Hst', decide_True in Hp by eauto.
    destruct (store m !! id); simpl in Hp; [|done]. by injection Hp as <-.
  - intros id. rewrite Hst'. destruct (decide _); [|done].
    by destruct (store m !! id).
  - intros id Hid. apply Hout. intros k ids_k Hidsk Hidk.
    by apply (Hatt k ids_k id).
  - intros key ids_h id Hh Hid. apply Hout. intros k ids_k Hidsk Hidk.
    by apply (Hheads k ids_k key ids_h id).
Qed.

End FreezeAll.

Lemma freeze_unfreeze_compose_witness :
  freeze_site 1 demo_parameters ≫= unfreeze_site 1 = Ok demo_parameters.
Proof.
  destruct (freeze_unfreeze_compose 1 demo_parameters) as (_ & _ & _ & _ & H).
  apply (H 1%nat [2%nat]).
  - reflexivity.
  - reflexivity.
  - intros id p Hid Hp. apply list_elem_of_singleton in Hid. subst id.
    vm_compute in Hp. by injection Hp as <-.
Defined.

Lemma freeze_all_sites_frame_witness :
  exists m' : ModuleParameters Z,
    freeze_all_sites 3 demo_parameters = Ok m' /\
    requires_grad <$> store m' = [false; false; false; false; true; true].
Proof.
  destruct (freeze_all_sites_frame demo_parameters) as (m' & Hrun & _).
  - apply init_parameters_separate.
  - exists m'. split; [exact Hrun|].
    vm_compute in Hrun. by injection Hrun as <-.
Defined.

(** ** [_load_data] before the loading loop *)

Section Prologue.
Variable Raw : Type.
Variable num_samples : Raw -> Z.

Lemma count_samples_joint (names : list string) (files : list (archive Raw)) :
  forall acc : Z,
  match for_each (fun total_samples (loaded_data : archive Raw) =>
                    label ← archive_get Raw loaded_data "head_label";
                    Ok (total_samples + num_samples label)) files acc with
  | Ok _ => Forall (fun f : archive Raw => is_Some (f "head_label")) files
  | Raise e => e = KeyError "head_label"
               /\ Exists (fun f : archive Raw => f "head_label" = None) files
  end.
Proof.
  induction files as [|f files IH]; intros acc; simpl; [constructor|].
  unfold archive_get. destruct (f "head_label") as [label|] eqn:Hf; simpl.
  - specialize (IH (acc + num_samples label)).
    destruct (for_each _ files _) as [total|e].
    + constructor; [by rewrite Hf|done].
    + destruct IH as [-> Hex]. split; [done|]. by apply Exists_cons_tl.
  - split; [done|]. by apply Exists_cons_hd.
Qed.

(** X22. With a list of positions (joint loading), [_load_data] never
    reaches its loading loop: it raises [FileNotFoundError] without files,
    [KeyError] when a file lacks ['head_label'], and otherwise
    [AttributeError] at the pre-allocation, where [self.data] is still the
    empty list and [sample_data] is [None]. *)
Theorem joint_load_data_raises (names : list string) (files : list (archive Raw)) :
  exists e, load_data_prologue Raw num_samples (Positions names) files = Raise e /\
    (e = FileNotFoundError "No files found" /\ files = [] \/
     e = KeyError "head_label" /\
       Exists (fun f : archive Raw => f "head_label" = None) files \/
     e = AttributeError "'NoneType' object has no attribute 'shape'" /\
       files <> [] /\
       Forall (fun f : archive Raw => is_Some (f "head_label")) files).
Proof.
  unfold load_data_prologue. destruct files as [|f files]; [eauto 6|].
  unfold count_samples.
  match goal with
  | |- context [for_each ?body ?l ?a] =>
      pose proof (count_samples_joint names l a) as Hcount;
      change (for_each _ l a) with (for_each body l a) in Hcount;
      destruct (for_each body l a) as [total|e]
  end; cbn [mbind result_bind].
  - eexists. split; [reflexivity|]. right. right. done.
  - destruct Hcount as [-> Hex]. eexists. split; [reflexivity|]. right. left. done.
Qed.

Lemma count_samples_single (name : string) (files : list (archive Raw)) :
  forall acc : Z,
  for_each (fun total_samples (loaded_data : archive Raw) =>
              match loaded_data (name +:+ "_label") with
              | None => Ok total_samples
              | Some label => Ok (total_samples + num_samples label)
              end) files acc
  = Ok (acc + foldr Z.add 0
                (num_samples <$> omap (fun f : archive Raw => f (name +:+ "_label")) files)).
Proof.
  induction files as [|f files IH]; intros acc; simpl.
  - f_equal. lia.
  - destruct (f (name +:+ "_label")) as [label|]; simpl; rewrite IH; f_equal.
    symmetry. apply Z.add_assoc.
Qed.

(** X23. For a single position, [_load_data] counts the samples of the
    files that hold ['<position>_label'] (files without that key are
    skipped) and pre-allocates tensors of that many rows with the fixed
    extents [5000 x 42] and [5000 x 1], whatever the arrays in the files
    look like. *)
Theorem single_load_data_prologue (name : string) (files : list (archive Raw)) :
  files <> [] ->
  let total :=
    foldr Z.add 0
      (num_samples <$> omap (fun f : archive Raw => f (name +:+ "_label")) files) in
  load_data_prologue Raw num_samples (Position name) files
  = Ok ([total; 5000; 42], [total; 5000; 1]).
Proof.
  intros Hne. unfold load_data_prologue. destruct files as [|f files]; [done|].
  unfold count_samples. rewrite count_samples_single. done.
Qed.

End Prologue.

Lemma single_load_data_prologue_witness :
  load_data_prologue (list (list (list R))) (fun a => Z.of_nat (length a))
    (Position "head") [demo_archive; (fun _ => None); demo_archive]
  = Ok ([2; 5000; 42], [2; 5000; 1]).
Proof.
  apply (single_load_data_prologue (list (list (list R)))
           (fun a => Z.of_nat (length a)) "head"
           [demo_archive; (fun _ => None); demo_archive]).
  discriminate.
Defined.

(** ** Joint loading *)

Section JointLoading.
Variable Raw : Type.
Variable sum_axis2 : Raw -> Raw.
Variable reshape_channels : Raw -> Raw.
Variable unwrapped_phase : Raw -> list (list (list R)).
Variable magnitude : Raw -> list (list (list R)).
Variable num_samples : Raw -> Z.
Variable store_rows : shape * shape -> Z -> file_data Raw -> result unit.

(** C9.  With a list of positions [_load_data] never returns: it raises
    before its loading loop, whatever the files hold, whatever [norm_2d]
    is and whatever the writes into the tensors would do, so no array is
    loaded and none is normalised.  When there are files and each holds
    ['head_label'], the exception is the [AttributeError] of the
    pre-allocation, where [self.data] is still the empty list of
    [__init__] and [sample_data] is [None]. *)
Theorem joint_loading_raises_before_normalisation (names : list string)
    (types : signal_type) (norm_2d : bool) (files : list (archive Raw)) :
  (exists e,
     load_data Raw sum_axis2 reshape_channels unwrapped_phase magnitude num_samples
       store_rows (Positions names) types norm_2d files = Raise e) /\
  (files <> [] ->
   Forall (fun f : archive Raw => is_Some (f "head_label")) files ->
   load_data Raw sum_axis2 reshape_channels unwrapped_phase magnitude num_samples
     store_rows (Positions names) types norm_2d files
   = Raise (AttributeError "'NoneType' object has no attribute 'shape'")).
Proof.
  unfold load_data, load_data_prologue.
  destruct files as [|f files]; [split; [by eexists|done]|].
  unfold count_samples.
  match goal with
  | |- context [for_each ?body ?l ?a] =>
      pose proof (count_samples_joint Raw num_samples names l a) as Hcount;
      change (for_each _ l a) with (for_each body l a) in Hcount;
      destruct (for_each body l a) as [total|e]
  end; cbn [mbind result_bind preallocate is_joint].
  - split; [by eexists|done].
  - destruct Hcount as [-> Hex]. split; [by eexists|].
    intros _ Hall. exfalso.
    apply Exists_exists in Hex as (g & Hg & Hnone).
    rewrite Forall_forall in Hall. specialize (Hall g Hg).
    rewrite Hnone in Hall. by destruct Hall.
Qed.

End JointLoading.

Lemma joint_loading_raises_before_normalisation_witness :
  load_data (list (list (list R))) (fun a => a) (fun a => a) (fun a => a)
    (fun a => a) (fun a => Z.of_nat (length a)) store_exact
    (Positions ["head"; "heart"; "wrist"]) (SignalTypes ["phase"; "phase"; "phase"])
    true [demo_archive]
  = Raise (AttributeError "'NoneType' object has no attribute 'shape'").
Proof.
  apply (joint_loading_raises_before_normalisation (list (list (list R)))
           (fun a => a) (fun a => a) (fun a => a) (fun a => a)
           (fun a => Z.of_nat (length a)) store_exact
           ["head"; "heart"; "wrist"] (SignalTypes ["phase"; "phase"; "phase"])
           true [demo_archive]).
  - discriminate.
  - repeat constructor. by eexists.
Defined.

(** ** Normalisation: gain, offset and repetition *)

Section Invariance.
Local Open Scope R_scope.

Lemma sum_list_fmap_affine (a b : R) (l : list R) :
  sum_list ((fun x => a * x + b) <$> l) = a * sum_list l + INR (length l) * b.
Proof.
  induction l as [|x l IH]; [simpl; ring|].
  rewrite fmap_cons, !sum_list_cons, IH. cbn [length]. rewrite S_INR. ring.
Qed.

Lemma np_mean_affine (a b : R) (l : list R) :
  l <> [] -> np_mean ((fun x => a * x + b) <$> l) = a * np_mean l + b.
Proof.
  intros Hne. unfold np_mean. rewrite sum_list_fmap_affine, length_fmap.
  assert (INR (length l) <> 0).
  { apply not_0_INR. destruct l; [done|simpl; lia]. }
  by field.
Qed.

Lemma np_var_affine (a b : R) (l : list R) :
  l <> [] -> np_var ((fun x => a * x + b) <$> l) = a * a * np_var l.
Proof.
  intros Hne. unfold np_var. rewrite np_mean_affine by done.
  rewrite <- list_fmap_compose. generalize (np_mean l). intros m.
  rewrite (list_fmap_ext _ (fun x => (a * a) * ((x - m) * (x - m))) l);
    [|intros i x _; simpl; ring].
  unfold np_mean. rewrite !length_fmap.
  rewrite (sum_list_scale _ (fun x => (x - m) * (x - m))).
  unfold Rdiv. ring.
Qed.

Lemma np_std_affine (a b : R) (l : list R) :
  l <> [] -> 0 <= a -> np_std ((fun x => a * x + b) <$> l) = a * np_std l.
Proof.
  intros Hne Ha. unfold np_std. rewrite np_var_affine by done.
  rewrite sqrt_mult_alt by (apply Rmult_le_pos; lra).
  by rewrite sqrt_square.
Qed.

(** Standardising a vector does not see a positive gain or an offset. *)
Lemma standardize_affine (a b : R) (l : list R) :
  0 < a -> np_std l <> 0 ->
  (fun x => (x - np_mean ((fun x => a * x + b) <$> l))
            / np_std ((fun x => a * x + b) <$> l)) <$> ((fun x => a * x + b) <$> l)
  = (fun x => (x - np_mean l) / np_std l) <$> l.
Proof.
  intros Ha Hstd. destruct (decide (l = [])) as [->|Hne]; [done|].
  rewrite np_mean_affine, np_std_affine by (done || lra).
  rewrite <- list_fmap_compose. apply list_fmap_ext. intros i x _. simpl.
  field. split; [done|lra].
Qed.

(** A standardised vector is left as it is. *)
Lemma standardize_standardized (l : list R) :
  standardized l -> (fun x => (x - np_mean l) / np_std l) <$> l = l.
Proof.
  intros [Hmean Hvar]. unfold np_std. rewrite Hmean, Hvar, sqrt_1.
  rewrite <- (list_fmap_id l) at 2. apply list_fmap_ext. intros i x _. simpl.
  unfold Datatypes.id. field.
Qed.

Lemma normalize_sample_global_rows (M : list (list R)) :
  normalize_sample_global M
  = (fun row : list R =>
       (fun x => (x - np_mean (concat M)) / np_std (concat M)) <$> row) <$> M.
Proof.
  unfold normalize_sample_global, reduce_time_channel. cbn [broadcast].
  rewrite <- list_fmap_compose. apply list_fmap_ext. intros i row _. simpl.
  rewrite <- list_fmap_compose. by apply list_fmap_ext.
Qed.

Lemma concat_fmap_fmap {X Y} (f : X -> Y) (M : list (list X)) :
  concat ((fun row : list X => f <$> row) <$> M) = f <$> concat M.
Proof. symmetry. apply fmap_concat. Qed.

Lemma normalize_sample_global_gain_offset (a b : R) (M : list (list R)) :
  0 < a -> np_std (concat M) <> 0 ->
  normalize_sample_global ((fun row : list R => (fun x => a * x + b) <$> row) <$> M)
  = normalize_sample_global M.
Proof.
  intros Ha Hstd. rewrite !normalize_sample_global_rows, concat_fmap_fmap.
  rewrite <- list_fmap_compose. apply list_fmap_ext. intros i row _. simpl.
  destruct (decide (concat M = [])) as [Hnil|Hne].
  { rewrite Hnil in Hstd. exfalso. apply Hstd. unfold np_std, np_var, np_mean.
    simpl. unfold Rdiv. rewrite Rmult_0_l. apply sqrt_0. }
  rewrite np_mean_affine, np_std_affine by (done || lra).
  rewrite <- list_fmap_compose. apply list_fmap_ext. intros j x _. simpl.
  field. split; [done|lra].
Qed.

Lemma normalize_sample_global_idempotent (M : list (list R)) :
  np_std (concat M) <> 0 ->
  normalize_sample_global (normalize_sample_global M) = normalize_sample_global M.
Proof.
  intros Hstd.
  assert (concat M <> []) as Hne.
  { intros Hnil. rewrite Hnil in Hstd. apply Hstd. unfold np_std, np_var, np_mean.
    simpl. unfold Rdiv. rewrite Rmult_0_l. apply sqrt_0. }
  pose proof (normalize_sample_global_standardized M Hne Hstd) as [Hmean Hvar].
  rewrite (normalize_sample_global_rows (normalize_sample_global M)).
  unfold np_std at 1. rewrite Hmean, Hvar, sqrt_1.
  rewrite <- (list_fmap_id (normalize_sample_global M)) at 2.
  apply list_fmap_ext. intros i row _. simpl.
  rewrite <- (list_fmap_id row) at 2. apply list_fmap_ext. intros j x _. simpl.
  unfold Datatypes.id. field.
Qed.

(** *** Per channel *)

Lemma transpose_involutive {X} (rows cols : nat) (M : list (list X)) :
  (0 < rows)%nat -> (0 < cols)%nat -> is_matrix rows cols M ->
  transpose (transpose M) = M.
Proof.
  intros Hrows Hcols HM.
  pose proof (transpose_is_matrix rows cols M Hrows HM) as HT.
  pose proof (transpose_is_matrix cols rows (transpose M) Hcols HT) as HTT.
  destruct HM as [Hlen Hall]. apply list_eq. intros n.
  destruct (decide (n < rows)%nat) as [Hn|Hn].
  - rewrite (transpose_lookup cols rows n) by done.
    destruct (lookup_lt_is_Some_2 M n ltac:(lia)) as [row Hrow]. rewrite Hrow.
    f_equal. apply list_eq. intros i.
    rewrite column_lookup.
    2:{ destruct HT as [_ HTall]. eapply Forall_impl; [exact HTall|].
        intros r Hr. simpl in *. lia. }
    assert (length row = cols) as Hr.
    { rewrite Forall_forall in Hall. apply Hall. by eapply list_elem_of_lookup_2. }
    destruct (decide (i < cols)%nat) as [Hi|Hi].
    + rewrite (transpose_lookup rows cols i) by done. cbn [mbind option_bind].
      rewrite column_lookup.
      2:{ eapply Forall_impl; [exact Hall|]. intros r Hr'. simpl in *. lia. }
      by rewrite Hrow.
    + rewrite (lookup_ge_None_2 (transpose M)) by (destruct HT; lia).
      by rewrite lookup_ge_None_2 by lia.
  - rewrite !lookup_ge_None_2; [done|lia|destruct HTT; lia].
Qed.

Lemma normalize_sample_per_channel_is_matrix (rows cols : nat) (M : list (list R)) :
  (0 < rows)%nat -> is_matrix rows cols M ->
  is_matrix rows cols (normalize_sample_per_channel M).
Proof.
  intros Hrows HM.
  destruct (transpose_is_matrix rows cols M Hrows HM) as [Hlen _].
  destruct HM as [HlenM Hrow].
  unfold normalize_sample_per_channel, reduce_time. cbn [broadcast].
  split; [by rewrite !length_fmap|].
  apply Forall_fmap, Forall_fmap. eapply Forall_impl; [exact Hrow|].
  intros row Hr. simpl in *.
  rewrite (broadcast_same_length Rminus) by (by rewrite length_fmap, Hlen).
  rewrite (broadcast_same_length Rdiv)
    by (by rewrite length_zip_with, !length_fmap, Hlen, Hr, Nat.min_id).
  rewrite !length_zip_with, !length_fmap, Hlen, Hr. lia.
Qed.

(** Two matrices of one shape with the same columns are equal. *)
Lemma transpose_inj {X} (rows cols : nat) (M M' : list (list X)) :
  (0 < rows)%nat -> (0 < cols)%nat -> is_matrix rows cols M -> is_matrix rows cols M' ->
  transpose M = transpose M' -> M = M'.
Proof.
  intros Hrows Hcols HM HM' Heq.
  rewrite <- (transpose_involutive rows cols M), <- (transpose_involutive rows cols M')
    by done.
  by rewrite Heq.
Qed.

Lemma standardize_columns_gain_offset (cols : list (list R)) (gains : list (R * R)) :
  length cols = length gains ->
  Forall (fun g : R * R => 0 < g.1) gains ->
  Forall (fun col => np_std col <> 0) cols ->
  (fun col => (fun x => (x - np_mean col) / np_std col) <$> col)
    <$> zip_with (fun col (g : R * R) => (fun x => g.1 * x + g.2) <$> col) cols gains
  = (fun col => (fun x => (x - np_mean col) / np_std col) <$> col) <$> cols.
Proof.
  revert gains. induction cols as [|col cols IH]; intros [|g gains] Hlen Hg Hstd;
    simpl in Hlen; try done.
  apply Forall_cons in Hg as [Hg0 Hg]. apply Forall_cons in Hstd as [Hs0 Hstd].
  cbn [zip_with]. rewrite !fmap_cons. f_equal; [|apply IH; [lia|done..]].
  by apply standardize_affine.
Qed.

Lemma normalize_sample_per_channel_gain_offset (rows cols : nat)
    (gains : list (R * R)) (M : list (list R)) :
  (0 < rows)%nat -> (0 < cols)%nat -> is_matrix rows cols M ->
  length gains = cols ->
  Forall (fun g : R * R => 0 < g.1) gains ->
  Forall (fun col => np_std col <> 0) (transpose M) ->
  normalize_sample_per_channel
    ((fun row : list R => zip_with (fun x (g : R * R) => g.1 * x + g.2) row gains) <$> M)
  = normalize_sample_per_channel M.
Proof.
  intros Hrows Hcols HM Hgains Hpos Hstd.
  assert (is_matrix rows cols
            ((fun row : list R =>
                zip_with (fun x (g : R * R) => g.1 * x + g.2) row gains) <$> M)) as HM'.
  { destruct HM as [Hlen Hall]. split; [by rewrite length_fmap|].
    apply Forall_fmap. eapply Forall_impl; [exact Hall|].
    intros row Hr. simpl in *. rewrite length_zip_with. lia. }
  apply (transpose_inj rows cols); try done;
    try (by apply normalize_sample_per_channel_is_matrix).
  rewrite !(normalize_sample_per_channel_columns rows cols) by done.
  rewrite (transpose_rowwise (fun x (g : R * R) => g.1 * x + g.2)).
  apply standardize_columns_gain_offset; [|done..].
  destruct (transpose_is_matrix rows cols M Hrows HM) as [-> _]. done.
Qed.

Lemma normalize_sample_per_channel_idempotent (rows cols : nat) (M : list (list R)) :
  (0 < rows)%nat -> (0 < cols)%nat -> is_matrix rows cols M ->
  Forall (fun col => np_std col <> 0) (transpose M) ->
  normalize_sample_per_channel (normalize_sample_per_channel M)
  = normalize_sample_per_channel M.
Proof.
  intros Hrows Hcols HM Hstd.
  pose proof (normalize_sample_per_channel_is_matrix rows cols M Hrows HM) as HN.
  apply (transpose_inj rows cols); try done;
    try (by apply normalize_sample_per_channel_is_matrix).
  rewrite (normalize_sample_per_channel_columns rows cols
             (normalize_sample_per_channel M)) by done.
  pose proof (normalize_sample_per_channel_standardized rows cols M Hrows HM Hstd)
    as Hcols'.
  unfold standardized_per_channel in Hcols'.
  rewrite <- (list_fmap_id (transpose (normalize_sample_per_channel M))) at 2.
  apply list_fmap_ext. intros i col Hi. unfold Datatypes.id.
  apply standardize_standardized.
  rewrite Forall_forall in Hcols'. apply Hcols'. by eapply list_elem_of_lookup_2.
Qed.

(** X24. Global normalisation ([norm_2d]) does not see a positive gain or
    an offset applied to the whole array: [a * data + b] and [data]
    normalise to the same array (for samples whose standard deviation is not
    zero). *)
Theorem normalize_global_gain_offset (a b : R) (data : list (list (list R))) :
  0 < a -> Forall (fun M => np_std (concat M) <> 0) data ->
  normalize_global
    ((fun M : list (list R) =>
        (fun row : list R => (fun x => a * x + b) <$> row) <$> M) <$> data)
  = normalize_global data.
Proof.
  intros Ha Hstd. rewrite !normalize_global_samples, <- list_fmap_compose.
  apply list_fmap_ext. intros i M HM. simpl.
  apply normalize_sample_global_gain_offset; [done|].
  rewrite Forall_forall in Hstd. apply Hstd. by eapply list_elem_of_lookup_2.
Qed.

(** X25. Per-channel normalisation does not see a positive gain or an
    offset that differs from channel to channel: every channel [c] scaled by
    [a_c > 0] and shifted by [b_c] normalises to the same array (for
    channels whose standard deviation is not zero). *)
Theorem normalize_per_channel_gain_offset (rows cols : nat) (gains : list (R * R))
    (data : list (list (list R))) :
  (0 < rows)%nat -> (0 < cols)%nat ->
  Forall (is_matrix rows cols) data ->
  length gains = cols ->
  Forall (fun g : R * R => 0 < g.1) gains ->
  Forall (fun M => Forall (fun col => np_std col <> 0) (transpose M)) data ->
  normalize_per_channel
    ((fun M : list (list R) =>
        (fun row : list R => zip_with (fun x (g : R * R) => g.1 * x + g.2) row gains)
        <$> M) <$> data)
  = normalize_per_channel data.
Proof.
  intros Hrows Hcols Hdata Hgains Hpos Hstd.
  rewrite !normalize_per_channel_samples, <- list_fmap_compose.
  apply list_fmap_ext. intros i M HM. simpl.
  apply list_elem_of_lookup_2 in HM.
  rewrite Forall_forall in Hdata, Hstd.
  apply (normalize_sample_per_channel_gain_offset rows cols); auto.
Qed.

(** X26. Normalising twice is normalising once, in either mode: the
    normalised array is a fixed point of the normalisation that produced it
    (for standard deviations that are not zero). *)
Theorem normalize_idempotent (norm_2d : bool) (rows cols : nat)
    (data : list (list (list R))) :
  (0 < rows)%nat -> (0 < cols)%nat ->
  Forall (is_matrix rows cols) data ->
  (if norm_2d then Forall (fun M => np_std (concat M) <> 0) data
   else Forall (fun M => Forall (fun col => np_std col <> 0) (transpose M)) data) ->
  let normalize := if norm_2d then normalize_global else normalize_per_channel in
  normalize (normalize data) = normalize data.
Proof.
  intros Hrows Hcols Hdata Hstd. destruct norm_2d; simpl.
  - rewrite !normalize_global_samples, <- list_fmap_compose.
    apply list_fmap_ext. intros i M HM. simpl.
    apply normalize_sample_global_idempotent.
    rewrite Forall_forall in Hstd. apply Hstd. by eapply list_elem_of_lookup_2.
  - rewrite !normalize_per_channel_samples, <- list_fmap_compose.
    apply list_fmap_ext. intros i M HM. simpl.
    apply list_elem_of_lookup_2 in HM.
    rewrite Forall_forall in Hdata, Hstd.
    apply (normalize_sample_per_channel_idempotent rows cols); auto.
Qed.

End Invariance.

Lemma normalize_global_gain_offset_witness :
  normalize_global
    ((fun M : list (list R) =>
        (fun row : list R => (fun x => 2 * x + 1)%R <$> row) <$> M) <$> [[[0]; [2]]]%R)
  = normalize_global [[[0]; [2]]]%R.
Proof.
  apply (normalize_global_gain_offset 2 1 [[[0]; [2]]]%R).
  - lra.
  - repeat constructor. simpl.
    destruct demo_channel_statistics as (_ & -> & _). lra.
Defined.

Lemma normalize_per_channel_gain_offset_witness :
  normalize_per_channel
    ((fun M : list (list R) =>
        (fun row : list R =>
           zip_with (fun x (g : R * R) => g.1 * x + g.2)%R row [(2, 1); (3, 0)]%R)
        <$> M) <$> [[[0; 0]; [2; 2]]]%R)
  = normalize_per_channel [[[0; 0]; [2; 2]]]%R.
Proof.
  apply (normalize_per_channel_gain_offset 2 2 [(2, 1); (3, 0)]%R [[[0; 0]; [2; 2]]]%R).
  - lia.
  - lia.
  - repeat constructor.
  - reflexivity.
  - repeat constructor; simpl; lra.
  - repeat constructor; simpl;
      destruct demo_channel_statistics as (_ & -> & _); lra.
Defined.

Lemma normalize_idempotent_witness :
  normalize_per_channel (normalize_per_channel [[[0; 0]; [2; 2]]]%R)
  = normalize_per_channel [[[0; 0]; [2; 2]]]%R.
Proof.
  apply (normalize_idempotent false 2 2 [[[0; 0]; [2; 2]]]%R).
  - lia.
  - lia.
  - repeat constructor.
  - repeat constructor; simpl;
      destruct demo_channel_statistics as (_ & -> & _); lra.
Defined.

(** ** Checkpoints saved without the prefix *)

Lemma renamed_items_absent {V} (state_dict : list (string * V)) :
  Forall (fun k => py_contains "model." k = false) state_dict.*1 ->
  renamed_items state_dict = state_dict.
Proof.
  intros Hkeys. unfold renamed_items.
  rewrite <- (list_fmap_id state_dict) at 2. apply list_fmap_ext.
  intros i [k v] Hi. unfold Datatypes.id. simpl. f_equal.
  apply py_replace_absent. rewrite Forall_forall in Hkeys. apply Hkeys.
  apply list_elem_of_fmap. exists (k, v). split; [done|].
  by eapply list_elem_of_lookup_2.
Qed.

(** X27. A saved mapping none of whose keys contains ["model."] is loaded
    under its own keys: the renaming of [load_pretrained] leaves it as it
    is. *)
Theorem new_state_dict_without_prefix {V} (state_dict : list (string * V)) :
  NoDup state_dict.*1 ->
  Forall (fun k => py_contains "model." k = false) state_dict.*1 ->
  new_state_dict state_dict = list_to_map state_dict.
Proof.
  intros Hnodup Hkeys.
  rewrite new_state_dict_list_to_map, renamed_items_absent by done.
  apply list_to_map_proper; [|apply reverse_Permutation].
  by rewrite fmap_reverse, reverse_Permutation.
Qed.

Lemma new_state_dict_without_prefix_witness :
  new_state_dict [("final.0.weight", 1); ("lstm.weight_ih_l0", 2)]
  = list_to_map [("final.0.weight", 1); ("lstm.weight_ih_l0", 2)].
Proof.
  apply (new_state_dict_without_prefix [("final.0.weight", 1); ("lstm.weight_ih_l0", 2)]).
  - apply NoDup_cons. split; [|apply NoDup_singleton].
    intros Hin. apply list_elem_of_singleton in Hin. discriminate.
  - repeat constructor.
Defined.

(** ** One file in single-position loading *)

Section SingleFile.
Variable Raw : Type.
Variable sum_axis2 : Raw -> Raw.
Variable reshape_channels : Raw -> Raw.
Variable unwrapped_phase : Raw -> list (list (list R)).
Variable magnitude : Raw -> list (list (list R)).
Variable num_samples : Raw -> Z.
Variable store_rows : shape * shape -> Z -> file_data Raw -> result unit.

(** The [else] branch of the loop body by cases. *)
Lemma load_file_single_cases (position : string) (types : signal_type)
    (norm_2d : bool) (loaded_data : archive Raw) :
  (loaded_data (position +:+ "_data") = None ->
     load_file_single Raw sum_axis2 reshape_channels unwrapped_phase magnitude
       position types norm_2d loaded_data = Ok None) /\
  (is_Some (loaded_data (position +:+ "_data")) ->
   position ∉ ["head"; "heart"; "wrist"; "neck"] ->
     load_file_single Raw sum_axis2 reshape_channels unwrapped_phase magnitude
       position types norm_2d loaded_data
     = Raise (UnboundLocalError "local variable 'data' referenced before assignment")) /\
  (forall (raw label : Raw) (type : string),
     position ∈ ["head"; "heart"; "wrist"; "neck"] ->
     loaded_data (position +:+ "_data") = Some raw ->
     loaded_data (position +:+ "_label") = Some label ->
     types = SignalType type ->
     load_file_single Raw sum_axis2 reshape_channels unwrapped_phase magnitude
       position types norm_2d loaded_data
     = (converted ← signal_conversion Raw unwrapped_phase magnitude
                       (reshape_channels
                          (if decide (position = "head") then sum_axis2 raw else raw))
                       type;
        Ok (Some (norm_2d,
                  SiteSamples Raw
                    (if norm_2d then normalize_global converted
                     else normalize_per_channel converted) label)))).
Proof.
  split; [|split].
  - intros Hnone. unfold load_file_single. by rewrite Hnone.
  - intros [raw Hraw] Hpos. unfold load_file_single. rewrite Hraw.
    rewrite !not_elem_of_cons in Hpos. destruct Hpos as (? & ? & ? & ? & _).
    by rewrite !decide_False by done.
  - intros raw label type Hpos Hraw Hlabel ->.
    unfold load_file_single. rewrite Hraw.
    rewrite !elem_of_cons in Hpos.
    destruct Hpos as [->|[->|[->|[->|Hnil]]]]; [| | | |by apply elem_of_nil in Hnil].
    all: unfold archive_get.
    all: repeat (case_decide; try discriminate; try (exfalso; congruence)).
    1: change (loaded_data "head_data" = Some raw) in Hraw;
       change (loaded_data "head_label" = Some label) in Hlabel.
    2: change (loaded_data "heart_data" = Some raw) in Hraw;
       change (loaded_data "heart_label" = Some label) in Hlabel.
    3: change (loaded_data "wrist_data" = Some raw) in Hraw;
       change (loaded_data "wrist_label" = Some label) in Hlabel.
    4: change (loaded_data "neck_data" = Some raw) in Hraw;
       change (loaded_data "neck_label" = Some label) in Hlabel.
    all: rewrite Hraw, Hlabel; cbn [fmap result_fmap mbind result_bind].
    all: by destruct (signal_conversion _ _ _ _ _).
Qed.


(** X29. The counting loop tests the key ['<position>_label'] and the
    loading loop the key ['<position>_data']: a file that holds the label
    but not the data is counted in the pre-allocated size and then skipped,
    so its rows of the pre-allocated tensors are never written. *)
Theorem counted_but_not_loaded (position : string) (types : signal_type)
    (norm_2d : bool) (loaded_data : archive Raw) (label : Raw) :
  loaded_data (position +:+ "_label") = Some label ->
  loaded_data (position +:+ "_data") = None ->
  load_data_prologue Raw num_samples (Position position) [loaded_data]
    = Ok ([num_samples label; 5000; 42], [num_samples label; 5000; 1])
  /\ load_file Raw sum_axis2 reshape_channels unwrapped_phase magnitude
       (Position position) types norm_2d loaded_data = Ok None.
Proof.
  intros Hlabel Hdata. split.
  - unfold load_data_prologue, count_samples. cbn [for_each].
    rewrite Hlabel. cbn [mbind result_bind preallocate is_joint].
    by rewrite Z.add_0_l.
  - cbn [load_file]. unfold load_file_single. by rewrite Hdata.
Qed.

End SingleFile.

Lemma has_extents_matrices (rows cols : nat) (data : list (list (list R))) :
  Forall (is_matrix rows cols) data ->
  has_extents (Z.of_nat rows) (Z.of_nat cols) data = true.
Proof.
  intros Hall. unfold has_extents. apply forallb_forall. intros M HM.
  rewrite Forall_forall in Hall. apply list_elem_of_In, Hall in HM as [Hlen Hrows].
  rewrite bool_decide_eq_true_2 by (by rewrite Hlen). simpl.
  apply forallb_forall. intros r Hr. apply bool_decide_eq_true_2.
  rewrite Forall_forall in Hrows. apply list_elem_of_In, Hrows in Hr. by rewrite Hr.
Qed.

Lemma heart_archive_extents :
  is_matrix 5000 42 ((fun i : nat => replicate 42 (INR i)) <$> seq 0 5000) /\
  is_matrix 5000 1 (replicate 5000 [0%R]).
Proof.
  split; split.
  - by rewrite length_fmap, length_seq.
  - apply Forall_fmap, Forall_forall. intros i _. apply length_replicate.
  - apply length_replicate.
  - apply Forall_forall. intros r Hr. by apply elem_of_replicate in Hr as [-> _].
Qed.


Lemma counted_but_not_loaded_witness :
  load_data_prologue (list (list (list R))) (fun a => Z.of_nat (length a))
    (Position "neck")
    [fun key => if bool_decide (key = "neck_label") then Some [[[1]]]%R else None]
    = Ok ([1; 5000; 42], [1; 5000; 1])
  /\ load_file (list (list (list R))) (fun a => a) (fun a => a) (fun a => a)
       (fun a => a) (Position "neck") (SignalType "phase") false
       (fun key => if bool_decide (key = "neck_label") then Some [[[1]]]%R else None)
     = Ok None.
Proof.
  apply (counted_but_not_loaded (list (list (list R))) (fun a => a) (fun a => a)
           (fun a => a) (fun a => a) (fun a => Z.of_nat (length a)) "neck"
           (SignalType "phase") false
           (fun key => if bool_decide (key = "neck_label") then Some [[[1]]]%R else None)
           [[[1]]]%R).
  - reflexivity.
  - reflexivity.
Defined.
